(** * snowflakeid-producer: the identifier generator and its JavaScript substrate

    A shallow embedding of [src/snowflake.js] (class [SnowflakeIdGenerator]),
    [src/customSnowflake.js] (class [CustomSnowflakeId]) and of the part of
    [index.js] that builds the default generator, with the properties of the
    generator proved over it.

    JavaScript [BigInt] values are [Z]; [<<], [>>], [&] and [|] on them are
    [Z.shiftl], [Z.shiftr], [Z.land] and [Z.lor] (arbitrary precision, two's
    complement, as in the language).  JavaScript numbers are IEEE doubles; they
    are represented by the exact value they hold, see [JsNumber]. *)

From Stdlib Require Import ZArith List String Ascii Bool Lia Sorted.
From Stdlib Require Import DecimalString DecimalZ DecimalN DecimalPos.
Import ListNotations.
Local Open Scope string_scope.
Local Open Scope Z_scope.

(** ** Errors and results *)

(** What a [throw] carries.  The library only ever throws plain [Error]
    objects, told apart by their message; the built-in conversions throw
    [RangeError], [SyntaxError] and [TypeError]. *)
Inductive JsError : Type :=
| ErrTimestampType          (* Error('Timestamp must be a number or date instance') *)
| ErrTimestampBeforeEpoch   (* Error(`Timestamp must be greater than or equal to ${...}`) *)
| ErrInvalidId              (* Error('snowflakeId must be a valid numeric string') *)
| ErrOptionsNotObject       (* Error('Options must be an object') *)
| ErrInvalidOption (key : string) (* Error(`Invalid option parameter '${key}'`) *)
| ErrMachineIdBitsType      (* Error('MachineIdBits must be a number') *)
| ErrSequenceBitsType       (* Error('SequenceBits must be a number') *)
| ErrMachineIdType          (* Error('MachineId must be a number') *)
| ErrFirstTimestampType     (* Error('FirstTimestamp must be a number or date instance') *)
| ErrFirstTimestampRange    (* Error('FirstTimestamp must be between 0 and current timestamp') *)
| ErrBitsSum                (* Error('Sum of MachineIdBits and SequenceBits must be equal to 22 ...') *)
| ErrBitsPositive           (* Error('MachineIdBits and SequenceBits must be greater than 0') *)
| ErrMachineIdRange         (* Error(`MachineId must be between 0 and ${...}`) *)
| RangeError
| SyntaxError
| TypeError.

(** The completion of an expression or call: a value, or an exception. *)
Inductive Result (A : Type) : Type :=
| Ok (a : A)
| Throw (e : JsError).
Arguments Ok {A} a.
Arguments Throw {A} e.

Definition rbind {A B : Type} (r : Result A) (k : A -> Result B) : Result B :=
  match r with
  | Ok a => k a
  | Throw e => Throw e
  end.

Notation "x <-? r ;; k" := (rbind r (fun x => k))
  (at level 61, r at next level, right associativity).

Definition throws {A : Type} (r : Result A) : Prop := exists e, r = Throw e.

(** ** Numbers *)

(** A JavaScript number, by the value it holds.  A finite double is either an
    integer or has an odd numerator over a positive power of two, so the two
    finite constructors are disjoint and every finite double has exactly one
    representation.  (Not every inhabitant is a double: precision and exponent
    range are not part of the type.  [-0] is [NumInt 0].) *)
Inductive JsNumber : Type :=
| NumInt (z : Z)                     (* the integer z *)
| NumFrac (h : Z) (k : positive)     (* (2h+1) / 2^k, never an integer *)
| NumNaN
| NumInf (negative : bool).

(** A finite number as [m * 2^e]. *)
Definition dyadic (n : JsNumber) : option (Z * Z) :=
  match n with
  | NumInt z => Some (z, 0)
  | NumFrac h k => Some (2 * h + 1, - Z.pos k)
  | NumNaN | NumInf _ => None
  end.

(** Round-to-nearest, ties-to-even, to 53 significant bits: [round53 m] is
    [(m', k)] with [m' * 2^k] the rounding of [m]. *)
Definition round53 (m : Z) : Z * Z :=
  let a := Z.abs m in
  if a <? 2 ^ 53 then (m, 0)
  else
    let k := Z.log2 a - 52 in
    let q := Z.shiftr a k in
    let r := a - Z.shiftl q k in
    let half := 2 ^ (k - 1) in
    let q' := if r <? half then q
              else if half <? r then q + 1
              else if Z.even q then q else q + 1 in
    (Z.sgn m * q', k).

(** Number of trailing zero bits. *)
Fixpoint pos_ctz (p : positive) : Z :=
  match p with
  | xO q => 1 + pos_ctz q
  | _ => 0
  end.

Definition ctz (z : Z) : Z :=
  match z with
  | Z0 => 0
  | Zpos p | Zneg p => pos_ctz p
  end.

(** The double nearest to [m * 2^e]: rounding, overflow to infinity, and the
    canonical representation.  (Gradual underflow is not modelled; sums and
    differences of doubles never underflow.) *)
Definition of_dyadic (m e : Z) : JsNumber :=
  let '(m', k) := round53 m in
  let e' := e + k in
  if m' =? 0 then NumInt 0
  else if 1024 <=? Z.log2 (Z.abs m') + e' then NumInf (m <? 0)
  else if 0 <=? e' then NumInt (m' * 2 ^ e')
  else
    let t := Z.min (- e') (ctz m') in
    let m'' := Z.shiftr m' t in
    let e'' := e' + t in
    if e'' =? 0 then NumInt m'' else NumFrac (Z.shiftr m'' 1) (Z.to_pos (- e'')).

(** [Number(b)] for a BigInt [b]. *)
Definition Number_of_BigInt (b : Z) : JsNumber := of_dyadic b 0.

(** [a + b] and [a - b] on numbers. *)
Definition num_neg (a : JsNumber) : JsNumber :=
  match a with
  | NumInt z => NumInt (- z)
  | NumFrac h k => NumFrac (- h - 1) k
  | NumNaN => NumNaN
  | NumInf s => NumInf (negb s)
  end.

Definition num_add (a b : JsNumber) : JsNumber :=
  match a, b with
  | NumNaN, _ | _, NumNaN => NumNaN
  | NumInf s, NumInf t => if Bool.eqb s t then NumInf s else NumNaN
  | NumInf s, _ | _, NumInf s => NumInf s
  | _, _ =>
      match dyadic a, dyadic b with
      | Some (m1, e1), Some (m2, e2) =>
          let e := Z.min e1 e2 in
          of_dyadic (m1 * 2 ^ (e1 - e) + m2 * 2 ^ (e2 - e)) e
      | _, _ => NumNaN
      end
  end.

Definition num_sub (a b : JsNumber) : JsNumber := num_add a (num_neg b).

(** Numeric comparison; [None] when an operand is [NaN]. *)
Definition num_compare (a b : JsNumber) : option comparison :=
  match a, b with
  | NumNaN, _ | _, NumNaN => None
  | NumInf s, NumInf t =>
      Some (if Bool.eqb s t then Eq else if s then Lt else Gt)
  | NumInf s, _ => Some (if s then Lt else Gt)
  | _, NumInf t => Some (if t then Gt else Lt)
  | _, _ =>
      match dyadic a, dyadic b with
      | Some (m1, e1), Some (m2, e2) =>
          let e := Z.min e1 e2 in
          Some (m1 * 2 ^ (e1 - e) ?= m2 * 2 ^ (e2 - e))
      | _, _ => None
      end
  end.

(** [a < b], [a > b], [a <= b], [a != b] on numbers. *)
Definition num_lt (a b : JsNumber) : bool :=
  match num_compare a b with Some Lt => true | _ => false end.
Definition num_gt (a b : JsNumber) : bool := num_lt b a.
Definition num_le (a b : JsNumber) : bool :=
  match num_compare a b with Some Lt | Some Eq => true | _ => false end.
Definition num_neq (a b : JsNumber) : bool :=
  match num_compare a b with Some Eq => false | _ => true end.

(** Truncation toward zero of a finite number. *)
Definition num_trunc (n : JsNumber) : option Z :=
  match n with
  | NumInt z => Some z
  | NumFrac h k => Some (Z.quot (2 * h + 1) (2 ^ Z.pos k))
  | NumNaN | NumInf _ => None
  end.

(** [ToInt32] and [ToUint32]. *)
Definition ToUint32 (n : JsNumber) : Z :=
  match num_trunc n with
  | Some z => z mod 2 ^ 32
  | None => 0
  end.

Definition ToInt32 (n : JsNumber) : Z :=
  let u := ToUint32 n in
  if u <? 2 ^ 31 then u else u - 2 ^ 32.

(** [a << b] on numbers (32-bit). *)
Definition num_shl (a b : JsNumber) : JsNumber :=
  let count := Z.land (ToUint32 b) 31 in
  NumInt (ToInt32 (NumInt (Z.shiftl (ToInt32 a) count))).

(** Truthiness of a number. *)
Definition num_truthy (n : JsNumber) : bool :=
  match n with
  | NumInt z => negb (z =? 0)
  | NumNaN => false
  | _ => true
  end.

(** [BigInt(n)] for a number [n]: a [RangeError] unless [n] is an integer. *)
Definition BigInt_of_number (n : JsNumber) : Result Z :=
  match n with
  | NumInt z => Ok z
  | _ => Throw RangeError
  end.

(** [a ** b] on BigInts: a [RangeError] for a negative exponent. *)
Definition BigInt_pow (a b : Z) : Result Z :=
  if b <? 0 then Throw RangeError else Ok (a ^ b).

(** ** Dates *)

(** The time value of a [Date]: milliseconds since 1970-01-01T00:00:00Z, or
    [None] for an invalid date (time value [NaN]). *)
Definition JsDate : Type := option Z.

Definition maxTimeValue : Z := 8640000000000000.

(** [new Date(n)] for a number [n] ([TimeClip]): no date beyond
    [maxTimeValue], and the fraction of a millisecond is dropped. *)
Definition Date_of_number (n : JsNumber) : JsDate :=
  if num_gt n (NumInt maxTimeValue) || num_lt n (NumInt (- maxTimeValue)) then None
  else num_trunc n.

(** [d.getTime()]. *)
Definition Date_getTime (d : JsDate) : JsNumber :=
  match d with
  | Some z => NumInt z
  | None => NumNaN
  end.

(** [new Date('2024-01-01T00:00:00.000Z')]. *)
Definition defaultFirstTimestamp : JsDate := Some 1704067200000.


(** ** Strings and BigInt literals *)

(** Strings are sequences of code units below 256.  [StrWhiteSpaceChar] in
    that range: TAB, LF, VT, FF, CR, SP and NBSP. *)
Definition is_whitespace (c : ascii) : bool :=
  let n := Z.of_nat (nat_of_ascii c) in
  ((9 <=? n) && (n <=? 13)) || (n =? 32) || (n =? 160).

Definition is_empty (s : string) : bool :=
  match s with
  | EmptyString => true
  | String _ _ => false
  end.

Fixpoint trimStart (s : string) : string :=
  match s with
  | EmptyString => EmptyString
  | String c s' => if is_whitespace c then trimStart s' else s
  end.

Fixpoint trimEnd (s : string) : string :=
  match s with
  | EmptyString => EmptyString
  | String c s' =>
      let r := trimEnd s' in
      if is_whitespace c && is_empty r then EmptyString else String c r
  end.

Definition trim (s : string) : string := trimEnd (trimStart s).

(** The value of a digit in the given radix (2, 8, 10 or 16). *)
Definition digit_value (radix : Z) (c : ascii) : option Z :=
  let n := Z.of_nat (nat_of_ascii c) in
  let v := if (48 <=? n) && (n <=? 57) then Some (n - 48)
           else if (97 <=? n) && (n <=? 102) then Some (n - 87)
           else if (65 <=? n) && (n <=? 70) then Some (n - 55)
           else None in
  match v with
  | Some d => if d <? radix then Some d else None
  | None => None
  end.

Fixpoint digits_from (radix acc : Z) (s : string) : option Z :=
  match s with
  | EmptyString => Some acc
  | String c s' =>
      match digit_value radix c with
      | Some d => digits_from radix (acc * radix + d) s'
      | None => None
      end
  end.

(** One or more digits of the radix. *)
Definition parse_digits (radix : Z) (s : string) : option Z :=
  if is_empty s then None else digits_from radix 0 s.

(** The prefix of a literal in radix 16, 8 or 2, and what follows it. *)
Definition radix_prefix (s : string) : option (Z * string) :=
  match s with
  | String c0 (String c1 body) =>
      if Ascii.eqb c0 "0" then
        if Ascii.eqb c1 "x" || Ascii.eqb c1 "X" then Some (16, body)
        else if Ascii.eqb c1 "o" || Ascii.eqb c1 "O" then Some (8, body)
        else if Ascii.eqb c1 "b" || Ascii.eqb c1 "B" then Some (2, body)
        else None
      else None
  | _ => None
  end.

(** [StringToBigInt]: the text, white space trimmed, is empty (zero),
    decimal digits with an optional sign, or a [0x], [0o] or [0b] literal. *)
Definition StringToBigInt (s : string) : option Z :=
  let t := trim s in
  match t with
  | EmptyString => Some 0
  | String c rest =>
      if Ascii.eqb c "+" then parse_digits 10 rest
      else if Ascii.eqb c "-" then option_map Z.opp (parse_digits 10 rest)
      else
        match radix_prefix t with
        | Some (radix, body) => parse_digits radix body
        | None => parse_digits 10 t
        end
  end.

(** [BigInt(s)] for a string [s]. *)
Definition BigInt_of_string (s : string) : Result Z :=
  match StringToBigInt s with
  | Some z => Ok z
  | None => Throw SyntaxError
  end.

(** [b.toString()] for a BigInt [b]: decimal digits, ["-"] before a negative
    value, no leading zero. *)
Definition BigInt_toString (b : Z) : string :=
  NilZero.string_of_int (Z.to_int b).

(** The unsigned integer a decimal string denotes. *)
Definition as_unsigned (s : string) : option Z := parse_digits 10 s.

(** ** Values *)

#[local] Set Warnings "-register-all".

(** The values a caller can hand to the library.  An object is the list of
    its own enumerable properties, in [Object.keys] order. *)
Inductive JsValue : Type :=
| VUndefined
| VNull
| VBool (b : bool)
| VNumber (n : JsNumber)
| VBigInt (z : Z)
| VString (s : string)
| VSymbol
| VFunction
| VDate (d : JsDate)
| VArray (items : list JsValue)
| VObject (props : list (string * JsValue)).

(** Truthiness. *)
Definition truthy (v : JsValue) : bool :=
  match v with
  | VUndefined | VNull => false
  | VBool b => b
  | VNumber n => num_truthy n
  | VBigInt z => negb (z =? 0)
  | VString s => negb (is_empty s)
  | _ => true
  end.

(** [typeof v === 'object'] *)
Definition typeof_object (v : JsValue) : bool :=
  match v with
  | VNull | VDate _ | VArray _ | VObject _ => true
  | _ => false
  end.

Definition Array_isArray (v : JsValue) : bool :=
  match v with
  | VArray _ => true
  | _ => false
  end.

(** [Object.keys(v)] for an object that is not an array. *)
Definition Object_keys (v : JsValue) : list string :=
  match v with
  | VObject props => map fst props
  | _ => []
  end.

Fixpoint lookup (key : string) (props : list (string * JsValue)) : JsValue :=
  match props with
  | [] => VUndefined
  | (k, v) :: rest => if String.eqb k key then v else lookup key rest
  end.

(** [v[key]] (own properties only). *)
Definition get_property (v : JsValue) (key : string) : JsValue :=
  match v with
  | VObject props => lookup key props
  | _ => VUndefined
  end.

(** [keys.includes(key)] *)
Definition includes (keys : list string) (key : string) : bool :=
  existsb (String.eqb key) keys.

(** ** The host: clock and network interfaces *)

(** One entry of [os.networkInterfaces()]. *)
Record NetworkInterfaceInfo : Type := {
  family : string;
  internal : bool;
  mac : string
}.

(** [Object.values(os.networkInterfaces())]; an entry may be [undefined]. *)
Definition NetworkInterfaces : Type := list (option (list NetworkInterfaceInfo)).

Fixpoint remove_colons (s : string) : string :=
  match s with
  | EmptyString => EmptyString
  | String c s' =>
      if Ascii.eqb c ":" then remove_colons s' else String c (remove_colons s')
  end.

Fixpoint hex_prefix (acc : Z) (seen : bool) (s : string) : option Z :=
  match s with
  | EmptyString => if seen then Some acc else None
  | String c s' =>
      match digit_value 16 c with
      | Some d => hex_prefix (acc * 16 + d) true s'
      | None => if seen then Some acc else None
      end
  end.

(** [parseInt(s, 16)] *)
Definition parseInt16 (s : string) : JsNumber :=
  let s := trimStart s in
  let '(negative, s) :=
    match s with
    | String "-" t => (true, t)
    | String "+" t => (false, t)
    | _ => (false, s)
    end in
  let s :=
    match s with
    | String "0" (String "x" t) | String "0" (String "X" t) => t
    | _ => s
    end in
  match hex_prefix 0 false s with
  | Some v => Number_of_BigInt (if negative then - v else v)
  | None => NumNaN
  end.

(** ** [src/snowflake.js]: class [SnowflakeIdGenerator] *)

Module Parsed.
(** The object [parseId] returns. *)
Record t : Type := {
  timestamp : JsDate;
  machineId : JsNumber;
  sequence : JsNumber
}.
End Parsed.

Module SnowflakeIdGenerator.

(** [this.lastTimestamp] holds a [Date] from construction until the first
    [nextId], which stores a BigInt in it. *)
Inductive Timestamp : Type :=
| AsDate (ms : Z)
| AsBigInt (v : Z).

(** The fields of an instance.  Construction fails unless [firstTimestamp] is
    a valid date, so the two dates are given by their time values. *)
Record Generator : Type := {
  timestampBits : Z;
  machineIdBits : Z;
  sequenceBits : Z;
  maxTimestamp : Z;
  maxMachineId : Z;
  maxSequence : Z;
  machineId : Z;
  sequence : Z;
  lastTimestamp : Timestamp;
  firstTimestamp : Z;
  EPOCH : Z
}.

(** An instance together with the readings [Date.now()] will give, in order.
    A call that needs more readings than are left has no outcome. *)
Record World : Type := {
  this : Generator;
  clock : list Z
}.

Definition M (A : Type) : Type := World -> option (Result A * World).

Definition ret {A : Type} (a : A) : M A := fun w => Some (Ok a, w).

Definition throw {A : Type} (e : JsError) : M A := fun w => Some (Throw e, w).

Definition bind {A B : Type} (m : M A) (k : A -> M B) : M B :=
  fun w =>
    match m w with
    | Some (Ok a, w') => k a w'
    | Some (Throw e, w') => Some (Throw e, w')
    | None => None
    end.

Notation "x <- m ;; k" := (bind m (fun x => k))
  (at level 61, m at next level, right associativity).
Notation "m ;;; k" := (bind m (fun _ => k))
  (at level 61, right associativity).

Definition lift {A : Type} (r : Result A) : M A := fun w => Some (r, w).

(** [try { m } catch (error) { h }] *)
Definition try_catch {A : Type} (m : M A) (h : JsError -> M A) : M A :=
  fun w =>
    match m w with
    | Some (Throw e, w') => h e w'
    | o => o
    end.

Definition get_this : M Generator := fun w => Some (Ok (this w), w).

Definition with_sequence (v : Z) (g : Generator) : Generator :=
  {| timestampBits := timestampBits g; machineIdBits := machineIdBits g;
     sequenceBits := sequenceBits g; maxTimestamp := maxTimestamp g;
     maxMachineId := maxMachineId g; maxSequence := maxSequence g;
     machineId := machineId g; sequence := v;
     lastTimestamp := lastTimestamp g; firstTimestamp := firstTimestamp g;
     EPOCH := EPOCH g |}.

Definition with_lastTimestamp (v : Timestamp) (g : Generator) : Generator :=
  {| timestampBits := timestampBits g; machineIdBits := machineIdBits g;
     sequenceBits := sequenceBits g; maxTimestamp := maxTimestamp g;
     maxMachineId := maxMachineId g; maxSequence := maxSequence g;
     machineId := machineId g; sequence := sequence g;
     lastTimestamp := v; firstTimestamp := firstTimestamp g;
     EPOCH := EPOCH g |}.

(** [this.sequence = v] *)
Definition set_sequence (v : Z) : M unit :=
  fun w => Some (Ok tt, {| this := with_sequence v (this w); clock := clock w |}).

(** [this.lastTimestamp = v] *)
Definition set_lastTimestamp (v : Timestamp) : M unit :=
  fun w => Some (Ok tt, {| this := with_lastTimestamp v (this w); clock := clock w |}).

(** [BigInt(Date.now())]: the next reading of the clock. *)
Definition Date_now : M Z :=
  fun w =>
    match clock w with
    | [] => None
    | t :: rest => Some (Ok t, {| this := this w; clock := rest |})
    end.

(** The time value of [this.lastTimestamp], which [<] and [<=] compare a
    BigInt with (a [Date] operand is converted to its time value). *)
Definition time_value (l : Timestamp) : Z :=
  match l with
  | AsDate ms => ms
  | AsBigInt v => v
  end.

(** [l === t] for a BigInt [t]: never true of a [Date]. *)
Definition strict_equals (l : Timestamp) (t : Z) : bool :=
  match l with
  | AsDate _ => false
  | AsBigInt v => v =? t
  end.

(** [while (cond(timestamp)) timestamp = BigInt(Date.now())], on the readings
    that are left: the final [timestamp] and the readings not consumed. *)
Fixpoint poll_while (cond : Z -> bool) (timestamp : Z) (readings : list Z)
  {struct readings} : option (Z * list Z) :=
  if cond timestamp then
    match readings with
    | [] => None
    | t :: rest => poll_while cond t rest
    end
  else Some (timestamp, readings).

(** The same loop as a computation; its condition reads [this]. *)
Definition while_polling (cond : Generator -> Z -> bool) (timestamp : Z) : M Z :=
  fun w =>
    match poll_while (cond (this w)) timestamp (clock w) with
    | Some (t, rest) => Some (Ok t, {| this := this w; clock := rest |})
    | None => None
    end.

Fixpoint first_external_IPv4 (values : list NetworkInterfaceInfo) : option string :=
  match values with
  | [] => None
  | item :: rest =>
      if String.eqb (family item) "IPv4" && negb (internal item)
      then Some (mac item)
      else first_external_IPv4 rest
  end.

(** [generateMachineId()]; it reads [this.maxMachineId]. *)
Definition generateMachineId (interfaces : NetworkInterfaces) (maxMachineId : Z)
  : Result Z :=
  let macAddress :=
    fold_left
      (fun macAddress values =>
         match values with
         | None => macAddress
         | Some items =>
             match first_external_IPv4 items with
             | Some m => m
             | None => macAddress
             end
         end)
      interfaces EmptyString in
  machineId <-? (if negb (is_empty macAddress)
                 then BigInt_of_number (parseInt16 (remove_colons macAddress))
                 else Ok 0) ;;
  Ok (Z.land machineId maxMachineId).

(** [new SnowflakeIdGenerator(machineIdBits, sequenceBits, machineId,
    firstTimestamp)]; [machineId] is [None] for [null] or [undefined], and so
    is [firstTimestamp]. *)
Definition constructor (interfaces : NetworkInterfaces)
  (machineIdBits sequenceBits : JsNumber) (machineId : option JsNumber)
  (firstTimestamp : option JsDate) : Result Generator :=
  let timestampBits := 41 in
  machineIdBits <-? BigInt_of_number machineIdBits ;;
  sequenceBits <-? BigInt_of_number sequenceBits ;;
  p <-? BigInt_pow 2 timestampBits ;;
  let maxTimestamp := p - 1 in
  p <-? BigInt_pow 2 machineIdBits ;;
  let maxMachineId := p - 1 in
  p <-? BigInt_pow 2 sequenceBits ;;
  let maxSequence := p - 1 in
  machineId <-? match machineId with
                | None => generateMachineId interfaces maxMachineId
                | Some n => BigInt_of_number n
                end ;;
  let firstTimestamp :=
    match firstTimestamp with
    | Some d => d
    | None => defaultFirstTimestamp
    end in
  EPOCH <-? BigInt_of_number (Date_getTime firstTimestamp) ;;
  Ok {| timestampBits := timestampBits; machineIdBits := machineIdBits;
        sequenceBits := sequenceBits; maxTimestamp := maxTimestamp;
        maxMachineId := maxMachineId; maxSequence := maxSequence;
        machineId := machineId; sequence := 0;
        lastTimestamp := AsDate EPOCH; firstTimestamp := EPOCH;
        EPOCH := EPOCH |}.

Definition waitNextMillis : M Z :=
  timestamp <- Date_now ;;
  while_polling (fun self t => t <=? time_value (lastTimestamp self)) timestamp.

Definition nextId : M string :=
  timestamp <- Date_now ;;
  timestamp <-
    while_polling (fun self t => t <? time_value (lastTimestamp self)) timestamp ;;
  self <- get_this ;;
  timestamp <-
    (if strict_equals (lastTimestamp self) timestamp then
       set_sequence (Z.land (sequence self + 1) (maxSequence self)) ;;;
       self <- get_this ;;
       if sequence self =? 0 then waitNextMillis else ret timestamp
     else
       set_sequence 0 ;;; ret timestamp) ;;
  set_lastTimestamp (AsBigInt timestamp) ;;;
  self <- get_this ;;
  let uniqueId :=
    Z.lor
      (Z.lor
         (Z.shiftl (timestamp - EPOCH self) (machineIdBits self + sequenceBits self))
         (Z.shiftl (machineId self) (sequenceBits self)))
      (sequence self) in
  ret (BigInt_toString uniqueId).

(** The type test and conversion both boundary functions start with. *)
Definition timestamp_to_BigInt (timestamp : JsValue) : Result Z :=
  match timestamp with
  | VNumber n => BigInt_of_number n
  | VDate d => BigInt_of_number (Date_getTime d)
  | _ => Throw ErrTimestampType
  end.

Definition getFirstIdAtTimestamp (timestamp : JsValue) : M string :=
  timestamp <- lift (timestamp_to_BigInt timestamp) ;;
  self <- get_this ;;
  if timestamp <? EPOCH self then throw ErrTimestampBeforeEpoch
  else
    let id :=
      Z.lor
        (Z.lor
           (Z.shiftl (timestamp - EPOCH self) (machineIdBits self + sequenceBits self))
           (Z.shiftl 0 (sequenceBits self)))
        0 in
    ret (BigInt_toString id).

Definition getLastIdAtTimestamp (timestamp : JsValue) : M string :=
  timestamp <- lift (timestamp_to_BigInt timestamp) ;;
  self <- get_this ;;
  if timestamp <? EPOCH self then throw ErrTimestampBeforeEpoch
  else
    let id :=
      Z.lor
        (Z.lor
           (Z.shiftl (timestamp - EPOCH self) (machineIdBits self + sequenceBits self))
           (Z.shiftl (maxMachineId self) (sequenceBits self)))
        (maxSequence self) in
    ret (BigInt_toString id).

Definition parseId (id : string) : M Parsed.t :=
  idBits <- lift (BigInt_of_string id) ;;
  self <- get_this ;;
  let sequence := Z.land idBits (maxSequence self) in
  let machineId := Z.land (Z.shiftr idBits (sequenceBits self)) (maxMachineId self) in
  let timestamp :=
    Z.shiftr idBits (machineIdBits self + sequenceBits self) + EPOCH self in
  ret {| Parsed.timestamp := Date_of_number (Number_of_BigInt timestamp);
         Parsed.machineId := Number_of_BigInt machineId;
         Parsed.sequence := Number_of_BigInt sequence |}.

End SnowflakeIdGenerator.

(** ** [src/customSnowflake.js]: class [CustomSnowflakeId] *)

Module CustomSnowflakeId.
Import SnowflakeIdGenerator.

(** An instance: its one field, [this.snowflake]. *)
Record t : Type := { snowflake : Generator }.

Definition validKeys : list string :=
  ["MachineIdBits"; "SequenceBits"; "MachineId"; "FirstTimestamp"].

(** [for (const key of optionKeys) if (!validKeys.includes(key)) throw ...] *)
Fixpoint check_keys (optionKeys : list string) : Result unit :=
  match optionKeys with
  | [] => Ok tt
  | key :: rest =>
      if includes validKeys key then check_keys rest
      else Throw (ErrInvalidOption key)
  end.

Definition is_null (v : JsValue) : bool :=
  match v with VNull => true | _ => false end.
Definition is_undefined (v : JsValue) : bool :=
  match v with VUndefined => true | _ => false end.
Definition typeof_number (v : JsValue) : bool :=
  match v with VNumber _ => true | _ => false end.
Definition instanceof_Date (v : JsValue) : bool :=
  match v with VDate _ => true | _ => false end.

Definition check (failed : bool) (e : JsError) : Result unit :=
  if failed then Throw e else Ok tt.

(** A [FirstTimestamp] that passed its type check. *)
Inductive TimestampOption : Type :=
| TsNumber (n : JsNumber)
| TsDate (d : JsDate).

(** The four options once their types are checked; [None] is [undefined]
    (a key that passed its check is either absent or holds a value of the
    checked type). *)
Record Options : Type := {
  MachineIdBits : option JsNumber;
  SequenceBits : option JsNumber;
  MachineId : option JsNumber;
  FirstTimestamp : option TimestampOption
}.

Definition number_option (v : JsValue) : option JsNumber :=
  match v with VNumber n => Some n | _ => None end.

Definition timestamp_option (v : JsValue) : option TimestampOption :=
  match v with
  | VNumber n => Some (TsNumber n)
  | VDate d => Some (TsDate d)
  | _ => None
  end.

(** Lines 49 to 76 of the constructor: the shape of [options], its keys and
    the type of each option. *)
Definition validate_options (options : JsValue) : Result Options :=
  _ <-? check (truthy options && (negb (typeof_object options) || Array_isArray options))
          ErrOptionsNotObject ;;
  _ <-? check (is_null options) ErrOptionsNotObject ;;
  let options := if negb (truthy options) then VObject [] else options in
  let optionKeys := Object_keys options in
  _ <-? check_keys optionKeys ;;
  let MachineIdBits := get_property options "MachineIdBits" in
  let SequenceBits := get_property options "SequenceBits" in
  let MachineId := get_property options "MachineId" in
  let FirstTimestamp := get_property options "FirstTimestamp" in
  _ <-? check (includes optionKeys "MachineIdBits" &&
               (is_null MachineIdBits || is_undefined MachineIdBits ||
                negb (typeof_number MachineIdBits)))
          ErrMachineIdBitsType ;;
  _ <-? check (includes optionKeys "SequenceBits" &&
               (is_null SequenceBits || is_undefined SequenceBits ||
                negb (typeof_number SequenceBits)))
          ErrSequenceBitsType ;;
  _ <-? check (includes optionKeys "MachineId" &&
               (is_null MachineId || is_undefined MachineId ||
                negb (typeof_number MachineId)))
          ErrMachineIdType ;;
  _ <-? check (includes optionKeys "FirstTimestamp" &&
               (is_null FirstTimestamp || is_undefined FirstTimestamp ||
                (negb (typeof_number FirstTimestamp) &&
                 negb (instanceof_Date FirstTimestamp))))
          ErrFirstTimestampType ;;
  Ok {| MachineIdBits := number_option MachineIdBits;
        SequenceBits := number_option SequenceBits;
        MachineId := number_option MachineId;
        FirstTimestamp := timestamp_option FirstTimestamp |}.

(** [new Date(FirstTimestamp)] *)
Definition new_Date (FirstTimestamp : option TimestampOption) : JsDate :=
  match FirstTimestamp with
  | None => None
  | Some (TsNumber n) => Date_of_number n
  | Some (TsDate d) => d
  end.

Definition present {A : Type} (o : option A) : bool :=
  match o with Some _ => true | None => false end.

(** Line 77: [includes && getTime() < 0 || getTime() > Date.now()]. *)
Definition check_FirstTimestamp (now : Z) (FirstTimestamp : option TimestampOption)
  : Result unit :=
  check ((present FirstTimestamp &&
          num_lt (Date_getTime (new_Date FirstTimestamp)) (NumInt 0)) ||
         num_gt (Date_getTime (new_Date FirstTimestamp)) (NumInt now))
    ErrFirstTimestampRange.

(** Lines 81 to 92: the two bit-widths, given, derived or defaulted. *)
Definition bit_widths (o : Options) : JsNumber * JsNumber :=
  match MachineIdBits o, SequenceBits o with
  | Some mb, Some sb => (mb, sb)
  | Some mb, None => (mb, num_sub (NumInt 22) mb)
  | None, Some sb => (num_sub (NumInt 22) sb, sb)
  | None, None => (NumInt 10, NumInt 12)
  end.

(** Lines 94 to 99. *)
Definition check_bit_widths (machineIdBits sequenceBits : JsNumber) : Result unit :=
  _ <-? check (num_neq (num_add machineIdBits sequenceBits) (NumInt 22)) ErrBitsSum ;;
  check (num_le machineIdBits (NumInt 0) || num_le sequenceBits (NumInt 0))
    ErrBitsPositive.

(** Lines 101 to 106.  The test reads the local [machineId], which is still
    [null] there ([null] converts to [0]), not the option [MachineId]. *)
Definition check_MachineId (machineIdBits : JsNumber) (MachineId : option JsNumber)
  : Result (option JsNumber) :=
  let machineId : JsNumber := NumInt 0 in
  match MachineId with
  | Some n =>
      _ <-? check (num_lt machineId (NumInt 0) ||
                   num_gt machineId
                     (num_sub (num_shl (NumInt 1) machineIdBits) (NumInt 1)))
              ErrMachineIdRange ;;
      Ok (Some n)
  | None => Ok None
  end.

Definition timestamp_truthy (FirstTimestamp : option TimestampOption) : bool :=
  match FirstTimestamp with
  | None => false
  | Some (TsNumber n) => num_truthy n
  | Some (TsDate _) => true
  end.

(** [new CustomSnowflakeId(options)], on a host with the given network
    interfaces, at a moment when [Date.now()] is [now]. *)
Definition constructor (interfaces : NetworkInterfaces) (now : Z) (options : JsValue)
  : Result t :=
  o <-? validate_options options ;;
  _ <-? check_FirstTimestamp now (FirstTimestamp o) ;;
  let '(machineIdBits, sequenceBits) := bit_widths o in
  _ <-? check_bit_widths machineIdBits sequenceBits ;;
  machineId <-? check_MachineId machineIdBits (MachineId o) ;;
  let firstTimestamp :=
    if timestamp_truthy (FirstTimestamp o) then new_Date (FirstTimestamp o)
    else defaultFirstTimestamp in
  g <-? SnowflakeIdGenerator.constructor interfaces machineIdBits sequenceBits
          machineId (Some firstTimestamp) ;;
  Ok {| snowflake := g |}.

(** The methods run on [this.snowflake], which a constructed instance always
    holds, so their guard [!this.snowflake || !(... instanceof ...)] never
    fires. *)
Definition newId : M string := nextId.

Definition getFirstIdAt (timestamp : JsValue) : M string :=
  getFirstIdAtTimestamp timestamp.

Definition getLastIdAt (timestamp : JsValue) : M string :=
  getLastIdAtTimestamp timestamp.

Definition parseId (snowflakeId : string) : M Parsed.t :=
  try_catch
    (parsedContent <- SnowflakeIdGenerator.parseId snowflakeId ;;
     ret {| Parsed.timestamp := Parsed.timestamp parsedContent;
            Parsed.machineId := Parsed.machineId parsedContent;
            Parsed.sequence := Parsed.sequence parsedContent |})
    (fun _ => throw ErrInvalidId).

End CustomSnowflakeId.

(** ** [index.js]: the default generator *)

(** [new SnowflakeIdGenerator(10, 12, null, new Date('2024-01-01T00:00:00.000Z'))] *)
Definition defaultSnowflake (interfaces : NetworkInterfaces)
  : Result SnowflakeIdGenerator.Generator :=
  SnowflakeIdGenerator.constructor interfaces (NumInt 10) (NumInt 12) None
    (Some defaultFirstTimestamp).

(** The class [SnowflakeId]: static methods that run on [defaultSnowflake]. *)
Module SnowflakeId.
Import SnowflakeIdGenerator.

Definition newId : M string := nextId.

Definition getFirstIdAt (timestamp : JsValue) : M string :=
  getFirstIdAtTimestamp timestamp.

Definition getLastIdAt (timestamp : JsValue) : M string :=
  getLastIdAtTimestamp timestamp.

Definition parseId (snowflakeId : string) : M Parsed.t :=
  try_catch
    (parsedContent <- SnowflakeIdGenerator.parseId snowflakeId ;;
     ret {| Parsed.timestamp := Parsed.timestamp parsedContent;
            Parsed.machineId := Parsed.machineId parsedContent;
            Parsed.sequence := Parsed.sequence parsedContent |})
    (fun _ => throw ErrInvalidId).

End SnowflakeId.

(** * The vocabulary of the properties *)

(** ** Texts *)

Fixpoint all_whitespace (s : string) : bool :=
  match s with
  | EmptyString => true
  | String c s' => is_whitespace c && all_whitespace s'
  end.

Fixpoint all_digits (radix : Z) (s : string) : bool :=
  match s with
  | EmptyString => true
  | String c s' =>
      match digit_value radix c with
      | Some _ => all_digits radix s'
      | None => false
      end
  end.

(** One or more digits of the radix; with radix 10, a non-negative integer
    in decimal notation. *)
Definition is_digits (radix : Z) (s : string) : bool :=
  negb (is_empty s) && all_digits radix s.

(** [StrIntegerLiteral]: signed decimal digits, or an unsigned literal in
    radix 16, 8 or 2. *)
Inductive StrIntegerLiteral : string -> Prop :=
| lit_decimal (ds : string) :
    is_digits 10 ds = true -> StrIntegerLiteral ds
| lit_plus (ds : string) :
    is_digits 10 ds = true -> StrIntegerLiteral (String "+" ds)
| lit_minus (ds : string) :
    is_digits 10 ds = true -> StrIntegerLiteral (String "-" ds)
| lit_hex (x : ascii) (ds : string) :
    x = "x"%char \/ x = "X"%char ->
    is_digits 16 ds = true -> StrIntegerLiteral (String "0" (String x ds))
| lit_octal (o : ascii) (ds : string) :
    o = "o"%char \/ o = "O"%char ->
    is_digits 8 ds = true -> StrIntegerLiteral (String "0" (String o ds))
| lit_binary (b : ascii) (ds : string) :
    b = "b"%char \/ b = "B"%char ->
    is_digits 2 ds = true -> StrIntegerLiteral (String "0" (String b ds)).

(** [StringIntegerLiteral], the texts [BigInt()] is to accept: white space,
    then nothing or a literal, then white space. *)
Definition StringIntegerLiteral (s : string) : Prop :=
  exists l body r,
    s = (l ++ body ++ r)%string /\
    all_whitespace l = true /\ all_whitespace r = true /\
    (body = EmptyString \/ StrIntegerLiteral body).

Fixpoint last_char (s : string) : option ascii :=
  match s with
  | EmptyString => None
  | String c EmptyString => Some c
  | String _ s' => last_char s'
  end.

(** The value of a run of decimal digits read after [acc]. *)
Fixpoint uint_value (acc : Z) (d : Decimal.uint) : Z :=
  match d with
  | Decimal.Nil => acc
  | Decimal.D0 d => uint_value (acc * 10 + 0) d
  | Decimal.D1 d => uint_value (acc * 10 + 1) d
  | Decimal.D2 d => uint_value (acc * 10 + 2) d
  | Decimal.D3 d => uint_value (acc * 10 + 3) d
  | Decimal.D4 d => uint_value (acc * 10 + 4) d
  | Decimal.D5 d => uint_value (acc * 10 + 5) d
  | Decimal.D6 d => uint_value (acc * 10 + 6) d
  | Decimal.D7 d => uint_value (acc * 10 + 7) d
  | Decimal.D8 d => uint_value (acc * 10 + 8) d
  | Decimal.D9 d => uint_value (acc * 10 + 9) d
  end.

(** ** Instances *)

Section Vocabulary.
Import SnowflakeIdGenerator.

(** A configuration: two positive bit-widths that add up to 22, the masks
    derived from them, and a machine id that fits its field. *)
Definition valid_configuration (g : Generator) : bool :=
  (0 <? machineIdBits g) && (0 <? sequenceBits g) &&
  (machineIdBits g + sequenceBits g =? 22) &&
  (maxMachineId g =? 2 ^ machineIdBits g - 1) &&
  (maxSequence g =? 2 ^ sequenceBits g - 1) &&
  (0 <=? machineId g) && (machineId g <=? maxMachineId g).

(** Two instances with the same configuration: every field but
    [lastTimestamp] and [sequence] agrees. *)
Definition same_configuration (g g' : Generator) : Prop :=
  timestampBits g' = timestampBits g /\
  machineIdBits g' = machineIdBits g /\
  sequenceBits g' = sequenceBits g /\
  maxTimestamp g' = maxTimestamp g /\
  maxMachineId g' = maxMachineId g /\
  maxSequence g' = maxSequence g /\
  machineId g' = machineId g /\
  firstTimestamp g' = firstTimestamp g /\
  EPOCH g' = EPOCH g.

(** The identifier [nextId] composes from a timestamp and a sequence value. *)
Definition compose_id (g : Generator) (timestamp sequence : Z) : Z :=
  Z.lor
    (Z.lor
       (Z.shiftl (timestamp - EPOCH g) (machineIdBits g + sequenceBits g))
       (Z.shiftl (machineId g) (sequenceBits g)))
    sequence.

(** The same identifier as the sum of its three fields. *)
Definition id_value (g : Generator) (timestamp sequence : Z) : Z :=
  (timestamp - EPOCH g) * 2 ^ (machineIdBits g + sequenceBits g)
  + machineId g * 2 ^ sequenceBits g + sequence.

(** [n] calls of [nextId] in a row, with the identifiers in the order they
    were returned. *)
Fixpoint nextIds (n : nat) : M (list string) :=
  match n with
  | O => ret []
  | S k =>
      id <- nextId ;;
      ids <- nextIds k ;;
      ret (id :: ids)
  end.

(** The unsigned integer a call returns as a decimal string. *)
Definition returned_value (m : M string) (w : World) : option Z :=
  match m w with
  | Some (Ok s, _) => as_unsigned s
  | _ => None
  end.

(** The time value a caller hands over, as an integral number or as a valid
    [Date]. *)
Definition timestamp_value (v : JsValue) : option Z :=
  match v with
  | VNumber (NumInt z) => Some z
  | VDate (Some z) => Some z
  | _ => None
  end.

Definition is_number_or_Date (v : JsValue) : bool :=
  match v with
  | VNumber _ | VDate _ => true
  | _ => false
  end.

(** [v < epoch] as numbers compare, for a number or a [Date]. *)
Definition strictly_before (v : JsValue) (epoch : Z) : bool :=
  match v with
  | VNumber n => num_lt n (NumInt epoch)
  | VDate d => num_lt (Date_getTime d) (NumInt epoch)
  | _ => false
  end.

(** When the boundary functions are to fail on [v]: it is no number and no
    [Date]; or it is one whose millisecond value is not an integer (a
    fraction, [NaN], an infinity, an invalid date), which [BigInt()] refuses;
    or its value is before the epoch. *)
Definition rejected_timestamp (g : Generator) (v : JsValue) : Prop :=
  is_number_or_Date v = false \/
  (is_number_or_Date v = true /\ timestamp_value v = None) \/
  (exists T, timestamp_value v = Some T /\ T < EPOCH g).

(** [decodeId(getFirstIdAtTimestamp(v))] and [decodeId(getLastIdAtTimestamp(v))] *)
Definition decode_first (v : JsValue) : M Parsed.t :=
  id <- getFirstIdAtTimestamp v ;; parseId id.

Definition decode_last (v : JsValue) : M Parsed.t :=
  id <- getLastIdAtTimestamp v ;; parseId id.

(** The round trip of the first and of the last identifier of [T], passed
    as [v], on the instance [g]. *)
Definition roundtrip (g : Generator) (T : Z) (v : JsValue) : Prop :=
  forall readings : list Z,
    let w := {| this := g; clock := readings |} in
    decode_first v w
    = Some (Ok {| Parsed.timestamp := Some T;
                  Parsed.machineId := NumInt 0;
                  Parsed.sequence := NumInt 0 |}, w) /\
    decode_last v w
    = Some (Ok {| Parsed.timestamp := Some T;
                  Parsed.machineId := NumInt (maxMachineId g);
                  Parsed.sequence := NumInt (maxSequence g) |}, w).

(** The two bit-widths a configuration may have: positive integers that add
    up to 22. *)
Definition valid_bit_widths (widths : JsNumber * JsNumber) : Prop :=
  exists m s : Z,
    widths = (NumInt m, NumInt s) /\ 0 < m /\ 0 < s /\ m + s = 22.

(** The instance of the documentation's example: 10 and 12 bits, machine 5,
    epoch 2024-01-01T00:00:00.000Z. *)
Definition example_options : JsValue :=
  VObject [("MachineIdBits", VNumber (NumInt 10));
           ("SequenceBits", VNumber (NumInt 12));
           ("MachineId", VNumber (NumInt 5));
           ("FirstTimestamp", VDate (Some 1704067200000))].

Definition example_generator : Generator :=
  {| timestampBits := 41; machineIdBits := 10; sequenceBits := 12;
     maxTimestamp := 2199023255551; maxMachineId := 1023; maxSequence := 4095;
     machineId := 5; sequence := 0;
     lastTimestamp := AsDate 1704067200000;
     firstTimestamp := 1704067200000; EPOCH := 1704067200000 |}.

Definition example_world (readings : list Z) : World :=
  {| this := example_generator; clock := readings |}.

End Vocabulary.

(** ** Tactics *)

(** [0 < 2 ^ n] for a non-negative exponent. *)
Ltac pow_pos := apply Z.pow_pos_nonneg; lia.

(** Case analysis on a positive number that a hypothesis bounds. *)
Ltac bounded_positive p :=
  first [ lia | destruct p as [p|p|]; [bounded_positive p | bounded_positive p | ] ].

(** ** Further vocabulary *)

Section FurtherVocabulary.
Import SnowflakeIdGenerator.

(** The timestamp field of an identifier on the instance [g]. *)
Definition timestamp_field (g : Generator) (z : Z) : Z :=
  Z.shiftr z (machineIdBits g + sequenceBits g).

(** How many identifiers of a list carry the timestamp field [t]. *)
Definition issued_at (g : Generator) (t : Z) (zs : list Z) : nat :=
  List.length (filter (fun z => timestamp_field g z =? t) zs).

(** The state an instance is to be in: [lastTimestamp] not before the epoch
    and [sequence] inside its field. *)
Definition valid_state (g : Generator) : Prop :=
  EPOCH g <= time_value (lastTimestamp g) /\ 0 <= sequence g <= maxSequence g.

(** No entry of the group is a non-internal IPv4 address. *)
Definition no_external_IPv4 (values : option (list NetworkInterfaceInfo)) : Prop :=
  match values with
  | None => True
  | Some items => first_external_IPv4 items = None
  end.

(** The loop over the interface groups, from the address found so far. *)
Definition scan_interfaces (interfaces : NetworkInterfaces) (macAddress : string)
  : string :=
  fold_left
    (fun macAddress values =>
       match values with
       | None => macAddress
       | Some items =>
           match first_external_IPv4 items with
           | Some m => m
           | None => macAddress
           end
       end)
    interfaces macAddress.

(** A second instance for the examples: the widths and epoch of
    [example_generator], machine id 6. *)
Definition other_generator : Generator :=
  {| timestampBits := 41; machineIdBits := 10; sequenceBits := 12;
     maxTimestamp := 2199023255551; maxMachineId := 1023; maxSequence := 4095;
     machineId := 6; sequence := 0;
     lastTimestamp := AsDate 1704067200000;
     firstTimestamp := 1704067200000; EPOCH := 1704067200000 |}.

(** The generator [index.js] builds, on a host whose machine id is
    [machineId]: 10 and 12 bits, epoch 2024-01-01T00:00:00.000Z. *)
Definition default_generator (machineId : Z) : Generator :=
  {| timestampBits := 41; machineIdBits := 10; sequenceBits := 12;
     maxTimestamp := 2199023255551; maxMachineId := 1023; maxSequence := 4095;
     machineId := machineId; sequence := 0;
     lastTimestamp := AsDate 1704067200000;
     firstTimestamp := 1704067200000; EPOCH := 1704067200000 |}.

End FurtherVocabulary.

(** * Properties *)

(** ** Bit fields *)

Lemma testbit_above (b n i : Z) : 0 <= b < 2 ^ n -> n <= i -> Z.testbit b i = false.
Proof.
  intros [Hb0 Hb] Hi.
  destruct (Z.eq_dec b 0) as [->|Hne]; [apply Z.bits_0|].
  apply Z.bits_above_log2; [lia|].
  assert (Z.log2 b < n); [|lia].
  apply Z.log2_lt_pow2; lia.
Qed.

Lemma land_shiftl_low (a b n : Z) :
  0 <= n -> 0 <= b < 2 ^ n -> Z.land (Z.shiftl a n) b = 0.
Proof.
  intros Hn Hb. apply Z.bits_inj'. intros i Hi.
  rewrite Z.land_spec, Z.bits_0.
  destruct (Z_lt_le_dec i n) as [Hlt|Hle].
  - rewrite Z.shiftl_spec_low by lia. reflexivity.
  - rewrite (testbit_above b n i) by lia. apply andb_false_r.
Qed.

Lemma lor_shiftl_low (a b n : Z) :
  0 <= n -> 0 <= b < 2 ^ n -> Z.lor (Z.shiftl a n) b = a * 2 ^ n + b.
Proof.
  intros Hn Hb.
  pose proof (Z.add_lor_land (Z.shiftl a n) b) as H.
  rewrite land_shiftl_low in H by assumption.
  rewrite Z.shiftl_mul_pow2 in * by assumption. lia.
Qed.

(** An identifier with timestamp field [a], machine field [m] of [mb] bits
    and sequence field [s] of [sb] bits. *)
Section BitFields.

Variables a m s mb sb : Z.
Hypothesis mb_nonneg : 0 <= mb.
Hypothesis sb_nonneg : 0 <= sb.
Hypothesis m_fits : 0 <= m < 2 ^ mb.
Hypothesis s_fits : 0 <= s < 2 ^ sb.

Let id : Z := a * 2 ^ (mb + sb) + m * 2 ^ sb + s.

Lemma pow_sb_pos : 0 < 2 ^ sb.
Proof. pow_pos. Qed.

Lemma low_fields_fit : 0 <= m * 2 ^ sb + s < 2 ^ (mb + sb).
Proof. pose proof pow_sb_pos. rewrite Z.pow_add_r by lia. nia. Qed.

(** The three fields do not overlap, so [|] adds them. *)
Lemma compose_sum :
  Z.lor (Z.lor (Z.shiftl a (mb + sb)) (Z.shiftl m sb)) s = id.
Proof.
  rewrite <- Z.lor_assoc.
  rewrite (lor_shiftl_low m s sb) by assumption.
  rewrite lor_shiftl_low by (try apply low_fields_fit; lia).
  unfold id. lia.
Qed.

Lemma id_split : id = s + (a * 2 ^ mb + m) * 2 ^ sb.
Proof. unfold id. rewrite Z.pow_add_r by assumption. ring. Qed.

Lemma field_low : Z.land id (2 ^ sb - 1) = s.
Proof.
  pose proof pow_sb_pos.
  replace (2 ^ sb - 1) with (Z.ones sb) by (rewrite Z.ones_equiv; lia).
  rewrite Z.land_ones by assumption.
  rewrite id_split, Z.mod_add by lia. apply Z.mod_small; lia.
Qed.

Lemma field_shift : Z.shiftr id sb = a * 2 ^ mb + m.
Proof.
  pose proof pow_sb_pos.
  rewrite Z.shiftr_div_pow2 by assumption.
  rewrite id_split, Z.div_add by lia. rewrite Z.div_small by lia. lia.
Qed.

Lemma field_middle : Z.land (Z.shiftr id sb) (2 ^ mb - 1) = m.
Proof.
  assert (0 < 2 ^ mb) by pow_pos.
  rewrite field_shift.
  replace (2 ^ mb - 1) with (Z.ones mb) by (rewrite Z.ones_equiv; lia).
  rewrite Z.land_ones by assumption.
  rewrite Z.add_comm, Z.mod_add by lia. apply Z.mod_small; lia.
Qed.

Lemma field_high : Z.shiftr id (mb + sb) = a.
Proof.
  pose proof low_fields_fit.
  rewrite Z.shiftr_div_pow2 by lia.
  replace id with ((m * 2 ^ sb + s) + a * 2 ^ (mb + sb)) by (unfold id; ring).
  rewrite Z.div_add by (apply Z.pow_nonzero; lia).
  rewrite Z.div_small; lia.
Qed.

End BitFields.

(** ** Decimal strings *)

Section Decimal.

Lemma digits_from_string_of_uint (d : Decimal.uint) :
  forall acc, digits_from 10 acc (NilEmpty.string_of_uint d) = Some (uint_value acc d).
Proof.
  induction d; intros acc; simpl; try reflexivity; apply IHd.
Qed.

Lemma uint_value_pos (d : Decimal.uint) :
  forall p, uint_value (Z.pos p) d = Z.pos (Pos.of_uint_acc d p).
Proof.
  induction d; intros p; cbn [uint_value Pos.of_uint_acc]; try reflexivity;
    rewrite <- IHd; f_equal; lia.
Qed.

Lemma uint_value_0 (d : Decimal.uint) : uint_value 0 d = Z.of_N (Pos.of_uint d).
Proof.
  induction d; cbn [uint_value Pos.of_uint]; try reflexivity; try assumption;
    apply (uint_value_pos d).
Qed.

Lemma string_of_uint_nonempty (d : Decimal.uint) :
  d <> Decimal.Nil -> is_empty (NilEmpty.string_of_uint d) = false.
Proof. destruct d; simpl; congruence. Qed.

Lemma parse_digits_to_uint (p : positive) :
  parse_digits 10 (NilEmpty.string_of_uint (Pos.to_uint p)) = Some (Z.pos p).
Proof.
  unfold parse_digits.
  rewrite string_of_uint_nonempty by apply DecimalPos.Unsigned.to_uint_nonnil.
  rewrite digits_from_string_of_uint, uint_value_0.
  rewrite DecimalPos.Unsigned.of_to. reflexivity.
Qed.

Lemma string_of_pos (p : positive) :
  NilZero.string_of_uint (Pos.to_uint p) = NilEmpty.string_of_uint (Pos.to_uint p).
Proof.
  pose proof (DecimalPos.Unsigned.to_uint_nonnil p) as H.
  destruct (Pos.to_uint p); simpl; congruence.
Qed.

(** A non-negative BigInt prints as the decimal string that denotes it. *)
Lemma as_unsigned_toString (z : Z) :
  0 <= z -> as_unsigned (BigInt_toString z) = Some z.
Proof.
  intros Hz. unfold as_unsigned, BigInt_toString.
  destruct z as [|p|p]; [reflexivity| |lia].
  simpl. rewrite string_of_pos. apply parse_digits_to_uint.
Qed.

End Decimal.

(** ** Integer literals *)

Section Literals.

Lemma digits_from_all_digits (radix : Z) (s : string) :
  forall acc, digits_from radix acc s <> None <-> all_digits radix s = true.
Proof.
  induction s as [|c s IH]; intros acc; simpl.
  - split; [reflexivity | discriminate].
  - destruct (digit_value radix c); [apply IH|].
    split; [congruence | discriminate].
Qed.

Lemma parse_digits_is_digits (radix : Z) (s : string) :
  parse_digits radix s <> None <-> is_digits radix s = true.
Proof.
  unfold parse_digits, is_digits.
  destruct (is_empty s); simpl.
  - split; [congruence | discriminate].
  - apply digits_from_all_digits.
Qed.

(** What a decimal digit is not. *)
Lemma decimal_digit_char (c : ascii) :
  digit_value 10 c <> None ->
  is_whitespace c = false /\ Ascii.eqb c "+" = false /\ Ascii.eqb c "-" = false /\
  (Ascii.eqb c "x" || Ascii.eqb c "X") = false /\
  (Ascii.eqb c "o" || Ascii.eqb c "O") = false /\
  (Ascii.eqb c "b" || Ascii.eqb c "B") = false.
Proof.
  destruct c as [[|] [|] [|] [|] [|] [|] [|] [|]]; vm_compute; intros H;
    try (exfalso; apply H; reflexivity); repeat split.
Qed.

(** A digit of any radix is no white space and no sign. *)
Lemma digit_char (radix : Z) (c : ascii) :
  digit_value radix c <> None ->
  is_whitespace c = false /\ Ascii.eqb c "+" = false /\ Ascii.eqb c "-" = false.
Proof.
  unfold digit_value.
  destruct c as [[|] [|] [|] [|] [|] [|] [|] [|]]; cbv beta iota zeta delta -[Z.ltb];
    intros H; try (exfalso; apply H; reflexivity); repeat split.
Qed.

Lemma trimStart_whitespace (l s : string) :
  all_whitespace l = true -> trimStart (l ++ s) = trimStart s.
Proof.
  induction l as [|c l IH]; simpl; [reflexivity|].
  intros H. apply andb_prop in H as [Hc Hl]. rewrite Hc. auto.
Qed.

Lemma trimStart_all_whitespace (r : string) :
  all_whitespace r = true -> trimStart r = EmptyString.
Proof.
  induction r as [|c r IH]; simpl; [reflexivity|].
  intros H. apply andb_prop in H as [Hc Hr]. rewrite Hc. auto.
Qed.

Lemma trimEnd_all_whitespace (r : string) :
  all_whitespace r = true -> trimEnd r = EmptyString.
Proof.
  induction r as [|c r IH]; simpl; [reflexivity|].
  intros H. apply andb_prop in H as [Hc Hr]. rewrite IH, Hc by assumption.
  reflexivity.
Qed.

Lemma trimEnd_whitespace (s r : string) :
  all_whitespace r = true -> trimEnd (s ++ r) = trimEnd s.
Proof.
  intros Hr. induction s as [|c s IH]; simpl.
  - apply trimEnd_all_whitespace; assumption.
  - rewrite IH. reflexivity.
Qed.

Lemma trimEnd_last (s : string) (c : ascii) :
  last_char s = Some c -> is_whitespace c = false -> trimEnd s = s.
Proof.
  induction s as [|a s IH]; simpl; [discriminate|].
  destruct s as [|b s'].
  - intros [= ->] Hc. simpl. rewrite Hc. reflexivity.
  - intros Hl Hc. rewrite (IH Hl Hc). simpl. rewrite andb_false_r. reflexivity.
Qed.

(** What [trimStart] and [trimEnd] remove is white space. *)
Lemma trimStart_split (s : string) :
  exists l, s = (l ++ trimStart s)%string /\ all_whitespace l = true.
Proof.
  induction s as [|c s (l & Hs & Hl)]; simpl.
  - exists EmptyString. split; reflexivity.
  - destruct (is_whitespace c) eqn:Hc.
    + exists (String c l). simpl. rewrite Hc, Hl. split; [congruence | reflexivity].
    + exists EmptyString. split; reflexivity.
Qed.

Lemma trimEnd_split (s : string) :
  exists r, s = (trimEnd s ++ r)%string /\ all_whitespace r = true.
Proof.
  induction s as [|c s (r & Hs & Hr)]; simpl.
  - exists EmptyString. split; reflexivity.
  - destruct (is_whitespace c && is_empty (trimEnd s)) eqn:Hc.
    + apply andb_prop in Hc as [Hc He].
      destruct (trimEnd s); [|discriminate]. simpl in Hs. subst r.
      exists (String c s). simpl. rewrite Hc, Hr. split; reflexivity.
    + exists r. simpl. split; [congruence | assumption].
Qed.

Lemma trim_split (s : string) :
  exists l r, s = (l ++ trim s ++ r)%string /\
              all_whitespace l = true /\ all_whitespace r = true.
Proof.
  destruct (trimStart_split s) as (l & Hs & Hl).
  destruct (trimEnd_split (trimStart s)) as (r & Ht & Hr).
  exists l, r. unfold trim. rewrite <- Ht. auto.
Qed.

Lemma last_char_digits (radix : Z) (s : string) :
  is_digits radix s = true ->
  exists c, last_char s = Some c /\ digit_value radix c <> None.
Proof.
  unfold is_digits. induction s as [|a s IH]; simpl; [discriminate|].
  destruct (digit_value radix a) eqn:Ha; [|discriminate].
  destruct s as [|b s'].
  - intros _. exists a. split; [reflexivity | congruence].
  - intros H. apply IH. exact H.
Qed.

Lemma string_app_nil (s : string) : (s ++ EmptyString)%string = s.
Proof. induction s; simpl; congruence. Qed.

Lemma last_char_cons (a : ascii) (s : string) (c : ascii) :
  last_char s = Some c -> last_char (String a s) = Some c.
Proof. destruct s; simpl; [discriminate | auto]. Qed.

(** A literal starts and ends with characters that are no white space. *)
Lemma literal_ends (body : string) :
  StrIntegerLiteral body ->
  exists a rest c, body = String a rest /\ is_whitespace a = false /\
                   last_char body = Some c /\ is_whitespace c = false.
Proof.
  intros H.
  assert (Hlast : forall radix ds, is_digits radix ds = true ->
                    exists c, last_char ds = Some c /\ is_whitespace c = false).
  { intros radix ds Hd. destruct (last_char_digits radix ds Hd) as (c & Hc & Hv).
    exists c. split; [assumption | apply (digit_char radix c Hv)]. }
  destruct H as [ds Hd|ds Hd|ds Hd|x ds Hx Hd|o ds Ho Hd|b ds Hb Hd].
  - destruct (Hlast _ _ Hd) as (c & Hc & Hw).
    destruct ds as [|a rest]; [discriminate|].
    exists a, rest, c. repeat split; try assumption.
    unfold is_digits in Hd. simpl in Hd.
    destruct (digit_value 10 a) eqn:Ha; [|discriminate].
    apply (digit_char 10 a). congruence.
  - destruct (Hlast _ _ Hd) as (c & Hc & Hw).
    exists "+"%char, ds, c. repeat split; auto using last_char_cons.
  - destruct (Hlast _ _ Hd) as (c & Hc & Hw).
    exists "-"%char, ds, c. repeat split; auto using last_char_cons.
  - destruct (Hlast _ _ Hd) as (c & Hc & Hw).
    exists "0"%char, (String x ds), c. repeat split; auto using last_char_cons.
  - destruct (Hlast _ _ Hd) as (c & Hc & Hw).
    exists "0"%char, (String o ds), c. repeat split; auto using last_char_cons.
  - destruct (Hlast _ _ Hd) as (c & Hc & Hw).
    exists "0"%char, (String b ds), c. repeat split; auto using last_char_cons.
Qed.

Lemma trim_literal (l body r : string) :
  all_whitespace l = true -> all_whitespace r = true ->
  StrIntegerLiteral body -> trim (l ++ body ++ r) = body.
Proof.
  intros Hl Hr Hb.
  destruct (literal_ends body Hb) as (a & rest & c & -> & Ha & Hc & Hw).
  unfold trim. rewrite trimStart_whitespace by assumption.
  simpl. rewrite Ha.
  change (String a (rest ++ r)) with (String a rest ++ r)%string.
  rewrite trimEnd_whitespace by assumption.
  apply (trimEnd_last _ c Hc Hw).
Qed.

Lemma trim_blank (l r : string) :
  all_whitespace l = true -> all_whitespace r = true ->
  trim (l ++ EmptyString ++ r) = EmptyString.
Proof.
  intros Hl Hr. unfold trim. rewrite trimStart_whitespace by assumption.
  simpl. rewrite trimStart_all_whitespace by assumption. reflexivity.
Qed.

Lemma is_digits_head (radix : Z) (c : ascii) (rest : string) :
  is_digits radix (String c rest) = true ->
  digit_value radix c <> None /\ all_digits radix rest = true.
Proof.
  unfold is_digits. simpl. destruct (digit_value radix c); [|discriminate].
  intros H. split; [congruence | exact H].
Qed.

(** Decimal digits do not start with a radix prefix. *)
Lemma radix_prefix_digits (s : string) :
  is_digits 10 s = true -> radix_prefix s = None.
Proof.
  destruct s as [|c [|c1 rest]]; try reflexivity.
  intros Hd. apply is_digits_head in Hd as [_ Hd].
  simpl in Hd. destruct (digit_value 10 c1) eqn:Hc1; [|discriminate].
  assert (Hn : digit_value 10 c1 <> None) by congruence.
  destruct (decimal_digit_char c1 Hn) as (_ & _ & _ & Hx & Ho & Hb).
  simpl. rewrite Hx, Ho, Hb. destruct (Ascii.eqb c "0"); reflexivity.
Qed.

(** The parser on a trimmed text that is a literal. *)
Lemma parse_literal (body : string) :
  StrIntegerLiteral body ->
  match body with
  | EmptyString => False
  | String c rest =>
      (if Ascii.eqb c "+" then parse_digits 10 rest
       else if Ascii.eqb c "-" then option_map Z.opp (parse_digits 10 rest)
       else match radix_prefix body with
            | Some (radix, ds) => parse_digits radix ds
            | None => parse_digits 10 body
            end) <> None
  end.
Proof.
  intros H. destruct H as [ds Hd|ds Hd|ds Hd|x ds Hx Hd|o ds Ho Hd|b ds Hb Hd].
  - rewrite (radix_prefix_digits ds Hd).
    destruct ds as [|c rest]; [discriminate|].
    destruct (is_digits_head 10 c rest Hd) as [Hc _].
    destruct (decimal_digit_char c Hc) as (_ & Hp & Hm & _).
    rewrite Hp, Hm. apply parse_digits_is_digits. exact Hd.
  - simpl. apply parse_digits_is_digits. exact Hd.
  - simpl. apply parse_digits_is_digits in Hd.
    destruct (parse_digits 10 ds); [discriminate | congruence].
  - apply parse_digits_is_digits in Hd.
    destruct Hx as [-> | ->]; simpl; exact Hd.
  - apply parse_digits_is_digits in Hd.
    destruct Ho as [-> | ->]; simpl; exact Hd.
  - apply parse_digits_is_digits in Hd.
    destruct Hb as [-> | ->]; simpl; exact Hd.
Qed.

Lemma radix_prefix_literal (t : string) (radix : Z) (ds : string) :
  radix_prefix t = Some (radix, ds) -> parse_digits radix ds <> None ->
  StrIntegerLiteral t.
Proof.
  destruct t as [|c0 [|c1 body]]; simpl; try discriminate.
  destruct (Ascii.eqb c0 "0") eqn:E0; [|discriminate].
  apply Ascii.eqb_eq in E0. subst c0.
  destruct (Ascii.eqb c1 "x" || Ascii.eqb c1 "X") eqn:Ex.
  { intros [= <- <-] Hd. apply lit_hex; [|apply parse_digits_is_digits; exact Hd].
    apply orb_prop in Ex as [E|E]; apply Ascii.eqb_eq in E; auto. }
  destruct (Ascii.eqb c1 "o" || Ascii.eqb c1 "O") eqn:Eo.
  { intros [= <- <-] Hd. apply lit_octal; [|apply parse_digits_is_digits; exact Hd].
    apply orb_prop in Eo as [E|E]; apply Ascii.eqb_eq in E; auto. }
  destruct (Ascii.eqb c1 "b" || Ascii.eqb c1 "B") eqn:Eb; [|discriminate].
  intros [= <- <-] Hd. apply lit_binary; [|apply parse_digits_is_digits; exact Hd].
  apply orb_prop in Eb as [E|E]; apply Ascii.eqb_eq in E; auto.
Qed.

(** [BigInt(s)] accepts exactly the texts of the grammar. *)
Lemma StringToBigInt_accepts (s : string) :
  StringToBigInt s <> None <-> StringIntegerLiteral s.
Proof.
  split.
  - intros H. destruct (trim_split s) as (l & r & Hs & Hl & Hr).
    exists l, (trim s), r. repeat split; try assumption.
    unfold StringToBigInt in H. cbv zeta in H.
    destruct (trim s) as [|c rest] eqn:Et; [left; reflexivity | right].
    destruct (Ascii.eqb c "+") eqn:Ep.
    { apply Ascii.eqb_eq in Ep. subst c. apply lit_plus.
      apply parse_digits_is_digits. exact H. }
    destruct (Ascii.eqb c "-") eqn:Em.
    { apply Ascii.eqb_eq in Em. subst c. apply lit_minus.
      apply parse_digits_is_digits.
      destruct (parse_digits 10 rest); [discriminate | exact H]. }
    destruct (radix_prefix (String c rest)) as [[radix ds]|] eqn:Er.
    + apply (radix_prefix_literal _ radix ds Er H).
    + apply lit_decimal. apply parse_digits_is_digits. exact H.
  - intros (l & body & r & -> & Hl & Hr & [-> | Hb]).
    + unfold StringToBigInt. rewrite trim_blank by assumption. discriminate.
    + unfold StringToBigInt. rewrite trim_literal by assumption.
      pose proof (parse_literal body Hb) as H.
      destruct body; [contradiction | exact H].
Qed.

(** A string of decimal digits is read as the unsigned integer it denotes. *)
Lemma StringToBigInt_digits (s : string) :
  is_digits 10 s = true -> StringToBigInt s = as_unsigned s.
Proof.
  intros Hd.
  assert (Hlit : StrIntegerLiteral s) by (apply lit_decimal; exact Hd).
  unfold StringToBigInt.
  pose proof (trim_literal EmptyString s EmptyString eq_refl eq_refl Hlit) as Ht.
  simpl in Ht. rewrite string_app_nil in Ht. rewrite Ht.
  rewrite (radix_prefix_digits s Hd).
  destruct s as [|c rest]; [discriminate|].
  destruct (is_digits_head 10 c rest Hd) as [Hc _].
  destruct (decimal_digit_char c Hc) as (_ & Hp & Hm & _).
  rewrite Hp, Hm. reflexivity.
Qed.

Lemma string_of_uint_all_digits (d : Decimal.uint) :
  all_digits 10 (NilEmpty.string_of_uint d) = true.
Proof. induction d; simpl; auto. Qed.

Lemma string_of_pos_digits (p : positive) :
  is_digits 10 (NilEmpty.string_of_uint (Pos.to_uint p)) = true.
Proof.
  unfold is_digits.
  rewrite string_of_uint_nonempty by apply DecimalPos.Unsigned.to_uint_nonnil.
  apply string_of_uint_all_digits.
Qed.

(** [BigInt(b.toString())] is [b]. *)
Lemma StringToBigInt_toString (z : Z) : StringToBigInt (BigInt_toString z) = Some z.
Proof.
  destruct z as [|p|p]; [reflexivity| |].
  - rewrite StringToBigInt_digits.
    + apply as_unsigned_toString. lia.
    + unfold BigInt_toString. simpl. rewrite string_of_pos. apply string_of_pos_digits.
  - unfold BigInt_toString. simpl. rewrite string_of_pos.
    pose proof (string_of_pos_digits p) as Hd.
    pose proof (trim_literal EmptyString _ EmptyString eq_refl eq_refl (lit_minus _ Hd)) as Ht.
    simpl in Ht. rewrite string_app_nil in Ht.
    unfold StringToBigInt. rewrite Ht. simpl.
    rewrite parse_digits_to_uint. reflexivity.
Qed.

End Literals.

(** ** Numbers *)

Section Numbers.

Lemma round53_small (z : Z) : Z.abs z < 2 ^ 53 -> round53 z = (z, 0).
Proof.
  intros H. unfold round53.
  apply Z.ltb_lt in H. rewrite H. reflexivity.
Qed.

(** [Number(b)] is exact below 2^53. *)
Lemma Number_of_BigInt_small (z : Z) :
  Z.abs z < 2 ^ 53 -> Number_of_BigInt z = NumInt z.
Proof.
  intros H. unfold Number_of_BigInt, of_dyadic.
  rewrite round53_small by assumption.
  destruct (z =? 0) eqn:Ez; [apply Z.eqb_eq in Ez; congruence|].
  apply Z.eqb_neq in Ez.
  assert (Hlog : Z.log2 (Z.abs z) < 53) by (apply Z.log2_lt_pow2; lia).
  replace (1024 <=? Z.log2 (Z.abs z) + (0 + 0)) with false
    by (symmetry; apply Z.leb_gt; lia).
  simpl. f_equal. lia.
Qed.

(** A rounded integer that lies below 2^53 was not rounded. *)
Lemma of_dyadic_exact (m n : Z) :
  of_dyadic m 0 = NumInt n -> Z.abs n < 2 ^ 53 -> m = n.
Proof.
  intros H Hn.
  destruct (Z_lt_le_dec (Z.abs m) (2 ^ 53)) as [Hm|Hm].
  - change (of_dyadic m 0) with (Number_of_BigInt m) in H.
    rewrite Number_of_BigInt_small in H by assumption. congruence.
  - exfalso. unfold of_dyadic, round53 in H.
    replace (Z.abs m <? 2 ^ 53) with false in H by (symmetry; apply Z.ltb_ge; exact Hm).
    set (a := Z.abs m) in *. set (k := Z.log2 a - 52) in *.
    set (q := Z.shiftr a k) in *.
    set (q' := if a - Z.shiftl q k <? 2 ^ (k - 1) then q
               else if 2 ^ (k - 1) <? a - Z.shiftl q k then q + 1
               else if Z.even q then q else q + 1) in *.
    assert (Ha : 0 < a) by (assert (0 < 2 ^ 53) by reflexivity; lia).
    assert (Hlog : 53 <= Z.log2 a) by (apply Z.log2_le_pow2; lia).
    assert (Hk : 1 <= k) by (unfold k; lia).
    assert (Hq : 2 ^ 52 <= q).
    { unfold q. rewrite Z.shiftr_div_pow2 by lia.
      apply Z.div_le_lower_bound; [apply Z.pow_pos_nonneg; lia|].
      rewrite <- Z.pow_add_r by lia.
      replace (k + 52) with (Z.log2 a) by (unfold k; lia).
      apply Z.log2_spec. exact Ha. }
    assert (Hq' : q <= q') by (unfold q'; repeat destruct (_ <? _); try destruct (Z.even q); lia).
    assert (Hs : Z.abs (Z.sgn m * q') = q').
    { assert (0 < 2 ^ 52) by reflexivity.
      assert (Hm0 : m <> 0) by (unfold a in Ha; lia).
      destruct (Z.lt_trichotomy m 0) as [Hneg|[Hzero|Hpos]]; [|contradiction|].
      - rewrite Z.sgn_neg by assumption. lia.
      - rewrite Z.sgn_pos by assumption. lia. }
    destruct (Z.sgn m * q' =? 0) eqn:E0.
    { apply Z.eqb_eq in E0. assert (0 < 2 ^ 52) by reflexivity. lia. }
    rewrite Hs in H.
    destruct (1024 <=? Z.log2 q' + (0 + k)); [discriminate|].
    replace (0 <=? 0 + k) with true in H by (symmetry; apply Z.leb_le; lia).
    injection H as H.
    assert (Hp : 2 <= 2 ^ k).
    { change 2 with (2 ^ 1) at 1. apply Z.pow_le_mono_r; lia. }
    assert (H53 : 2 ^ 53 = 2 ^ 52 * 2) by reflexivity.
    assert (Habs : Z.abs n = q' * 2 ^ k).
    { rewrite <- H, Z.abs_mul, Hs. rewrite (Z.abs_eq (2 ^ k)) by lia. reflexivity. }
    nia.
Qed.

Lemma num_compare_int (a b : Z) : num_compare (NumInt a) (NumInt b) = Some (a ?= b).
Proof. unfold num_compare. simpl. rewrite !Z.mul_1_r. reflexivity. Qed.

Lemma num_add_int (a b : Z) : num_add (NumInt a) (NumInt b) = of_dyadic (a + b) 0.
Proof. unfold num_add. simpl. rewrite !Z.mul_1_r. reflexivity. Qed.

Lemma num_le_int (a b : Z) : num_le (NumInt a) (NumInt b) = (a <=? b).
Proof.
  unfold num_le. rewrite num_compare_int. unfold Z.leb.
  destruct (a ?= b); reflexivity.
Qed.

Lemma num_lt_int (a b : Z) : num_lt (NumInt a) (NumInt b) = (a <? b).
Proof.
  unfold num_lt. rewrite num_compare_int. unfold Z.ltb.
  destruct (a ?= b); reflexivity.
Qed.

(** Two integers whose sum in doubles is 22 add up to 22. *)
Lemma num_add_22 (a b : Z) :
  num_neq (num_add (NumInt a) (NumInt b)) (NumInt 22) = false -> a + b = 22.
Proof.
  rewrite num_add_int. intros H.
  destruct (of_dyadic (a + b) 0) as [z|h k| |s] eqn:E.
  - unfold num_neq in H. rewrite num_compare_int in H.
    destruct (z ?= 22) eqn:Ec; try discriminate.
    apply Z.compare_eq in Ec. subst z.
    apply (of_dyadic_exact _ _ E). reflexivity.
  - exfalso. unfold of_dyadic in E.
    destruct (round53 (a + b)) as [m' k'] eqn:Er.
    assert (Hk : 0 <= k').
    { unfold round53 in Er. destruct (Z.abs (a + b) <? 2 ^ 53) eqn:El.
      - injection Er as _ <-. lia.
      - injection Er as _ <-. apply Z.ltb_ge in El.
        assert (53 <= Z.log2 (Z.abs (a + b))) by (apply Z.log2_le_pow2; lia). lia. }
    destruct (m' =? 0); [discriminate|].
    destruct (1024 <=? _); [discriminate|].
    replace (0 <=? 0 + k') with true in E by (symmetry; apply Z.leb_le; lia).
    discriminate.
  - discriminate.
  - unfold num_neq, num_compare in H. simpl in H. destruct s; discriminate.
Qed.

End Numbers.

(** ** The generator *)

Section Polling.
Import SnowflakeIdGenerator.

Variable cond : Z -> bool.

(** The timestamp a busy-wait loop ends with fails the loop's condition. *)
Lemma poll_while_exit (readings : list Z) :
  forall timestamp t rest,
    poll_while cond timestamp readings = Some (t, rest) -> cond t = false.
Proof.
  induction readings as [|r readings IH]; intros timestamp t rest; simpl.
  - destruct (cond timestamp) eqn:E; [discriminate|]. intros [= <- _]. exact E.
  - destruct (cond timestamp) eqn:E; [apply IH|]. intros [= <- _]. exact E.
Qed.

(** The timestamp it ends with was read, and what is left of the clock is
    what the loop did not read. *)
Lemma poll_while_reads (readings : list Z) :
  forall timestamp t rest,
    poll_while cond timestamp readings = Some (t, rest) ->
    In t (timestamp :: readings) /\ incl rest readings.
Proof.
  induction readings as [|r readings IH]; intros timestamp t rest; simpl.
  - destruct (cond timestamp); [discriminate|]. intros [= <- <-].
    split; [auto | apply incl_refl].
  - destruct (cond timestamp).
    + intros H. destruct (IH _ _ _ H) as [Hin Hincl].
      split; [right; exact Hin | apply incl_tl; exact Hincl].
    + intros [= <- <-]. split; [auto | apply incl_refl].
Qed.

(** The loop returns once a reading fails its condition. *)
Lemma poll_while_returns (readings : list Z) :
  forall timestamp,
    cond timestamp = false \/ Exists (fun t => cond t = false) readings ->
    exists t rest, poll_while cond timestamp readings = Some (t, rest).
Proof.
  induction readings as [|r readings IH]; intros timestamp H; simpl.
  - destruct H as [H|H]; [rewrite H; eauto | inversion H].
  - destruct (cond timestamp) eqn:E; [|eauto].
    apply IH. destruct H as [H|H]; [congruence|].
    inversion H; subst; auto.
Qed.

Variable P : Z -> Prop.
Hypothesis P_ends : forall x, P x -> cond x = false.

Lemma Exists_cond (t : Z) (readings : list Z) :
  Exists P (t :: readings) ->
  cond t = false \/ Exists (fun x => cond x = false) readings.
Proof.
  intros H. inversion H; subst; [left; auto|].
  right. eapply Exists_impl; [|eassumption]. exact P_ends.
Qed.

(** A reading that ends the loop is either returned or still to come. *)
Lemma poll_while_keeps (readings : list Z) :
  forall timestamp t rest,
    poll_while cond timestamp readings = Some (t, rest) ->
    Exists P (timestamp :: readings) -> Exists P (t :: rest).
Proof.
  induction readings as [|r readings IH]; intros timestamp t rest; simpl.
  - destruct (cond timestamp) eqn:E; [discriminate|]. intros [= <- <-]. auto.
  - destruct (cond timestamp) eqn:E.
    + intros Hrun H. apply (IH _ _ _ Hrun).
      inversion H; subst; [|assumption].
      rewrite P_ends in E by assumption. discriminate.
    + intros [= <- <-]. auto.
Qed.

End Polling.

Section NextId.
Import SnowflakeIdGenerator.

(** What one call of [nextId] does: it returns the identifier of the
    timestamp and the sequence value it leaves in the instance; the timestamp
    is a reading of the clock; and the two come about in one of three ways. *)
Lemma nextId_spec (g : Generator) (readings : list Z) (r : Result string) (w' : World) :
  nextId {| this := g; clock := readings |} = Some (r, w') ->
  exists ts seq,
    r = Ok (BigInt_toString (compose_id g ts seq)) /\
    this w' = with_lastTimestamp (AsBigInt ts) (with_sequence seq g) /\
    In ts readings /\ incl (clock w') readings /\
    ((lastTimestamp g = AsBigInt ts /\
      seq = Z.land (sequence g + 1) (maxSequence g) /\ seq <> 0) \/
     (Z.land (sequence g + 1) (maxSequence g) = 0 /\
      time_value (lastTimestamp g) < ts /\ seq = 0) \/
     (strict_equals (lastTimestamp g) ts = false /\
      time_value (lastTimestamp g) <= ts /\ seq = 0)).
Proof.
  unfold nextId, bind, Date_now, while_polling, get_this. simpl.
  destruct readings as [|t0 readings]; [discriminate|]. simpl.
  destruct (poll_while _ t0 readings) as [[t1 rest]|] eqn:E1; [|discriminate].
  destruct (poll_while_reads _ _ _ _ _ E1) as [Hin1 Hincl1].
  apply poll_while_exit in E1. apply Z.ltb_ge in E1. simpl.
  destruct (strict_equals (lastTimestamp g) t1) eqn:Eq.
  - simpl.
    destruct (Z.land (sequence g + 1) (maxSequence g) =? 0) eqn:Ez.
    + apply Z.eqb_eq in Ez.
      unfold waitNextMillis, bind, Date_now, while_polling. simpl.
      destruct rest as [|t2 rest]; [discriminate|]. simpl.
      destruct (poll_while _ t2 rest) as [[t3 rest']|] eqn:E2; [|discriminate].
      destruct (poll_while_reads _ _ _ _ _ E2) as [Hin2 Hincl2].
      apply poll_while_exit in E2. apply Z.leb_gt in E2. simpl.
      intros [= <- <-]. exists t3, (Z.land (sequence g + 1) (maxSequence g)).
      split; [reflexivity|]. split; [reflexivity|].
      split; [right; apply Hincl1, Hin2|].
      split; [simpl; intros x Hx; right; apply Hincl1; right; apply Hincl2, Hx|].
      right. left. rewrite Ez. repeat split; auto.
    + apply Z.eqb_neq in Ez. unfold ret at 1. simpl.
      intros [= <- <-]. exists t1, (Z.land (sequence g + 1) (maxSequence g)).
      split; [reflexivity|]. split; [reflexivity|].
      split; [exact Hin1|].
      split; [simpl; intros x Hx; right; apply Hincl1, Hx|].
      left. repeat split; auto.
      destruct (lastTimestamp g); [discriminate|]. simpl in Eq.
      apply Z.eqb_eq in Eq. congruence.
  - unfold ret. simpl.
    intros [= <- <-]. exists t1, 0.
    split; [reflexivity|]. split; [reflexivity|].
    split; [exact Hin1|].
    split; [simpl; intros x Hx; right; apply Hincl1, Hx|].
    right. right. repeat split; auto.
Qed.

(** [nextId] never throws. *)
Lemma nextId_does_not_throw (w : World) (e : JsError) (w' : World) :
  nextId w <> Some (Throw e, w').
Proof.
  destruct w as [g readings]. intros H.
  destruct (nextId_spec _ _ _ _ H) as (ts & seq & Hr & _). discriminate.
Qed.

(** [nextId] returns as soon as the clock is to pass [lastTimestamp]: neither
    busy-wait loop goes on for ever then. *)
Lemma nextId_returns (g : Generator) (readings : list Z) :
  Exists (fun t => time_value (lastTimestamp g) < t) readings ->
  exists id w', nextId {| this := g; clock := readings |} = Some (Ok id, w').
Proof.
  set (P := fun t => time_value (lastTimestamp g) < t).
  assert (HP1 : forall x, P x -> (x <? time_value (lastTimestamp g)) = false)
    by (intros x Hx; apply Z.ltb_ge; unfold P in Hx; lia).
  assert (HP2 : forall x, P x -> (x <=? time_value (lastTimestamp g)) = false)
    by (intros x Hx; apply Z.leb_gt; exact Hx).
  intros H.
  unfold nextId, bind, Date_now, while_polling, get_this. simpl.
  destruct readings as [|t0 readings]; [inversion H|]. simpl.
  destruct (poll_while_returns _ readings t0 (Exists_cond _ P HP1 _ _ H))
    as (t1 & rest & E1).
  rewrite E1. simpl.
  pose proof (poll_while_keeps _ P HP1 _ _ _ _ E1 H) as H1.
  destruct (strict_equals (lastTimestamp g) t1) eqn:Eq; simpl.
  - destruct (Z.land (sequence g + 1) (maxSequence g) =? 0).
    + assert (Hrest : Exists P rest).
      { inversion H1; subst; [|assumption].
        destruct (lastTimestamp g); [discriminate|]. simpl in *.
        apply Z.eqb_eq in Eq. unfold P in *. simpl in *. lia. }
      unfold waitNextMillis, bind, Date_now, while_polling. simpl.
      destruct rest as [|t2 rest]; [inversion Hrest|]. simpl.
      destruct (poll_while_returns _ rest t2 (Exists_cond _ P HP2 _ _ Hrest))
        as (t3 & rest' & E2).
      rewrite E2. simpl. unfold ret. eauto.
    + unfold ret. simpl. eauto.
  - unfold ret. simpl. eauto.
Qed.

Lemma valid_configuration_spec (g : Generator) :
  valid_configuration g = true ->
  0 < machineIdBits g /\ 0 < sequenceBits g /\
  machineIdBits g + sequenceBits g = 22 /\
  maxMachineId g = 2 ^ machineIdBits g - 1 /\
  maxSequence g = 2 ^ sequenceBits g - 1 /\
  0 <= machineId g < 2 ^ machineIdBits g.
Proof.
  unfold valid_configuration. intros H.
  repeat (apply andb_prop in H as [H ?]).
  repeat match goal with
         | H : (_ <? _) = true |- _ => apply Z.ltb_lt in H
         | H : (_ <=? _) = true |- _ => apply Z.leb_le in H
         | H : (_ =? _) = true |- _ => apply Z.eqb_eq in H
         end.
  repeat split; lia.
Qed.

Lemma valid_configuration_update (g : Generator) (l : Timestamp) (s : Z) :
  valid_configuration (with_lastTimestamp l (with_sequence s g)) = valid_configuration g.
Proof. reflexivity. Qed.

Lemma same_configuration_update (g : Generator) (l : Timestamp) (s : Z) :
  same_configuration g (with_lastTimestamp l (with_sequence s g)).
Proof. unfold same_configuration. simpl. repeat split. Qed.

Lemma land_mask_range (x n : Z) : 0 <= n -> 0 <= Z.land x (2 ^ n - 1) <= 2 ^ n - 1.
Proof.
  intros Hn.
  replace (2 ^ n - 1) with (Z.ones n) by (rewrite Z.ones_equiv; lia).
  rewrite Z.land_ones by assumption.
  assert (0 < 2 ^ n) by pow_pos.
  pose proof (Z.mod_pos_bound x (2 ^ n)). rewrite Z.ones_equiv. lia.
Qed.

(** The sequence counter steps by one until it wraps. *)
Lemma land_mask_succ (x n : Z) :
  0 <= n -> 0 <= x <= 2 ^ n - 1 -> Z.land (x + 1) (2 ^ n - 1) <> 0 ->
  Z.land (x + 1) (2 ^ n - 1) = x + 1.
Proof.
  intros Hn Hx.
  replace (2 ^ n - 1) with (Z.ones n) by (rewrite Z.ones_equiv; lia).
  rewrite Z.land_ones by assumption.
  assert (0 < 2 ^ n) by pow_pos.
  destruct (Z.eq_dec (x + 1) (2 ^ n)) as [E|E].
  - rewrite E, Z.mod_same by lia. congruence.
  - intros _. apply Z.mod_small. lia.
Qed.

End NextId.

(** An instance with a valid configuration. *)
Section ValidConfiguration.
Import SnowflakeIdGenerator.

Variable g : Generator.
Hypothesis valid : valid_configuration g = true.

Let mb := machineIdBits g.
Let sb := sequenceBits g.

Lemma widths_positive : 0 < mb /\ 0 < sb.
Proof. destruct (valid_configuration_spec g valid) as (? & ? & _). auto. Qed.

Lemma masks : maxMachineId g = 2 ^ mb - 1 /\ maxSequence g = 2 ^ sb - 1.
Proof. destruct (valid_configuration_spec g valid) as (_ & _ & _ & ? & ? & _). auto. Qed.

Lemma machineId_fits : 0 <= machineId g < 2 ^ mb.
Proof. apply (valid_configuration_spec g valid). Qed.

Lemma compose_id_value (ts seq : Z) :
  0 <= seq <= maxSequence g -> compose_id g ts seq = id_value g ts seq.
Proof.
  intros Hseq. destruct widths_positive as [Hmb Hsb]. destruct masks as [HmaxM HmaxS].
  pose proof machineId_fits as Hm.
  unfold compose_id, id_value. apply compose_sum; fold mb sb; lia.
Qed.

Lemma id_value_nonneg (ts seq : Z) :
  EPOCH g <= ts -> 0 <= seq -> 0 <= id_value g ts seq.
Proof.
  intros Hts Hseq. destruct widths_positive as [Hmb Hsb].
  pose proof machineId_fits as Hm.
  unfold id_value. fold mb sb.
  assert (0 < 2 ^ (mb + sb)) by pow_pos.
  assert (0 < 2 ^ sb) by pow_pos.
  nia.
Qed.

(** Identifiers are ordered as their (timestamp, sequence) pairs are. *)
Lemma id_value_lt (ts seq ts' seq' : Z) :
  0 <= seq <= maxSequence g -> 0 <= seq' <= maxSequence g ->
  ts < ts' \/ (ts = ts' /\ seq < seq') ->
  id_value g ts seq < id_value g ts' seq'.
Proof.
  intros Hseq Hseq' Hlex. destruct widths_positive as [Hmb Hsb].
  destruct masks as [HmaxM HmaxS].
  unfold id_value. fold mb sb.
  assert (Hp : 0 < 2 ^ sb) by pow_pos.
  assert (Hq : 0 < 2 ^ mb) by pow_pos.
  rewrite Z.pow_add_r by lia.
  set (p := 2 ^ sb) in *. set (q := 2 ^ mb) in *.
  destruct Hlex as [Hlt | [-> Hlt]]; [|lia].
  assert (H1 : p <= q * p) by nia.
  assert (H2 : q * p <= (ts' - ts) * (q * p)) by nia.
  lia.
Qed.

(** While the clock is within 2^41 milliseconds of the epoch, an identifier
    fits 63 bits. *)
Lemma id_value_fits (ts seq : Z) :
  0 <= ts - EPOCH g < 2 ^ 41 -> 0 <= seq <= maxSequence g ->
  0 <= id_value g ts seq < 2 ^ 63.
Proof.
  intros Hts Hseq. destruct widths_positive as [Hmb Hsb].
  destruct masks as [HmaxM HmaxS]. pose proof machineId_fits as Hm.
  destruct (valid_configuration_spec g valid) as (_ & _ & Hsum & _).
  fold mb sb in Hsum.
  unfold id_value. fold mb sb. rewrite Hsum.
  assert (Hp : 0 < 2 ^ sb) by pow_pos.
  assert (Hq : 0 < 2 ^ mb) by pow_pos.
  assert (H22 : 2 ^ 22 = 2 ^ mb * 2 ^ sb) by (rewrite <- Z.pow_add_r, Hsum by lia; reflexivity).
  assert (H63 : 2 ^ 63 = 2 ^ 41 * 2 ^ 22) by reflexivity.
  rewrite H63, H22. set (p := 2 ^ sb) in *. set (q := 2 ^ mb) in *.
  assert (machineId g * p + seq < q * p) by nia.
  assert (0 <= machineId g * p) by nia.
  split; nia.
Qed.

(** One call, for the ordering: the instance ends in an issued state whose
    identifier is the one returned, past the identifier of the state before. *)
Lemma nextId_advances (readings : list Z) (id : string) (w' : World) :
  nextId {| this := g; clock := readings |} = Some (Ok id, w') ->
  exists ts seq,
    id = BigInt_toString (id_value g ts seq) /\
    this w' = with_lastTimestamp (AsBigInt ts) (with_sequence seq g) /\
    In ts readings /\ incl (clock w') readings /\
    time_value (lastTimestamp g) <= ts /\
    0 <= seq <= maxSequence g /\
    (forall v, lastTimestamp g = AsBigInt v -> 0 <= sequence g <= maxSequence g ->
               id_value g v (sequence g) < id_value g ts seq).
Proof.
  intros Hrun.
  destruct (nextId_spec _ _ _ _ Hrun) as (ts & seq & Hid & Hw & Hin & Hincl & Hcase).
  injection Hid as ->.
  destruct widths_positive as [Hmb Hsb]. destruct masks as [HmaxM HmaxS].
  assert (Hpow : 0 < 2 ^ sb) by pow_pos.
  assert (Hseq : 0 <= seq <= maxSequence g).
  { destruct Hcase as [(_ & -> & _) | [(_ & _ & ->) | (_ & _ & ->)]].
    - rewrite HmaxS. apply land_mask_range. lia.
    - lia.
    - lia. }
  exists ts, seq. rewrite compose_id_value by assumption.
  repeat split; try assumption; try lia.
  - destruct Hcase as [(Hl & _ & _) | [(_ & Hlt & _) | (_ & Hle & _)]];
      [rewrite Hl; simpl; lia | lia | lia].
  - intros v Hv Hold. apply id_value_lt; try assumption.
    destruct Hcase as [(Hl & Hs & Hnz) | [(_ & Hlt & _) | (Hne & Hle & _)]].
    + right. split; [congruence|].
      rewrite HmaxS in Hs, Hold. rewrite Hs in Hnz |- *.
      rewrite land_mask_succ by (try assumption; lia). lia.
    + left. rewrite Hv in Hlt. simpl in Hlt. exact Hlt.
    + left. rewrite Hv in Hne, Hle. simpl in Hne, Hle.
      apply Z.eqb_neq in Hne. lia.
Qed.

(** The last identifier of a millisecond, as a number. *)
Lemma last_id_value (t : Z) :
  Z.lor
    (Z.lor (Z.shiftl (t - EPOCH g) (mb + sb)) (Z.shiftl (maxMachineId g) sb))
    (maxSequence g)
  = (t - EPOCH g) * 2 ^ (mb + sb) + maxMachineId g * 2 ^ sb + maxSequence g.
Proof.
  destruct widths_positive as [Hmb Hsb]. destruct masks as [HmaxM HmaxS].
  assert (0 < 2 ^ mb) by pow_pos.
  assert (0 < 2 ^ sb) by pow_pos.
  apply compose_sum; lia.
Qed.

End ValidConfiguration.

Section Monotonicity.
Import SnowflakeIdGenerator.

Lemma nextIds_step (k : nat) (w w' : World) (ids : list string) :
  nextIds (S k) w = Some (Ok ids, w') ->
  exists id w1 rest,
    nextId w = Some (Ok id, w1) /\ nextIds k w1 = Some (Ok rest, w') /\
    ids = id :: rest.
Proof.
  simpl. unfold bind at 1.
  destruct (nextId w) as [[[id|e] w1]|]; try discriminate.
  unfold bind at 1.
  destruct (nextIds k w1) as [[[rest|e] w2]|] eqn:Hrest; try discriminate.
  unfold ret. intros [= <- <-]. exists id, w1, rest. repeat split. exact Hrest.
Qed.

(** From an instance that has issued an identifier: what follows is
    increasing and lies past that identifier; and it fits 63 bits for as long
    as the clock is within 2^41 milliseconds of the epoch. *)
Lemma nextIds_issued (n : nat) :
  forall (g : Generator) (readings : list Z) (v : Z) (ids : list string) (w' : World),
    valid_configuration g = true ->
    lastTimestamp g = AsBigInt v -> EPOCH g <= v ->
    0 <= sequence g <= maxSequence g ->
    nextIds n {| this := g; clock := readings |} = Some (Ok ids, w') ->
    exists zs,
      map as_unsigned ids = map Some zs /\
      StronglySorted Z.lt zs /\
      Forall (fun z => id_value g v (sequence g) < z) zs /\
      (Forall (fun t => t < EPOCH g + 2 ^ 41) readings -> Forall (fun z => z < 2 ^ 63) zs).
Proof.
  induction n as [|k IH]; intros g readings v ids w' Hg Hlast Hv Hseq Hrun.
  - simpl in Hrun. unfold ret in Hrun. injection Hrun as <- _.
    exists []. repeat split; constructor.
  - apply nextIds_step in Hrun as (id & [g1 readings1] & rest & Hone & Hrest & ->).
    destruct (nextId_advances _ Hg _ _ _ Hone)
      as (ts & seq & -> & Hg1 & Hin & Hincl & Hts & Hseq1 & Hlt).
    simpl in Hg1, Hincl. subst g1.
    specialize (Hlt v Hlast Hseq). rewrite Hlast in Hts. simpl in Hts.
    destruct (IH _ _ ts _ _ (eq_trans (valid_configuration_update g _ _) Hg)
                eq_refl ltac:(simpl; lia) ltac:(simpl; exact Hseq1) Hrest)
      as (zs & Hzs & Hsorted & Hall & Hfit).
    change (id_value (with_lastTimestamp (AsBigInt ts) (with_sequence seq g)) ts
              (sequence (with_lastTimestamp (AsBigInt ts) (with_sequence seq g))))
      with (id_value g ts seq) in Hall.
    simpl in Hfit.
    exists (id_value g ts seq :: zs). repeat split.
    + simpl. rewrite Hzs. f_equal.
      apply as_unsigned_toString. apply id_value_nonneg; [assumption | lia | lia].
    + constructor; assumption.
    + constructor; [assumption|].
      eapply Forall_impl; [|exact Hall]. simpl. intros z Hz. lia.
    + intros Hclock. constructor.
      * rewrite Forall_forall in Hclock. specialize (Hclock ts Hin).
        apply (id_value_fits g Hg); [lia | assumption].
      * apply Hfit. rewrite Forall_forall in Hclock |- *.
        intros t Ht. apply Hclock, Hincl, Ht.
Qed.

End Monotonicity.

(** C1.  The identifiers that consecutive calls of [nextId] on one instance
    return, read as unsigned integers, are strictly increasing.  The instance
    has a valid configuration and its [lastTimestamp] is not before the
    epoch, as construction leaves it; the clock may give any readings (the
    two busy-wait loops hold a call until the reading it uses is not behind
    [lastTimestamp]), in particular non-decreasing ones from the epoch on.
    The integers fit 63 bits, hence an unsigned 64-bit integer, for as long
    as the clock is within 2^41 milliseconds of the epoch. *)
Theorem nextId_strictly_increasing :
  forall (n : nat) (g : SnowflakeIdGenerator.Generator) (readings : list Z)
         (ids : list string) (w' : SnowflakeIdGenerator.World),
    valid_configuration g = true ->
    SnowflakeIdGenerator.EPOCH g
      <= SnowflakeIdGenerator.time_value (SnowflakeIdGenerator.lastTimestamp g) ->
    nextIds n {| SnowflakeIdGenerator.this := g; SnowflakeIdGenerator.clock := readings |}
      = Some (Ok ids, w') ->
    exists zs : list Z,
      map as_unsigned ids = map Some zs /\
      StronglySorted Z.lt zs /\
      (Forall (fun t => t < SnowflakeIdGenerator.EPOCH g + 2 ^ 41) readings ->
       Forall (fun z => z < 2 ^ 63) zs).
Proof.
  intros [|k] g readings ids w' Hg Hlast Hrun.
  - simpl in Hrun. injection Hrun as <- _. exists []. repeat split; constructor.
  - apply nextIds_step in Hrun as (id & [g1 readings1] & rest & Hone & Hrest & ->).
    destruct (nextId_advances _ Hg _ _ _ Hone)
      as (ts & seq & -> & Hg1 & Hin & Hincl & Hts & Hseq1 & _).
    simpl in Hg1, Hincl. subst g1.
    destruct (nextIds_issued k _ _ ts _ _
                (eq_trans (valid_configuration_update g _ _) Hg)
                eq_refl ltac:(simpl; lia) ltac:(simpl; exact Hseq1) Hrest)
      as (zs & Hzs & Hsorted & Hall & Hfit).
    simpl in Hfit.
    exists (id_value g ts seq :: zs). repeat split.
    + simpl. rewrite Hzs. f_equal.
      apply as_unsigned_toString. apply id_value_nonneg; [assumption | lia | lia].
    + constructor; assumption.
    + intros Hclock. constructor.
      * rewrite Forall_forall in Hclock. specialize (Hclock ts Hin).
        apply (id_value_fits g Hg); [lia | assumption].
      * apply Hfit. rewrite Forall_forall in Hclock |- *.
        intros t Ht. apply Hclock, Hincl, Ht.
Qed.

(** ** Boundary identifiers and decoding *)

Section Boundaries.
Import SnowflakeIdGenerator.

Lemma example_constructed :
  CustomSnowflakeId.constructor [] 1762128000000 example_options
  = Ok {| CustomSnowflakeId.snowflake := example_generator |}.
Proof. vm_compute. reflexivity. Qed.

Lemma timestamp_value_BigInt (v : JsValue) (T : Z) :
  timestamp_value v = Some T -> timestamp_to_BigInt v = Ok T.
Proof.
  destruct v as [| | |[z|h k| |s]| | | | |[z|]| |]; simpl; try discriminate;
    intros [= ->]; reflexivity.
Qed.

(** The outcome of [getFirstIdAtTimestamp], in closed form. *)
Lemma getFirstIdAtTimestamp_run (v : JsValue) (w : World) :
  getFirstIdAtTimestamp v w =
  Some (match timestamp_to_BigInt v with
        | Throw e => Throw e
        | Ok t =>
            if t <? EPOCH (this w) then Throw ErrTimestampBeforeEpoch
            else Ok (BigInt_toString
                       (Z.shiftl (t - EPOCH (this w))
                          (machineIdBits (this w) + sequenceBits (this w))))
        end, w).
Proof.
  unfold getFirstIdAtTimestamp, bind, lift, get_this, throw, ret.
  destruct (timestamp_to_BigInt v) as [t|e]; [|reflexivity].
  destruct (t <? EPOCH (this w)); [reflexivity|].
  rewrite Z.shiftl_0_l, !Z.lor_0_r. reflexivity.
Qed.

Lemma getLastIdAtTimestamp_run (v : JsValue) (w : World) :
  getLastIdAtTimestamp v w =
  Some (match timestamp_to_BigInt v with
        | Throw e => Throw e
        | Ok t =>
            if t <? EPOCH (this w) then Throw ErrTimestampBeforeEpoch
            else Ok (BigInt_toString
                       (Z.lor
                          (Z.lor
                             (Z.shiftl (t - EPOCH (this w))
                                (machineIdBits (this w) + sequenceBits (this w)))
                             (Z.shiftl (maxMachineId (this w)) (sequenceBits (this w))))
                          (maxSequence (this w))))
        end, w).
Proof.
  unfold getLastIdAtTimestamp, bind, lift, get_this, throw, ret.
  destruct (timestamp_to_BigInt v) as [t|e]; [|reflexivity].
  destruct (t <? EPOCH (this w)); reflexivity.
Qed.

Lemma parseId_run (id : string) (w : World) :
  parseId id w =
  Some (match StringToBigInt id with
        | None => Throw SyntaxError
        | Some idBits =>
            Ok {| Parsed.timestamp :=
                    Date_of_number
                      (Number_of_BigInt
                         (Z.shiftr idBits (machineIdBits (this w) + sequenceBits (this w))
                          + EPOCH (this w)));
                  Parsed.machineId :=
                    Number_of_BigInt
                      (Z.land (Z.shiftr idBits (sequenceBits (this w)))
                         (maxMachineId (this w)));
                  Parsed.sequence :=
                    Number_of_BigInt (Z.land idBits (maxSequence (this w))) |}
        end, w).
Proof.
  unfold parseId, bind, lift, get_this, ret, BigInt_of_string.
  destruct (StringToBigInt id); reflexivity.
Qed.

(** The fields a decoder finds are small enough for [Number] to be exact. *)
Lemma field_Number (x n : Z) :
  0 <= n <= 22 -> 0 <= x < 2 ^ n -> Number_of_BigInt x = NumInt x.
Proof.
  intros Hn Hx. apply Number_of_BigInt_small.
  assert (2 ^ n <= 2 ^ 22) by (apply Z.pow_le_mono_r; lia).
  assert (2 ^ 22 < 2 ^ 53) by reflexivity. lia.
Qed.

Lemma Date_of_time_value (T : Z) :
  Z.abs T <= maxTimeValue -> Date_of_number (Number_of_BigInt T) = Some T.
Proof.
  intros HT. rewrite Number_of_BigInt_small.
  - unfold Date_of_number, num_gt. rewrite !num_lt_int.
    replace (maxTimeValue <? T) with false by (symmetry; apply Z.ltb_ge; lia).
    replace (T <? - maxTimeValue) with false by (symmetry; apply Z.ltb_ge; lia).
    reflexivity.
  - assert (maxTimeValue < 2 ^ 53) by reflexivity. lia.
Qed.

(** Decoding an identifier composed of in-range fields gives the fields back. *)
Lemma parseId_composed (g : Generator) (readings : list Z) (a m s : Z) :
  valid_configuration g = true ->
  0 <= m <= maxMachineId g -> 0 <= s <= maxSequence g ->
  parseId
    (BigInt_toString
       (a * 2 ^ (machineIdBits g + sequenceBits g) + m * 2 ^ sequenceBits g + s))
    {| this := g; clock := readings |}
  = Some (Ok {| Parsed.timestamp := Date_of_number (Number_of_BigInt (a + EPOCH g));
                Parsed.machineId := NumInt m;
                Parsed.sequence := NumInt s |},
          {| this := g; clock := readings |}).
Proof.
  intros Hg Hm Hs. pose proof (valid_configuration_spec g Hg) as
    (Hmb & Hsb & Hsum & HmaxM & HmaxS & _).
  rewrite parseId_run, StringToBigInt_toString. simpl.
  rewrite HmaxM, HmaxS.
  rewrite field_high, field_middle, field_low by lia.
  rewrite (field_Number m (machineIdBits g)) by lia.
  rewrite (field_Number s (sequenceBits g)) by lia.
  reflexivity.
Qed.

End Boundaries.

(** ** Round trips *)


(** C2, as stated, fails: a number may lie beyond the largest time value a
    [Date] holds, and the decoded timestamp is then an invalid date.  Here
    [T] is 10^16 on the example instance. *)
Lemma roundtrip_beyond_Date_range :
  valid_configuration example_generator = true /\
  SnowflakeIdGenerator.EPOCH example_generator <= 10 ^ 16 /\
  ~ roundtrip example_generator (10 ^ 16) (VNumber (NumInt (10 ^ 16))).
Proof.
  split; [reflexivity|]. split; [vm_compute; discriminate|].
  intros H. destruct (H []) as [H1 _]. vm_compute in H1. discriminate.
Qed.

(** C2, amended.  For a valid configuration and a timestamp [T] from the
    epoch on that a [Date] can hold ([|T| <= 8.64e15]), passed as a number or
    as a [Date], decoding the first identifier of [T] gives
    [{timestamp: T, machineId: 0, sequence: 0}] and decoding the last one
    gives [{timestamp: T, machineId: maxMachineId, sequence: maxSequence}]. *)
Theorem roundtrip_boundary_ids :
  forall (g : SnowflakeIdGenerator.Generator) (T : Z) (v : JsValue),
    valid_configuration g = true ->
    timestamp_value v = Some T ->
    SnowflakeIdGenerator.EPOCH g <= T ->
    Z.abs T <= maxTimeValue ->
    roundtrip g T v.
Proof.
  intros g T v Hg Hv HT Hmax readings w.
  pose proof (valid_configuration_spec g Hg) as (Hmb & Hsb & Hsum & HmaxM & HmaxS & _).
  assert (0 < 2 ^ SnowflakeIdGenerator.machineIdBits g) by (apply Z.pow_pos_nonneg; lia).
  assert (0 < 2 ^ SnowflakeIdGenerator.sequenceBits g) by (apply Z.pow_pos_nonneg; lia).
  apply timestamp_value_BigInt in Hv.
  apply Z.ltb_ge in HT.
  unfold decode_first, decode_last, SnowflakeIdGenerator.bind.
  rewrite getFirstIdAtTimestamp_run, getLastIdAtTimestamp_run, Hv.
  subst w. simpl. rewrite HT. split.
  - rewrite Z.shiftl_mul_pow2 by lia.
    replace ((T - SnowflakeIdGenerator.EPOCH g)
             * 2 ^ (SnowflakeIdGenerator.machineIdBits g + SnowflakeIdGenerator.sequenceBits g))
      with ((T - SnowflakeIdGenerator.EPOCH g)
            * 2 ^ (SnowflakeIdGenerator.machineIdBits g + SnowflakeIdGenerator.sequenceBits g)
            + 0 * 2 ^ SnowflakeIdGenerator.sequenceBits g + 0) by ring.
    rewrite parseId_composed by (try assumption; lia).
    replace (T - SnowflakeIdGenerator.EPOCH g + SnowflakeIdGenerator.EPOCH g) with T by ring.
    rewrite Date_of_time_value by assumption. reflexivity.
  - rewrite last_id_value by assumption.
    rewrite parseId_composed by (try assumption; lia).
    replace (T - SnowflakeIdGenerator.EPOCH g + SnowflakeIdGenerator.EPOCH g) with T by ring.
    rewrite Date_of_time_value by assumption. reflexivity.
Qed.

Lemma roundtrip_boundary_ids_example :
  roundtrip example_generator 1704067200001 (VNumber (NumInt 1704067200001)).
Proof.
  apply (roundtrip_boundary_ids example_generator 1704067200001
           (VNumber (NumInt 1704067200001))).
  - reflexivity.
  - reflexivity.
  - vm_compute. discriminate.
  - vm_compute. discriminate.
Defined.

(** C3.  On a valid configuration (in particular, a machine id that fits its
    field), decoding the string [nextId] returned gives the configured
    machine id and a sequence in [0, maxSequence]. *)
Theorem nextId_decodes_to_machineId :
  forall (g : SnowflakeIdGenerator.Generator) (readings : list Z)
         (id : string) (w' : SnowflakeIdGenerator.World),
    valid_configuration g = true ->
    SnowflakeIdGenerator.nextId
      {| SnowflakeIdGenerator.this := g; SnowflakeIdGenerator.clock := readings |}
      = Some (Ok id, w') ->
    exists (p : Parsed.t) (s : Z),
      SnowflakeIdGenerator.parseId id w' = Some (Ok p, w') /\
      Parsed.machineId p = NumInt (SnowflakeIdGenerator.machineId g) /\
      Parsed.sequence p = NumInt s /\
      0 <= s <= SnowflakeIdGenerator.maxSequence g.
Proof.
  intros g readings id [g' readings'] Hg Hrun.
  destruct (nextId_advances _ Hg _ _ _ Hrun) as (ts & seq & -> & Hg' & _ & _ & _ & Hseq & _).
  simpl in Hg'. subst g'.
  pose proof (valid_configuration_spec g Hg) as (_ & _ & _ & HmaxM & _ & Hm).
  set (g' := SnowflakeIdGenerator.with_lastTimestamp (SnowflakeIdGenerator.AsBigInt ts)
               (SnowflakeIdGenerator.with_sequence seq g)).
  assert (Hp := parseId_composed g' readings' (ts - SnowflakeIdGenerator.EPOCH g)
                 (SnowflakeIdGenerator.machineId g) seq
                 (eq_trans (valid_configuration_update g _ _) Hg)).
  unfold g' in Hp. simpl in Hp. fold g' in Hp.
  specialize (Hp ltac:(lia) Hseq).
  eexists _, seq. split; [exact Hp|]. simpl. auto.
Qed.

Lemma nextId_strictly_increasing_example :
  exists zs : list Z,
    map as_unsigned ["20480"; "20481"; "4214784"] = map Some zs /\
    StronglySorted Z.lt zs /\
    (Forall (fun t => t < 1704067200000 + 2 ^ 41)
       [1704067200000; 1704067200000; 1704067200001] ->
     Forall (fun z => z < 2 ^ 63) zs).
Proof.
  apply (nextId_strictly_increasing 3 example_generator
           [1704067200000; 1704067200000; 1704067200001]
           ["20480"; "20481"; "4214784"]
           {| SnowflakeIdGenerator.this :=
                SnowflakeIdGenerator.with_lastTimestamp
                  (SnowflakeIdGenerator.AsBigInt 1704067200001) example_generator;
              SnowflakeIdGenerator.clock := [] |}).
  - reflexivity.
  - vm_compute. discriminate.
  - vm_compute. reflexivity.
Defined.

Lemma nextId_decodes_to_machineId_example :
  exists (p : Parsed.t) (s : Z),
    SnowflakeIdGenerator.parseId "20480"
      {| SnowflakeIdGenerator.this :=
           SnowflakeIdGenerator.with_lastTimestamp
             (SnowflakeIdGenerator.AsBigInt 1704067200000) example_generator;
         SnowflakeIdGenerator.clock := [] |}
    = Some (Ok p,
            {| SnowflakeIdGenerator.this :=
                 SnowflakeIdGenerator.with_lastTimestamp
                   (SnowflakeIdGenerator.AsBigInt 1704067200000) example_generator;
               SnowflakeIdGenerator.clock := [] |}) /\
    Parsed.machineId p = NumInt 5 /\
    Parsed.sequence p = NumInt s /\
    0 <= s <= 4095.
Proof.
  apply (nextId_decodes_to_machineId example_generator [1704067200000] "20480").
  - reflexivity.
  - vm_compute. reflexivity.
Defined.

(** C4.  For a timestamp [T] from the epoch on, [getFirstIdAtTimestamp]
    returns the decimal string of [(T - epoch) << (machineIdBits +
    sequenceBits)], which has timestamp field [T - epoch] and is the smallest
    integer that has; and on the example instance (10 and 12 bits), one
    millisecond after the epoch, it returns ["4194304"]. *)
Theorem getFirstIdAtTimestamp_smallest :
  (forall (g : SnowflakeIdGenerator.Generator) (readings : list Z) (T : Z) (v : JsValue),
      valid_configuration g = true ->
      timestamp_value v = Some T ->
      SnowflakeIdGenerator.EPOCH g <= T ->
      let w := {| SnowflakeIdGenerator.this := g; SnowflakeIdGenerator.clock := readings |} in
      let bits := SnowflakeIdGenerator.machineIdBits g + SnowflakeIdGenerator.sequenceBits g in
      let first := Z.shiftl (T - SnowflakeIdGenerator.EPOCH g) bits in
      SnowflakeIdGenerator.getFirstIdAtTimestamp v w
        = Some (Ok (BigInt_toString first), w) /\
      Z.shiftr first bits = T - SnowflakeIdGenerator.EPOCH g /\
      (forall z : Z, Z.shiftr z bits = T - SnowflakeIdGenerator.EPOCH g -> first <= z)) /\
  SnowflakeIdGenerator.getFirstIdAtTimestamp (VNumber (NumInt (1704067200000 + 1)))
    (example_world [])
  = Some (Ok "4194304", example_world []).
Proof.
  split; [|vm_compute; reflexivity].
  intros g readings T v Hg Hv HT w bits first.
  pose proof (valid_configuration_spec g Hg) as (Hmb & Hsb & _).
  assert (Hbits : 0 <= bits) by (unfold bits; lia).
  assert (Hp : 0 < 2 ^ bits) by (apply Z.pow_pos_nonneg; lia).
  apply timestamp_value_BigInt in Hv. apply Z.ltb_ge in HT.
  rewrite getFirstIdAtTimestamp_run, Hv. simpl. rewrite HT.
  split; [reflexivity|]. unfold first. split.
  - rewrite Z.shiftr_shiftl_l, Z.sub_diag by lia. apply Z.shiftl_0_r.
  - intros z Hz. rewrite <- Hz.
    rewrite Z.shiftl_mul_pow2, Z.shiftr_div_pow2 by lia.
    rewrite Z.mul_comm. apply Z.mul_div_le. exact Hp.
Qed.

Lemma getFirstIdAtTimestamp_smallest_example :
  SnowflakeIdGenerator.getFirstIdAtTimestamp (VDate (Some 1704067200002)) (example_world [])
    = Some (Ok (BigInt_toString (Z.shiftl 2 22)), example_world []) /\
  Z.shiftr (Z.shiftl 2 22) 22 = 2 /\
  (forall z : Z, Z.shiftr z 22 = 2 -> Z.shiftl 2 22 <= z).
Proof.
  apply (proj1 getFirstIdAtTimestamp_smallest example_generator []
           1704067200002 (VDate (Some 1704067200002))).
  - reflexivity.
  - reflexivity.
  - vm_compute. discriminate.
Defined.

(** C5.  For a timestamp [T] at least one millisecond after the epoch, as
    unsigned integers: the first identifier of [T] is at most the last one
    of [T], the last one of [T - 1] is below the first one of [T], and the
    last one of [T] is below the first one of [T + 1]. *)
Theorem boundary_ordering :
  forall (g : SnowflakeIdGenerator.Generator) (readings : list Z) (T : Z)
         (vT vPrev vNext : JsValue),
    valid_configuration g = true ->
    timestamp_value vT = Some T ->
    timestamp_value vPrev = Some (T - 1) ->
    timestamp_value vNext = Some (T + 1) ->
    SnowflakeIdGenerator.EPOCH g + 1 <= T ->
    let w := {| SnowflakeIdGenerator.this := g; SnowflakeIdGenerator.clock := readings |} in
    exists first last prev next : Z,
      returned_value (SnowflakeIdGenerator.getFirstIdAtTimestamp vT) w = Some first /\
      returned_value (SnowflakeIdGenerator.getLastIdAtTimestamp vT) w = Some last /\
      returned_value (SnowflakeIdGenerator.getLastIdAtTimestamp vPrev) w = Some prev /\
      returned_value (SnowflakeIdGenerator.getFirstIdAtTimestamp vNext) w = Some next /\
      first <= last /\ prev < first /\ last < next.
Proof.
  intros g readings T vT vPrev vNext Hg HvT HvP HvN HT w.
  pose proof (valid_configuration_spec g Hg) as (Hmb & Hsb & _ & HmaxM & HmaxS & _).
  set (E := SnowflakeIdGenerator.EPOCH g) in *.
  set (bits := SnowflakeIdGenerator.machineIdBits g + SnowflakeIdGenerator.sequenceBits g).
  assert (Hp : 0 < 2 ^ SnowflakeIdGenerator.sequenceBits g) by (apply Z.pow_pos_nonneg; lia).
  assert (Hq : 0 < 2 ^ SnowflakeIdGenerator.machineIdBits g) by (apply Z.pow_pos_nonneg; lia).
  assert (Hpq : 2 ^ bits = 2 ^ SnowflakeIdGenerator.machineIdBits g
                           * 2 ^ SnowflakeIdGenerator.sequenceBits g)
    by (unfold bits; apply Z.pow_add_r; lia).
  assert (Hfull : SnowflakeIdGenerator.maxMachineId g * 2 ^ SnowflakeIdGenerator.sequenceBits g
                  + SnowflakeIdGenerator.maxSequence g = 2 ^ bits - 1)
    by (rewrite HmaxM, HmaxS, Hpq; ring).
  assert (Hpos : 0 < 2 ^ bits) by (rewrite Hpq; nia).
  apply timestamp_value_BigInt in HvT, HvP, HvN.
  exists ((T - E) * 2 ^ bits), ((T - E) * 2 ^ bits + (2 ^ bits - 1)),
         ((T - 1 - E) * 2 ^ bits + (2 ^ bits - 1)), ((T + 1 - E) * 2 ^ bits).
  unfold returned_value.
  rewrite !getFirstIdAtTimestamp_run, !getLastIdAtTimestamp_run, HvT, HvP, HvN.
  subst w. simpl. fold E. fold bits.
  replace (T <? E) with false by (symmetry; apply Z.ltb_ge; lia).
  replace (T - 1 <? E) with false by (symmetry; apply Z.ltb_ge; lia).
  replace (T + 1 <? E) with false by (symmetry; apply Z.ltb_ge; lia).
  rewrite !Z.shiftl_mul_pow2 by (unfold bits; lia).
  pose proof (last_id_value g Hg T) as HlastT.
  pose proof (last_id_value g Hg (T - 1)) as HlastP.
  fold E bits in HlastT, HlastP.
  rewrite !Z.shiftl_mul_pow2 in HlastT, HlastP by (unfold bits; lia).
  rewrite HlastT, HlastP.
  replace ((T - E) * 2 ^ bits
           + SnowflakeIdGenerator.maxMachineId g * 2 ^ SnowflakeIdGenerator.sequenceBits g
           + SnowflakeIdGenerator.maxSequence g)
    with ((T - E) * 2 ^ bits + (2 ^ bits - 1)) by lia.
  replace ((T - 1 - E) * 2 ^ bits
           + SnowflakeIdGenerator.maxMachineId g * 2 ^ SnowflakeIdGenerator.sequenceBits g
           + SnowflakeIdGenerator.maxSequence g)
    with ((T - 1 - E) * 2 ^ bits + (2 ^ bits - 1)) by lia.
  rewrite !as_unsigned_toString by nia.
  repeat split; nia.
Qed.

Lemma boundary_ordering_example :
  exists first last prev next : Z,
    returned_value
      (SnowflakeIdGenerator.getFirstIdAtTimestamp (VNumber (NumInt 1704067200005)))
      (example_world []) = Some first /\
    returned_value
      (SnowflakeIdGenerator.getLastIdAtTimestamp (VNumber (NumInt 1704067200005)))
      (example_world []) = Some last /\
    returned_value
      (SnowflakeIdGenerator.getLastIdAtTimestamp (VNumber (NumInt 1704067200004)))
      (example_world []) = Some prev /\
    returned_value
      (SnowflakeIdGenerator.getFirstIdAtTimestamp (VDate (Some 1704067200006)))
      (example_world []) = Some next /\
    first <= last /\ prev < first /\ last < next.
Proof.
  apply (boundary_ordering example_generator [] 1704067200005
           (VNumber (NumInt 1704067200005)) (VNumber (NumInt 1704067200004))
           (VDate (Some 1704067200006))).
  - reflexivity.
  - reflexivity.
  - reflexivity.
  - reflexivity.
  - vm_compute. discriminate.
Defined.

(** ** Failures *)

Section Failures.
Import SnowflakeIdGenerator.

Lemma timestamp_to_BigInt_cases (v : JsValue) :
  (is_number_or_Date v = false /\ timestamp_to_BigInt v = Throw ErrTimestampType) \/
  (is_number_or_Date v = true /\ timestamp_value v = None /\
   timestamp_to_BigInt v = Throw RangeError) \/
  (exists T, timestamp_value v = Some T /\ timestamp_to_BigInt v = Ok T).
Proof.
  destruct v as [| | |[z|h k| |s]| | | | |[z|]| |]; simpl; eauto 6.
Qed.

Lemma boundary_fails_iff (g : Generator) (v : JsValue) (id : Z -> string) :
  throws (match timestamp_to_BigInt v with
          | Throw e => Throw e
          | Ok t => if t <? EPOCH g then Throw ErrTimestampBeforeEpoch else Ok (id t)
          end)
  <-> rejected_timestamp g v.
Proof.
  unfold rejected_timestamp, throws.
  destruct (timestamp_to_BigInt_cases v) as [(Hk & ->) | [(Hk & Hv & ->) | (T & Hv & ->)]].
  - split; eauto.
  - split; eauto.
  - destruct (T <? EPOCH g) eqn:E.
    + apply Z.ltb_lt in E. split; eauto 6.
    + apply Z.ltb_ge in E. split.
      * intros [e He]. discriminate.
      * intros [Hk | [(_ & Hn) | (T' & HT' & Hlt)]].
        -- destruct v as [| | |[z|h k| |s]| | | | |[z|]| |]; discriminate.
        -- congruence.
        -- assert (T' = T) by congruence. lia.
Qed.

(** A text that is not a literal makes [BigInt()] throw, and only such a
    text does. *)
Lemma StringToBigInt_rejects (s : string) :
  StringToBigInt s = None <-> ~ StringIntegerLiteral s.
Proof.
  pose proof (StringToBigInt_accepts s) as [H1 H2]. split.
  - intros Hn Hl. apply (H2 Hl Hn).
  - intros Hn. destruct (StringToBigInt s) eqn:E; [|reflexivity].
    exfalso. apply Hn, H1. discriminate.
Qed.

Lemma CustomSnowflakeId_parseId_run (s : string) (w : World) :
  CustomSnowflakeId.parseId s w =
  Some (match parseId s w with
        | Some (Ok p, _) => Ok p
        | _ => Throw ErrInvalidId
        end, w).
Proof.
  unfold CustomSnowflakeId.parseId, try_catch, bind, throw, ret.
  rewrite parseId_run. destruct (StringToBigInt s); reflexivity.
Qed.

End Failures.

(** The documentation's example: with epoch 2024-01-01T00:00:00.000Z, the
    query 2023-12-31T23:59:59.999Z is refused by both functions. *)
Example query_before_epoch :
  SnowflakeIdGenerator.getFirstIdAtTimestamp (VDate (Some 1704067199999)) (example_world [])
    = Some (Throw ErrTimestampBeforeEpoch, example_world []) /\
  SnowflakeIdGenerator.getLastIdAtTimestamp (VDate (Some 1704067199999)) (example_world [])
    = Some (Throw ErrTimestampBeforeEpoch, example_world []).
Proof. split; vm_compute; reflexivity. Qed.

(** C6, as stated, fails: a number that is not an integer is a number, it
    need not be before the epoch, and the boundary functions fail on it all
    the same ([BigInt()] raises a [RangeError]).  Here the argument is the
    epoch plus half a millisecond, on the example instance. *)
Lemma fractional_timestamp_rejected :
  let v := VNumber (NumFrac 1704067200000 1) in
  is_number_or_Date v = true /\
  strictly_before v (SnowflakeIdGenerator.EPOCH example_generator) = false /\
  SnowflakeIdGenerator.getFirstIdAtTimestamp v (example_world [])
    = Some (Throw RangeError, example_world []) /\
  SnowflakeIdGenerator.getLastIdAtTimestamp v (example_world [])
    = Some (Throw RangeError, example_world []).
Proof. vm_compute. repeat split. Qed.

(** C6, amended.  [getFirstIdAtTimestamp] and [getLastIdAtTimestamp] fail
    exactly when the argument is no number and no [Date], or is one whose
    millisecond value is not an integer, or is strictly before the epoch; and
    whether they fail or not, the instance (and the clock) is left as it
    was. *)
Theorem boundary_functions_fail_iff :
  forall (g : SnowflakeIdGenerator.Generator) (readings : list Z) (v : JsValue),
    let w := {| SnowflakeIdGenerator.this := g; SnowflakeIdGenerator.clock := readings |} in
    (exists r, SnowflakeIdGenerator.getFirstIdAtTimestamp v w = Some (r, w) /\
               (throws r <-> rejected_timestamp g v)) /\
    (exists r, SnowflakeIdGenerator.getLastIdAtTimestamp v w = Some (r, w) /\
               (throws r <-> rejected_timestamp g v)).
Proof.
  intros g readings v w. split.
  - rewrite getFirstIdAtTimestamp_run. eexists. split; [reflexivity|].
    apply (boundary_fails_iff g v).
  - rewrite getLastIdAtTimestamp_run. eexists. split; [reflexivity|].
    apply (boundary_fails_iff g v).
Qed.

(** C7, as stated, fails: ["-5"] is no non-negative integer string, and
    [parseId] decodes it without an error. *)
Lemma parseId_accepts_negative :
  is_digits 10 "-5" = false /\
  CustomSnowflakeId.parseId "-5" (example_world [])
  = Some (Ok {| Parsed.timestamp := Some 1704067199999;
                Parsed.machineId := NumInt 1023;
                Parsed.sequence := NumInt 4091 |}, example_world []).
Proof. vm_compute. split; reflexivity. Qed.

(** C7, amended.  [parseId] fails, with the error 'snowflakeId must be a
    valid numeric string', if and only if its input is not an integer literal
    as [BigInt()] reads one: white space around nothing at all, decimal digits
    with an optional sign, or a [0x], [0o] or [0b] literal.  In particular
    ["not-a-number"] fails, and every non-empty string of decimal digits is
    decoded without an error. *)
Theorem parseId_fails_iff :
  forall (g : SnowflakeIdGenerator.Generator) (readings : list Z) (s : string),
    let w := {| SnowflakeIdGenerator.this := g; SnowflakeIdGenerator.clock := readings |} in
    (CustomSnowflakeId.parseId s w = Some (Throw ErrInvalidId, w)
     <-> ~ StringIntegerLiteral s) /\
    ((exists p, CustomSnowflakeId.parseId s w = Some (Ok p, w))
     <-> StringIntegerLiteral s) /\
    CustomSnowflakeId.parseId "not-a-number" w = Some (Throw ErrInvalidId, w) /\
    (is_digits 10 s = true -> exists p, CustomSnowflakeId.parseId s w = Some (Ok p, w)).
Proof.
  intros g readings s w.
  assert (Hrun : forall t,
             CustomSnowflakeId.parseId t w
             = Some (match StringToBigInt t with
                     | Some _ =>
                         match SnowflakeIdGenerator.parseId t w with
                         | Some (Ok p, _) => Ok p
                         | _ => Throw ErrInvalidId
                         end
                     | None => Throw ErrInvalidId
                     end, w)).
  { intros t. rewrite CustomSnowflakeId_parseId_run, parseId_run.
    destruct (StringToBigInt t); reflexivity. }
  assert (Hok : forall t, StringToBigInt t <> None ->
                          exists p, CustomSnowflakeId.parseId t w = Some (Ok p, w)).
  { intros t Ht. rewrite Hrun, parseId_run.
    destruct (StringToBigInt t); [eauto | congruence]. }
  split; [split|split; [split|split]].
  - intros H Hl. apply StringToBigInt_accepts in Hl.
    destruct (Hok s Hl) as [p Hp]. congruence.
  - intros Hn. apply StringToBigInt_rejects in Hn. rewrite Hrun, Hn. reflexivity.
  - intros [p Hp]. apply StringToBigInt_accepts. intros Hn.
    rewrite Hrun, Hn in Hp. discriminate.
  - intros Hl. apply Hok, StringToBigInt_accepts, Hl.
  - rewrite Hrun. reflexivity.
  - intros Hd. apply Hok. rewrite StringToBigInt_digits by assumption.
    apply parse_digits_is_digits. exact Hd.
Qed.

Lemma parseId_fails_iff_example :
  exists p, CustomSnowflakeId.parseId "4194304" (example_world [])
            = Some (Ok p, example_world []).
Proof.
  apply (proj2 (proj2 (proj2 (parseId_fails_iff example_generator [] "4194304")))).
  reflexivity.
Defined.

(** C10.  [getFirstIdAtTimestamp], [getLastIdAtTimestamp] and [parseId]
    leave the instance (and the clock) exactly as it was, for every argument
    and whether they return or throw; [nextId] changes [lastTimestamp] and
    [sequence] and no other field. *)
Theorem only_nextId_changes_state :
  forall (g : SnowflakeIdGenerator.Generator) (readings : list Z),
    let w := {| SnowflakeIdGenerator.this := g; SnowflakeIdGenerator.clock := readings |} in
    (forall v, exists r, SnowflakeIdGenerator.getFirstIdAtTimestamp v w = Some (r, w)) /\
    (forall v, exists r, SnowflakeIdGenerator.getLastIdAtTimestamp v w = Some (r, w)) /\
    (forall s, exists r, SnowflakeIdGenerator.parseId s w = Some (r, w)) /\
    (forall s, exists r, CustomSnowflakeId.parseId s w = Some (r, w)) /\
    (forall r w', SnowflakeIdGenerator.nextId w = Some (r, w') ->
                  same_configuration g (SnowflakeIdGenerator.this w')).
Proof.
  intros g readings w. split; [|split; [|split; [|split]]].
  - intros v. rewrite getFirstIdAtTimestamp_run. eauto.
  - intros v. rewrite getLastIdAtTimestamp_run. eauto.
  - intros s. rewrite parseId_run. eauto.
  - intros s. rewrite CustomSnowflakeId_parseId_run. eauto.
  - intros r w' Hrun.
    destruct (nextId_spec _ _ _ _ Hrun) as (ts & seq & _ & -> & _).
    apply same_configuration_update.
Qed.

Lemma only_nextId_changes_state_example :
  same_configuration example_generator
    (SnowflakeIdGenerator.with_lastTimestamp
       (SnowflakeIdGenerator.AsBigInt 1704067200000) example_generator).
Proof.
  apply (proj2 (proj2 (proj2 (proj2
           (only_nextId_changes_state example_generator [1704067200000]))))
           (Ok "20480")
           {| SnowflakeIdGenerator.this :=
                SnowflakeIdGenerator.with_lastTimestamp
                  (SnowflakeIdGenerator.AsBigInt 1704067200000) example_generator;
              SnowflakeIdGenerator.clock := [] |}).
  vm_compute. reflexivity.
Defined.

(** ** Construction *)

Section Construction.
Import SnowflakeIdGenerator.

Lemma BigInt_of_number_Ok (n : JsNumber) (z : Z) :
  BigInt_of_number n = Ok z -> n = NumInt z.
Proof. destruct n; simpl; congruence. Qed.

Lemma BigInt_pow_Ok (a b p : Z) : BigInt_pow a b = Ok p -> 0 <= b /\ p = a ^ b.
Proof.
  unfold BigInt_pow. destruct (b <? 0) eqn:E; [discriminate|].
  apply Z.ltb_ge in E. intros [= <-]. auto.
Qed.

Lemma generateMachineId_range (interfaces : NetworkInterfaces) (n z : Z) :
  0 <= n -> generateMachineId interfaces (2 ^ n - 1) = Ok z -> 0 <= z <= 2 ^ n - 1.
Proof.
  intros Hn. unfold generateMachineId.
  match goal with |- context [negb (is_empty ?m)] => destruct (negb (is_empty m)) end.
  - destruct (BigInt_of_number _); cbn [rbind]; [|discriminate].
    intros [= <-]. apply land_mask_range. exact Hn.
  - cbn [rbind]. intros [= <-]. exact (land_mask_range 0 n Hn).
Qed.

(** What the fields of a constructed generator are. *)
Lemma constructor_spec (interfaces : NetworkInterfaces) (mb sb : JsNumber)
  (mid : option JsNumber) (ft : option JsDate) (g : Generator) :
  constructor interfaces mb sb mid ft = Ok g ->
  mb = NumInt (machineIdBits g) /\ sb = NumInt (sequenceBits g) /\
  0 <= machineIdBits g /\ 0 <= sequenceBits g /\
  maxMachineId g = 2 ^ machineIdBits g - 1 /\
  maxSequence g = 2 ^ sequenceBits g - 1 /\
  sequence g = 0 /\ lastTimestamp g = AsDate (EPOCH g) /\
  match mid with
  | Some n => n = NumInt (machineId g)
  | None => 0 <= machineId g <= maxMachineId g
  end.
Proof.
  unfold constructor.
  destruct (BigInt_of_number mb) as [m|] eqn:Em; [|discriminate].
  destruct (BigInt_of_number sb) as [s|] eqn:Es; [|discriminate].
  apply BigInt_of_number_Ok in Em, Es. subst mb sb.
  cbn [rbind]. change (BigInt_pow 2 41) with (Ok (2 ^ 41)). cbn [rbind].
  destruct (BigInt_pow 2 m) as [pm|] eqn:Epm; [|discriminate].
  destruct (BigInt_pow 2 s) as [ps|] eqn:Eps; [|discriminate].
  apply BigInt_pow_Ok in Epm as [Hm ->], Eps as [Hs ->].
  cbn [rbind].
  destruct mid as [n|].
  - destruct (BigInt_of_number n) as [z|] eqn:En; [|discriminate].
    apply BigInt_of_number_Ok in En. subst n. cbn [rbind].
    destruct (BigInt_of_number _) as [e|]; [|discriminate].
    cbn [rbind]. intros [= <-]. simpl. repeat split; auto.
  - destruct (generateMachineId interfaces (2 ^ m - 1)) as [z|] eqn:Eg; [|discriminate].
    apply generateMachineId_range in Eg; [|exact Hm]. cbn [rbind].
    destruct (BigInt_of_number _) as [e|]; [|discriminate].
    cbn [rbind]. intros [= <-]. simpl. repeat split; auto; lia.
Qed.

Lemma check_Ok (failed : bool) (e : JsError) (u : unit) :
  CustomSnowflakeId.check failed e = Ok u -> failed = false.
Proof. destruct failed; simpl; congruence. Qed.

Lemma check_bit_widths_Ok (mb sb : JsNumber) (u : unit) :
  CustomSnowflakeId.check_bit_widths mb sb = Ok u ->
  num_neq (num_add mb sb) (NumInt 22) = false /\
  num_le mb (NumInt 0) = false /\ num_le sb (NumInt 0) = false.
Proof.
  unfold CustomSnowflakeId.check_bit_widths.
  destruct (CustomSnowflakeId.check (num_neq _ _) _) as [[]|] eqn:E1; [|discriminate].
  apply check_Ok in E1. cbn [rbind]. intros E2. apply check_Ok in E2.
  apply orb_false_elim in E2. tauto.
Qed.

(** A construction that succeeds, step by step. *)
Lemma CustomSnowflakeId_constructor_Ok (interfaces : NetworkInterfaces) (now : Z)
  (options : JsValue) (c : CustomSnowflakeId.t) :
  CustomSnowflakeId.constructor interfaces now options = Ok c ->
  exists (o : CustomSnowflakeId.Options) (machineId : option JsNumber)
         (firstTimestamp : JsDate),
    CustomSnowflakeId.validate_options options = Ok o /\
    CustomSnowflakeId.check_bit_widths
      (fst (CustomSnowflakeId.bit_widths o)) (snd (CustomSnowflakeId.bit_widths o)) = Ok tt /\
    CustomSnowflakeId.check_MachineId
      (fst (CustomSnowflakeId.bit_widths o)) (CustomSnowflakeId.MachineId o) = Ok machineId /\
    constructor interfaces
      (fst (CustomSnowflakeId.bit_widths o)) (snd (CustomSnowflakeId.bit_widths o))
      machineId (Some firstTimestamp) = Ok (CustomSnowflakeId.snowflake c).
Proof.
  unfold CustomSnowflakeId.constructor.
  destruct (CustomSnowflakeId.validate_options options) as [o|]; [|discriminate].
  cbn [rbind].
  destruct (CustomSnowflakeId.check_FirstTimestamp now _) as [[]|]; [|discriminate].
  cbn [rbind].
  destruct (CustomSnowflakeId.bit_widths o) as [mb sb] eqn:Eb.
  destruct (CustomSnowflakeId.check_bit_widths mb sb) as [[]|] eqn:Ew; [|discriminate].
  cbn [rbind].
  destruct (CustomSnowflakeId.check_MachineId mb _) as [mid|] eqn:Em; [|discriminate].
  cbn [rbind].
  destruct (constructor interfaces mb sb mid _) as [g|] eqn:Eg; [|discriminate].
  cbn [rbind]. intros [= <-]. simpl.
  exists o, mid. eexists. rewrite Eb. simpl. repeat split; try reflexivity; eassumption.
Qed.

(** The range test of the constructor passes for every bit-width that
    reaches it, whatever [MachineId] is. *)
Lemma check_MachineId_passes (mb : Z) (MachineId : option JsNumber) :
  0 < mb < 22 ->
  CustomSnowflakeId.check_MachineId (NumInt mb) MachineId = Ok MachineId.
Proof.
  intros Hmb. destruct MachineId as [n|]; [|reflexivity].
  destruct mb as [|p|p]; try lia.
  bounded_positive p; vm_compute; reflexivity.
Qed.

(** A construction that succeeds went through the checks of the two
    bit-widths, and the generator has the widths that passed them. *)
Lemma constructed_bit_widths (interfaces : NetworkInterfaces) (now : Z)
  (options : JsValue) (c : CustomSnowflakeId.t) :
  CustomSnowflakeId.constructor interfaces now options = Ok c ->
  let g := CustomSnowflakeId.snowflake c in
  0 < machineIdBits g /\ 0 < sequenceBits g /\
  machineIdBits g + sequenceBits g = 22 /\
  exists o, CustomSnowflakeId.validate_options options = Ok o /\
            CustomSnowflakeId.bit_widths o
            = (NumInt (machineIdBits g), NumInt (sequenceBits g)).
Proof.
  intros Hc g.
  destruct (CustomSnowflakeId_constructor_Ok _ _ _ _ Hc)
    as (o & mid & ft & Ho & Hw & _ & Hg).
  fold g in Hg.
  destruct (constructor_spec _ _ _ _ _ _ Hg) as (Hmb & Hsb & _).
  apply check_bit_widths_Ok in Hw as (Hsum & Hm & Hs).
  rewrite Hmb, Hsb in Hsum. rewrite Hmb in Hm. rewrite Hsb in Hs.
  apply num_add_22 in Hsum.
  rewrite num_le_int in Hm, Hs. apply Z.leb_gt in Hm, Hs.
  repeat split; try assumption.
  exists o. split; [assumption|].
  destruct (CustomSnowflakeId.bit_widths o). simpl in Hmb, Hsb. congruence.
Qed.

Lemma valid_configuration_intro (g : Generator) :
  0 < machineIdBits g -> 0 < sequenceBits g ->
  machineIdBits g + sequenceBits g = 22 ->
  maxMachineId g = 2 ^ machineIdBits g - 1 ->
  maxSequence g = 2 ^ sequenceBits g - 1 ->
  0 <= machineId g <= maxMachineId g ->
  valid_configuration g = true.
Proof.
  intros Hm Hs Hsum HmaxM HmaxS Hid. unfold valid_configuration.
  apply Z.ltb_lt in Hm, Hs. apply Z.eqb_eq in Hsum, HmaxM, HmaxS.
  destruct Hid as [Hid1 Hid2]. apply Z.leb_le in Hid1, Hid2.
  rewrite Hm, Hs, Hsum, HmaxM, HmaxS, Hid1, Hid2. reflexivity.
Qed.

(** What construction establishes: a fresh state, and a valid configuration
    as soon as the machine id fits its field, as it does when it is derived
    from the host. *)
Lemma constructed_configuration (interfaces : NetworkInterfaces) (now : Z)
  (options : JsValue) (c : CustomSnowflakeId.t) :
  CustomSnowflakeId.constructor interfaces now options = Ok c ->
  let g := CustomSnowflakeId.snowflake c in
  sequence g = 0 /\ lastTimestamp g = AsDate (EPOCH g) /\
  (0 <= machineId g <= maxMachineId g -> valid_configuration g = true) /\
  (get_property options "MachineId" = VUndefined -> valid_configuration g = true).
Proof.
  intros Hc g.
  destruct (constructed_bit_widths _ _ _ _ Hc) as (Hm & Hs & Hsum & _).
  destruct (CustomSnowflakeId_constructor_Ok _ _ _ _ Hc)
    as (o & mid & ft & Ho & _ & Hmid & Hg).
  fold g in Hm, Hs, Hsum, Hg.
  destruct (constructor_spec _ _ _ _ _ _ Hg)
    as (_ & _ & _ & _ & HmaxM & HmaxS & Hseq & Hlast & Hid).
  assert (Hvalid : 0 <= machineId g <= maxMachineId g -> valid_configuration g = true)
    by (intros; apply valid_configuration_intro; assumption).
  repeat split; try assumption.
  intros Habsent. apply Hvalid.
  assert (Hnone : CustomSnowflakeId.MachineId o = None).
  { revert Ho. unfold CustomSnowflakeId.validate_options.
    repeat (match goal with
            | |- context [rbind (CustomSnowflakeId.check ?b ?e) _] =>
                destruct (CustomSnowflakeId.check b e); cbn [rbind]; [|discriminate]
            | |- context [rbind (CustomSnowflakeId.check_keys ?k) _] =>
                destruct (CustomSnowflakeId.check_keys k); cbn [rbind]; [|discriminate]
            end).
    intros [= <-]. simpl.
    destruct (truthy options) eqn:Et; simpl in *.
    - rewrite Habsent. reflexivity.
    - reflexivity. }
  rewrite Hnone in Hmid. simpl in Hmid. injection Hmid as <-. exact Hid.
Qed.

(** The default generator of [index.js] has a valid configuration. *)
Lemma defaultSnowflake_valid (interfaces : NetworkInterfaces) (g : Generator) :
  defaultSnowflake interfaces = Ok g ->
  valid_configuration g = true /\ sequence g = 0 /\ lastTimestamp g = AsDate (EPOCH g).
Proof.
  intros Hg. unfold defaultSnowflake in Hg.
  destruct (constructor_spec _ _ _ _ _ _ Hg)
    as (Hmb & Hsb & _ & _ & HmaxM & HmaxS & Hseq & Hlast & Hid).
  injection Hmb as Hmb. injection Hsb as Hsb.
  repeat split; try assumption.
  apply valid_configuration_intro; try assumption; rewrite <- ?Hmb, <- ?Hsb; lia.
Qed.

(** With a machine id that does not fit its field, the identifiers of one
    instance are no longer increasing, nor even distinct: machine id 1024 on
    10 bits adds one to the timestamp field. *)
Lemma unchecked_MachineId_breaks_order :
  exists c w',
    CustomSnowflakeId.constructor [] 1762128000000
      (VObject [("MachineId", VNumber (NumInt 1024))]) = Ok c /\
    nextIds 3
      {| this := CustomSnowflakeId.snowflake c;
         clock := [1704067200002; 1704067200002; 1704067200003] |}
    = Some (Ok ["12582912"; "12582913"; "12582912"], w').
Proof. eexists. eexists. split; vm_compute; reflexivity. Qed.

End Construction.

(** C8: the constructor does not check the range of [MachineId].  With the
    default widths (10 and 12 bits, machine ids 0 to 1023) it accepts any
    integer, such as 5000, and builds a generator with it. *)
Theorem MachineId_range_is_not_checked :
  forall (interfaces : NetworkInterfaces) (now n : Z),
    exists g : SnowflakeIdGenerator.Generator,
      CustomSnowflakeId.constructor interfaces now
        (VObject [("MachineId", VNumber (NumInt n))])
      = Ok {| CustomSnowflakeId.snowflake := g |} /\
      SnowflakeIdGenerator.machineId g = n /\
      SnowflakeIdGenerator.maxMachineId g = 1023.
Proof.
  intros interfaces now n. eexists. split; [reflexivity|]. split; reflexivity.
Qed.

(** C9.  A construction that succeeds has two positive bit-widths that add
    up to 22, and they are the widths of the generator it builds; with any
    other pair of widths the construction throws. *)
Theorem construction_requires_valid_bit_widths :
  forall (interfaces : NetworkInterfaces) (now : Z) (options : JsValue),
    (forall c : CustomSnowflakeId.t,
        CustomSnowflakeId.constructor interfaces now options = Ok c ->
        let g := CustomSnowflakeId.snowflake c in
        0 < SnowflakeIdGenerator.machineIdBits g /\
        0 < SnowflakeIdGenerator.sequenceBits g /\
        SnowflakeIdGenerator.machineIdBits g + SnowflakeIdGenerator.sequenceBits g = 22 /\
        exists o, CustomSnowflakeId.validate_options options = Ok o /\
                  CustomSnowflakeId.bit_widths o
                  = (NumInt (SnowflakeIdGenerator.machineIdBits g),
                     NumInt (SnowflakeIdGenerator.sequenceBits g))) /\
    (forall o : CustomSnowflakeId.Options,
        CustomSnowflakeId.validate_options options = Ok o ->
        ~ valid_bit_widths (CustomSnowflakeId.bit_widths o) ->
        throws (CustomSnowflakeId.constructor interfaces now options)).
Proof.
  intros interfaces now options.
  split; [intros c Hc; exact (constructed_bit_widths _ _ _ _ Hc)|].
  intros o Ho Hbad.
  destruct (CustomSnowflakeId.constructor interfaces now options) as [c|e] eqn:Hc;
    [|exists e; reflexivity].
  exfalso. apply Hbad.
  destruct (constructed_bit_widths _ _ _ _ Hc) as (Hm & Hs & Hsum & o' & Ho' & Hw).
  assert (o' = o) by congruence. subst o'.
  unfold valid_bit_widths. eauto 8.
Qed.

Lemma construction_requires_valid_bit_widths_example :
  let g := example_generator in
  0 < SnowflakeIdGenerator.machineIdBits g /\
  0 < SnowflakeIdGenerator.sequenceBits g /\
  SnowflakeIdGenerator.machineIdBits g + SnowflakeIdGenerator.sequenceBits g = 22 /\
  exists o, CustomSnowflakeId.validate_options example_options = Ok o /\
            CustomSnowflakeId.bit_widths o
            = (NumInt (SnowflakeIdGenerator.machineIdBits g),
               NumInt (SnowflakeIdGenerator.sequenceBits g)).
Proof.
  apply (proj1 (construction_requires_valid_bit_widths [] 1762128000000 example_options)
           {| CustomSnowflakeId.snowflake := example_generator |}).
  vm_compute. reflexivity.
Defined.

(** * Further properties *)

(** ** [nextId] and [waitNextMillis] *)

Section NextIdProgress.
Import SnowflakeIdGenerator.

(** While every reading satisfies the loop's condition, the loop has no
    outcome. *)
Lemma poll_while_blocks (cond : Z -> bool) (readings : list Z) :
  forall timestamp,
    cond timestamp = true -> Forall (fun t => cond t = true) readings ->
    poll_while cond timestamp readings = None.
Proof.
  induction readings as [|r readings IH]; intros timestamp Ht Hall; simpl.
  - rewrite Ht. reflexivity.
  - rewrite Ht. inversion Hall; subst. apply IH; assumption.
Qed.

End NextIdProgress.

(** X1.  [nextId] returns an identifier as soon as a reading of the clock
    that is still to come lies past [lastTimestamp], and it never throws. *)
Theorem nextId_returns_when_clock_advances :
  forall (g : SnowflakeIdGenerator.Generator) (readings : list Z),
    Exists (fun t => SnowflakeIdGenerator.time_value
                       (SnowflakeIdGenerator.lastTimestamp g) < t) readings ->
    (exists id w',
        SnowflakeIdGenerator.nextId
          {| SnowflakeIdGenerator.this := g; SnowflakeIdGenerator.clock := readings |}
        = Some (Ok id, w')) /\
    (forall e w',
        SnowflakeIdGenerator.nextId
          {| SnowflakeIdGenerator.this := g; SnowflakeIdGenerator.clock := readings |}
        <> Some (Throw e, w')).
Proof.
  intros g readings H. split.
  - apply nextId_returns. exact H.
  - intros e w'. apply nextId_does_not_throw.
Qed.

Lemma nextId_returns_when_clock_advances_example :
  (exists id w',
      SnowflakeIdGenerator.nextId (example_world [1704067199999; 1704067200007])
      = Some (Ok id, w')) /\
  (forall e w',
      SnowflakeIdGenerator.nextId (example_world [1704067199999; 1704067200007])
      <> Some (Throw e, w')).
Proof.
  apply (nextId_returns_when_clock_advances example_generator
           [1704067199999; 1704067200007]).
  apply Exists_cons_tl. apply Exists_cons_hd. vm_compute. reflexivity.
Defined.

(** X2.  [nextId] does not return while the clock is behind
    [lastTimestamp]: with every reading before it, the first loop polls for
    ever, and no identifier and no error comes out. *)
Theorem nextId_waits_for_the_clock :
  forall (g : SnowflakeIdGenerator.Generator) (readings : list Z),
    Forall (fun t => t < SnowflakeIdGenerator.time_value
                          (SnowflakeIdGenerator.lastTimestamp g)) readings ->
    SnowflakeIdGenerator.nextId
      {| SnowflakeIdGenerator.this := g; SnowflakeIdGenerator.clock := readings |}
    = None.
Proof.
  intros g readings H.
  unfold SnowflakeIdGenerator.nextId, SnowflakeIdGenerator.bind,
    SnowflakeIdGenerator.Date_now, SnowflakeIdGenerator.while_polling.
  simpl. destruct readings as [|t0 readings]; [reflexivity|]. simpl.
  inversion H as [|? ? Ht0 Hrest]; subst.
  rewrite poll_while_blocks; [reflexivity| |].
  - apply Z.ltb_lt. exact Ht0.
  - eapply Forall_impl; [|exact Hrest]. intros t Ht. apply Z.ltb_lt. exact Ht.
Qed.

Lemma nextId_waits_for_the_clock_example :
  SnowflakeIdGenerator.nextId (example_world [1704067199998; 1704067199999]) = None.
Proof.
  apply (nextId_waits_for_the_clock example_generator [1704067199998; 1704067199999]).
  repeat constructor.
Defined.

(** ** Identifiers of one millisecond *)

Section IssuedValues.
Import SnowflakeIdGenerator.

Lemma StronglySorted_filter (f : Z -> bool) (l : list Z) :
  StronglySorted Z.lt l -> StronglySorted Z.lt (filter f l).
Proof.
  induction 1 as [|x l Hl IH Hx]; simpl; [constructor|].
  destruct (f x); [|exact IH].
  constructor; [exact IH|].
  rewrite Forall_forall in *. intros y Hy.
  apply filter_In in Hy. apply Hx. tauto.
Qed.

(** Increasing integers of an interval are no more than the interval holds. *)
Lemma sorted_interval_length (l : list Z) :
  forall a b : Z,
    StronglySorted Z.lt l -> Forall (fun z => a <= z < b) l ->
    Z.of_nat (List.length l) <= Z.max 0 (b - a).
Proof.
  induction l as [|x l IH]; intros a b Hs Hall.
  - simpl. lia.
  - inversion Hs as [|? ? Hs' Hx]; subst. inversion Hall as [|? ? Hab Hall']; subst.
    assert (Hl : Forall (fun z => x + 1 <= z < b) l).
    { rewrite Forall_forall in *. intros y Hy.
      specialize (Hx y Hy). specialize (Hall' y Hy). lia. }
    specialize (IH (x + 1) b Hs' Hl).
    change (List.length (x :: l)) with (S (List.length l)). lia.
Qed.

Lemma id_value_timestamp_field (g : Generator) (ts seq : Z) :
  valid_configuration g = true -> 0 <= seq <= maxSequence g ->
  timestamp_field g (id_value g ts seq) = ts - EPOCH g.
Proof.
  intros Hg Hseq.
  destruct (valid_configuration_spec g Hg) as (Hmb & Hsb & _ & _ & HmaxS & Hm).
  unfold timestamp_field, id_value. apply field_high; lia.
Qed.

(** What [nextIds] returns from a state left by [nextId]. *)
Lemma nextIds_values_issued (n : nat) :
  forall (g : Generator) (readings : list Z) (v : Z) (ids : list string) (w' : World),
    valid_configuration g = true ->
    lastTimestamp g = AsBigInt v ->
    0 <= sequence g <= maxSequence g ->
    nextIds n {| this := g; clock := readings |} = Some (Ok ids, w') ->
    exists zs,
      ids = map BigInt_toString zs /\
      StronglySorted Z.lt zs /\
      Forall (fun z => id_value g v (sequence g) < z /\
                       exists ts seq, z = id_value g ts seq /\
                                      0 <= seq <= maxSequence g) zs.
Proof.
  induction n as [|k IH]; intros g readings v ids w' Hg Hlast Hseq Hrun.
  - simpl in Hrun. unfold ret in Hrun. injection Hrun as <- _.
    exists []. repeat split; constructor.
  - destruct (nextIds_step _ _ _ _ Hrun) as (id & w1 & rest & Hid & Hrest & ->).
    destruct (nextId_advances g Hg _ _ _ Hid)
      as (ts & seq & -> & Hw1 & _ & _ & _ & Hseq' & Hlt).
    specialize (Hlt v Hlast Hseq).
    destruct w1 as [g1 clock1]. simpl in Hw1. subst g1.
    set (g1 := with_lastTimestamp (AsBigInt ts) (with_sequence seq g)) in *.
    assert (Hg1 : valid_configuration g1 = true)
      by (unfold g1; rewrite valid_configuration_update; exact Hg).
    destruct (IH g1 clock1 ts rest w' Hg1 eq_refl Hseq' Hrest)
      as (zs & -> & Hsorted & Hall).
    exists (id_value g ts seq :: zs).
    split; [reflexivity|]. split.
    + constructor; [exact Hsorted|].
      eapply Forall_impl; [|exact Hall]. intros z [Hz _]. exact Hz.
    + constructor.
      * split; [exact Hlt|]. exists ts, seq. split; [reflexivity|exact Hseq'].
      * eapply Forall_impl; [|exact Hall].
        intros z [Hz (ts' & seq' & Hz' & Hs')]. split.
        -- change (id_value g1 ts (sequence g1)) with (id_value g ts seq) in Hz. lia.
        -- exists ts', seq'. split; [exact Hz'|exact Hs'].
Qed.

(** The same from any state: the numbers behind the returned strings rise and
    each is composed of a timestamp, the machine id and a sequence number. *)
Lemma nextIds_values (n : nat) (g : Generator) (readings : list Z)
      (ids : list string) (w' : World) :
  valid_configuration g = true ->
  nextIds n {| this := g; clock := readings |} = Some (Ok ids, w') ->
  exists zs,
    ids = map BigInt_toString zs /\
    StronglySorted Z.lt zs /\
    Forall (fun z => exists ts seq, z = id_value g ts seq /\
                                    0 <= seq <= maxSequence g) zs.
Proof.
  intros Hg Hrun. destruct n as [|k].
  - simpl in Hrun. unfold ret in Hrun. injection Hrun as <- _.
    exists []. repeat split; constructor.
  - destruct (nextIds_step _ _ _ _ Hrun) as (id & w1 & rest & Hid & Hrest & ->).
    destruct (nextId_advances g Hg _ _ _ Hid)
      as (ts & seq & -> & Hw1 & _ & _ & _ & Hseq' & _).
    destruct w1 as [g1 clock1]. simpl in Hw1. subst g1.
    set (g1 := with_lastTimestamp (AsBigInt ts) (with_sequence seq g)) in *.
    assert (Hg1 : valid_configuration g1 = true)
      by (unfold g1; rewrite valid_configuration_update; exact Hg).
    destruct (nextIds_values_issued k g1 clock1 ts rest w' Hg1 eq_refl Hseq' Hrest)
      as (zs & -> & Hsorted & Hall).
    exists (id_value g ts seq :: zs).
    split; [reflexivity|]. split.
    + constructor; [exact Hsorted|].
      eapply Forall_impl; [|exact Hall]. intros z [Hz _]. exact Hz.
    + constructor.
      * exists ts, seq. split; [reflexivity|exact Hseq'].
      * eapply Forall_impl; [|exact Hall]. intros z [_ Hz]. exact Hz.
Qed.

Lemma map_StringToBigInt_toString (zs : list Z) :
  map StringToBigInt (map BigInt_toString zs) = map Some zs.
Proof.
  induction zs as [|z zs IH]; simpl; [reflexivity|].
  rewrite StringToBigInt_toString, IH. reflexivity.
Qed.

End IssuedValues.

(** X3.  However fast [nextId] is called and whatever the clock reads, the
    identifiers of a run of calls rise strictly as integers and no more than
    [2 ^ sequenceBits] of them carry the same timestamp field: when the
    sequence numbers of a millisecond are used up the call waits for the next
    one. *)
Theorem nextId_rate_bound :
  forall (n : nat) (g : SnowflakeIdGenerator.Generator) (readings : list Z)
         (ids : list string) (w' : SnowflakeIdGenerator.World) (t : Z),
    valid_configuration g = true ->
    nextIds n {| SnowflakeIdGenerator.this := g;
                 SnowflakeIdGenerator.clock := readings |} = Some (Ok ids, w') ->
    exists zs,
      map StringToBigInt ids = map Some zs /\
      StronglySorted Z.lt zs /\
      Z.of_nat (issued_at g t zs) <= 2 ^ SnowflakeIdGenerator.sequenceBits g.
Proof.
  intros n g readings ids w' t Hg Hrun.
  destruct (nextIds_values n g readings ids w' Hg Hrun) as (zs & -> & Hsorted & Hall).
  exists zs. split; [apply map_StringToBigInt_toString|]. split; [exact Hsorted|].
  destruct (valid_configuration_spec g Hg) as (Hmb & Hsb & _ & _ & HmaxS & Hm).
  assert (Hpos : 0 < 2 ^ SnowflakeIdGenerator.sequenceBits g) by pow_pos.
  set (a := t * 2 ^ (SnowflakeIdGenerator.machineIdBits g
                     + SnowflakeIdGenerator.sequenceBits g)
            + SnowflakeIdGenerator.machineId g
              * 2 ^ SnowflakeIdGenerator.sequenceBits g).
  unfold issued_at.
  replace (2 ^ SnowflakeIdGenerator.sequenceBits g)
    with (Z.max 0 (a + 2 ^ SnowflakeIdGenerator.sequenceBits g - a)) by lia.
  apply sorted_interval_length.
  - apply StronglySorted_filter. exact Hsorted.
  - rewrite Forall_forall in *. intros z Hz.
    apply filter_In in Hz. destruct Hz as [Hin Ht].
    destruct (Hall z Hin) as (ts & seq & -> & Hseq).
    apply Z.eqb_eq in Ht.
    rewrite id_value_timestamp_field in Ht by assumption.
    unfold id_value, a. rewrite Ht. lia.
Qed.

Lemma nextId_rate_bound_example :
  exists zs,
    map StringToBigInt ["20480"; "20481"; "4214784"] = map Some zs /\
    StronglySorted Z.lt zs /\
    Z.of_nat (issued_at example_generator 0 zs) <= 2 ^ 12.
Proof.
  apply (nextId_rate_bound 3 example_generator
           [1704067200000; 1704067200000; 1704067200001]
           ["20480"; "20481"; "4214784"]
           (SnowflakeIdGenerator.Build_World
              (SnowflakeIdGenerator.with_lastTimestamp
                 (SnowflakeIdGenerator.AsBigInt 1704067200001)
                 (SnowflakeIdGenerator.with_sequence 0 example_generator)) [])
           0).
  - vm_compute. reflexivity.
  - vm_compute. reflexivity.
Defined.

(** ** The state behind an identifier, and the boundaries around it *)

Section IssuedState.
Import SnowflakeIdGenerator.

Variable g : Generator.
Hypothesis valid : valid_configuration g = true.

Lemma boundary_span :
  maxMachineId g * 2 ^ sequenceBits g + maxSequence g
  = 2 ^ (machineIdBits g + sequenceBits g) - 1.
Proof.
  destruct (valid_configuration_spec g valid) as (Hmb & Hsb & _ & -> & -> & _).
  rewrite Z.pow_add_r by lia. ring.
Qed.

Lemma first_boundary_value (v : JsValue) (T : Z) (readings : list Z) :
  timestamp_value v = Some T -> EPOCH g <= T ->
  returned_value (getFirstIdAtTimestamp v) {| this := g; clock := readings |}
  = Some ((T - EPOCH g) * 2 ^ (machineIdBits g + sequenceBits g)).
Proof.
  intros Hv HT.
  destruct (valid_configuration_spec g valid) as (Hmb & Hsb & _).
  unfold returned_value. rewrite getFirstIdAtTimestamp_run.
  rewrite (timestamp_value_BigInt v T Hv). simpl.
  destruct (T <? EPOCH g) eqn:E; [apply Z.ltb_lt in E; lia|].
  rewrite Z.shiftl_mul_pow2 by lia.
  apply as_unsigned_toString.
  apply Z.mul_nonneg_nonneg; [lia|]. apply Z.pow_nonneg. lia.
Qed.

Lemma last_boundary_value (v : JsValue) (T : Z) (readings : list Z) :
  timestamp_value v = Some T -> EPOCH g <= T ->
  returned_value (getLastIdAtTimestamp v) {| this := g; clock := readings |}
  = Some ((T - EPOCH g) * 2 ^ (machineIdBits g + sequenceBits g)
          + (2 ^ (machineIdBits g + sequenceBits g) - 1)).
Proof.
  intros Hv HT.
  destruct (valid_configuration_spec g valid) as (Hmb & Hsb & _).
  unfold returned_value. rewrite getLastIdAtTimestamp_run.
  rewrite (timestamp_value_BigInt v T Hv). simpl.
  destruct (T <? EPOCH g) eqn:E; [apply Z.ltb_lt in E; lia|].
  rewrite (last_id_value g valid), <- Z.add_assoc, boundary_span.
  apply as_unsigned_toString.
  assert (0 < 2 ^ (machineIdBits g + sequenceBits g)) by pow_pos.
  assert (0 <= (T - EPOCH g) * 2 ^ (machineIdBits g + sequenceBits g))
    by (apply Z.mul_nonneg_nonneg; lia).
  lia.
Qed.

End IssuedState.

(** X4.  [nextId] keeps the instance in order: starting with [lastTimestamp]
    not before the epoch and [sequence] inside its field, the same holds
    after the call, the configuration is as before, and [lastTimestamp] has
    not gone back. *)
Theorem nextId_keeps_valid_state :
  forall (g : SnowflakeIdGenerator.Generator) (readings : list Z) (id : string)
         (w' : SnowflakeIdGenerator.World),
    valid_configuration g = true ->
    valid_state g ->
    SnowflakeIdGenerator.nextId
      {| SnowflakeIdGenerator.this := g; SnowflakeIdGenerator.clock := readings |}
    = Some (Ok id, w') ->
    valid_configuration (SnowflakeIdGenerator.this w') = true /\
    valid_state (SnowflakeIdGenerator.this w') /\
    SnowflakeIdGenerator.time_value (SnowflakeIdGenerator.lastTimestamp g)
    <= SnowflakeIdGenerator.time_value
         (SnowflakeIdGenerator.lastTimestamp (SnowflakeIdGenerator.this w')).
Proof.
  intros g readings id w' Hg [Hlast _] Hrun.
  destruct (nextId_advances g Hg _ _ _ Hrun)
    as (ts & seq & _ & Hw & _ & _ & Hts & Hseq & _).
  rewrite Hw. split; [|split].
  - rewrite valid_configuration_update. exact Hg.
  - unfold valid_state. simpl. split; [lia|exact Hseq].
  - simpl. exact Hts.
Qed.

Lemma nextId_keeps_valid_state_example :
  let w' := SnowflakeIdGenerator.Build_World
              (SnowflakeIdGenerator.with_lastTimestamp
                 (SnowflakeIdGenerator.AsBigInt 1704067200007)
                 (SnowflakeIdGenerator.with_sequence 0 example_generator)) [] in
  valid_configuration (SnowflakeIdGenerator.this w') = true /\
  valid_state (SnowflakeIdGenerator.this w') /\
  SnowflakeIdGenerator.time_value (SnowflakeIdGenerator.lastTimestamp example_generator)
  <= SnowflakeIdGenerator.time_value
       (SnowflakeIdGenerator.lastTimestamp (SnowflakeIdGenerator.this w')).
Proof.
  intro w'.
  apply (nextId_keeps_valid_state example_generator [1704067200007] "29380608" w').
  - reflexivity.
  - split; simpl; lia.
  - vm_compute. reflexivity.
Defined.

(** X5.  Decoding an identifier that [nextId] has just returned gives back
    what the instance stored: the millisecond read from the clock (now
    [lastTimestamp]), the machine id and the sequence number (now
    [sequence]); this for clock readings a Date can hold. *)
Theorem nextId_decodes_to_state :
  forall (g : SnowflakeIdGenerator.Generator) (readings : list Z) (id : string)
         (w' : SnowflakeIdGenerator.World),
    valid_configuration g = true ->
    Forall (fun t => Z.abs t <= maxTimeValue) readings ->
    SnowflakeIdGenerator.nextId
      {| SnowflakeIdGenerator.this := g; SnowflakeIdGenerator.clock := readings |}
    = Some (Ok id, w') ->
    exists ts : Z,
      In ts readings /\
      SnowflakeIdGenerator.lastTimestamp (SnowflakeIdGenerator.this w')
      = SnowflakeIdGenerator.AsBigInt ts /\
      SnowflakeIdGenerator.parseId id w'
      = Some (Ok {| Parsed.timestamp := Some ts;
                    Parsed.machineId :=
                      NumInt (SnowflakeIdGenerator.machineId g);
                    Parsed.sequence :=
                      NumInt (SnowflakeIdGenerator.sequence
                                (SnowflakeIdGenerator.this w')) |}, w').
Proof.
  intros g readings id w' Hg Hclock Hrun.
  destruct (nextId_advances g Hg _ _ _ Hrun)
    as (ts & seq & -> & Hw & Hin & _ & _ & Hseq & _).
  exists ts. split; [exact Hin|].
  destruct w' as [g' clock']. simpl in Hw. subst g'. split; [reflexivity|].
  set (g' := SnowflakeIdGenerator.with_lastTimestamp _ _).
  assert (Hg' : valid_configuration g' = true)
    by (unfold g'; rewrite valid_configuration_update; exact Hg).
  destruct (valid_configuration_spec g Hg) as (_ & _ & _ & HmaxM & _ & Hm).
  change (id_value g ts seq)
    with ((ts - SnowflakeIdGenerator.EPOCH g')
          * 2 ^ (SnowflakeIdGenerator.machineIdBits g'
                 + SnowflakeIdGenerator.sequenceBits g')
          + SnowflakeIdGenerator.machineId g
            * 2 ^ SnowflakeIdGenerator.sequenceBits g' + seq).
  rewrite (parseId_composed g' clock' _ _ _ Hg') by (simpl; lia).
  replace (ts - SnowflakeIdGenerator.EPOCH g' + SnowflakeIdGenerator.EPOCH g')
    with ts by lia.
  rewrite Date_of_time_value; [reflexivity|].
  rewrite Forall_forall in Hclock. apply Hclock. exact Hin.
Qed.

Lemma nextId_decodes_to_state_example :
  let w' := SnowflakeIdGenerator.Build_World
              (SnowflakeIdGenerator.with_lastTimestamp
                 (SnowflakeIdGenerator.AsBigInt 1704067200007)
                 (SnowflakeIdGenerator.with_sequence 0 example_generator)) [] in
  exists ts : Z,
    In ts [1704067200007] /\
    SnowflakeIdGenerator.lastTimestamp (SnowflakeIdGenerator.this w')
    = SnowflakeIdGenerator.AsBigInt ts /\
    SnowflakeIdGenerator.parseId "29380608" w'
    = Some (Ok {| Parsed.timestamp := Some ts;
                  Parsed.machineId :=
                    NumInt (SnowflakeIdGenerator.machineId example_generator);
                  Parsed.sequence :=
                    NumInt (SnowflakeIdGenerator.sequence
                              (SnowflakeIdGenerator.this w')) |}, w').
Proof.
  intro w'.
  apply (nextId_decodes_to_state example_generator [1704067200007] "29380608" w').
  - reflexivity.
  - repeat constructor. vm_compute. discriminate.
  - vm_compute. reflexivity.
Defined.

(** X6.  An identifier that [nextId] returns lies between the two
    boundaries of the millisecond it was issued in:
    [getFirstIdAtTimestamp] and [getLastIdAtTimestamp] of the new
    [lastTimestamp] enclose it, so a range query by those two finds it. *)
Theorem nextId_between_boundaries :
  forall (g : SnowflakeIdGenerator.Generator) (readings : list Z) (id : string)
         (w' : SnowflakeIdGenerator.World),
    valid_configuration g = true ->
    SnowflakeIdGenerator.EPOCH g
    <= SnowflakeIdGenerator.time_value (SnowflakeIdGenerator.lastTimestamp g) ->
    SnowflakeIdGenerator.nextId
      {| SnowflakeIdGenerator.this := g; SnowflakeIdGenerator.clock := readings |}
    = Some (Ok id, w') ->
    exists ts z first last : Z,
      SnowflakeIdGenerator.lastTimestamp (SnowflakeIdGenerator.this w')
      = SnowflakeIdGenerator.AsBigInt ts /\
      as_unsigned id = Some z /\
      returned_value
        (SnowflakeIdGenerator.getFirstIdAtTimestamp (VNumber (NumInt ts))) w'
      = Some first /\
      returned_value
        (SnowflakeIdGenerator.getLastIdAtTimestamp (VNumber (NumInt ts))) w'
      = Some last /\
      first <= z <= last.
Proof.
  intros g readings id w' Hg Hlast Hrun.
  destruct (nextId_advances g Hg _ _ _ Hrun)
    as (ts & seq & -> & Hw & _ & _ & Hts & Hseq & _).
  destruct w' as [g' clock']. simpl in Hw. subst g'.
  set (g' := SnowflakeIdGenerator.with_lastTimestamp _ _).
  assert (Hg' : valid_configuration g' = true)
    by (unfold g'; rewrite valid_configuration_update; exact Hg).
  destruct (valid_configuration_spec g Hg) as (Hmb & Hsb & _ & HmaxM & HmaxS & Hm).
  assert (Hp : 0 < 2 ^ SnowflakeIdGenerator.sequenceBits g) by pow_pos.
  pose proof (boundary_span g Hg) as Hspan.
  exists ts, (id_value g ts seq). eexists. eexists.
  split; [reflexivity|]. split.
  - apply as_unsigned_toString. apply id_value_nonneg; [exact Hg|lia|lia].
  - split; [apply (first_boundary_value g' Hg' _ ts); [reflexivity|simpl; lia]|].
    split; [apply (last_boundary_value g' Hg' _ ts); [reflexivity|simpl; lia]|].
    unfold id_value. simpl.
    assert (0 <= SnowflakeIdGenerator.machineId g
                 * 2 ^ SnowflakeIdGenerator.sequenceBits g) by nia.
    assert (SnowflakeIdGenerator.machineId g
            * 2 ^ SnowflakeIdGenerator.sequenceBits g
            <= SnowflakeIdGenerator.maxMachineId g
               * 2 ^ SnowflakeIdGenerator.sequenceBits g) by nia.
    lia.
Qed.

Lemma nextId_between_boundaries_example :
  let w' := SnowflakeIdGenerator.Build_World
              (SnowflakeIdGenerator.with_lastTimestamp
                 (SnowflakeIdGenerator.AsBigInt 1704067200007)
                 (SnowflakeIdGenerator.with_sequence 0 example_generator)) [] in
  exists ts z first last : Z,
    SnowflakeIdGenerator.lastTimestamp (SnowflakeIdGenerator.this w')
    = SnowflakeIdGenerator.AsBigInt ts /\
    as_unsigned "29380608" = Some z /\
    returned_value
      (SnowflakeIdGenerator.getFirstIdAtTimestamp (VNumber (NumInt ts))) w'
    = Some first /\
    returned_value
      (SnowflakeIdGenerator.getLastIdAtTimestamp (VNumber (NumInt ts))) w'
    = Some last /\
    first <= z <= last.
Proof.
  intro w'.
  apply (nextId_between_boundaries example_generator [1704067200007] "29380608" w').
  - reflexivity.
  - simpl. lia.
  - vm_compute. reflexivity.
Defined.

(** X7.  The boundaries tile the identifiers: for a timestamp [T] at or
    after the epoch the last identifier of [T] is the first one plus
    [2 ^ 22 - 1], and the first identifier of [T + 1] is the last of [T]
    plus one, so every non-negative identifier below the first of [T + 1]
    belongs to one millisecond. *)
Theorem boundaries_are_adjacent :
  forall (g : SnowflakeIdGenerator.Generator) (readings : list Z)
         (v v' : JsValue) (T : Z),
    valid_configuration g = true ->
    timestamp_value v = Some T -> timestamp_value v' = Some (T + 1) ->
    SnowflakeIdGenerator.EPOCH g <= T ->
    let w := {| SnowflakeIdGenerator.this := g;
                SnowflakeIdGenerator.clock := readings |} in
    exists first last : Z,
      returned_value (SnowflakeIdGenerator.getFirstIdAtTimestamp v) w = Some first /\
      returned_value (SnowflakeIdGenerator.getLastIdAtTimestamp v) w = Some last /\
      last = first + (2 ^ 22 - 1) /\
      returned_value (SnowflakeIdGenerator.getFirstIdAtTimestamp v') w
      = Some (last + 1).
Proof.
  intros g readings v v' T Hg Hv Hv' HT w.
  destruct (valid_configuration_spec g Hg) as (_ & _ & Hsum & _).
  unfold w.
  rewrite (first_boundary_value g Hg v T) by assumption.
  rewrite (last_boundary_value g Hg v T) by assumption.
  rewrite (first_boundary_value g Hg v' (T + 1)) by (assumption || lia).
  rewrite Hsum.
  eexists. eexists. split; [reflexivity|]. split; [reflexivity|].
  split; [reflexivity|]. f_equal. ring.
Qed.

Lemma boundaries_are_adjacent_example :
  exists first last : Z,
    returned_value
      (SnowflakeIdGenerator.getFirstIdAtTimestamp (VNumber (NumInt 1704067200001)))
      (example_world []) = Some first /\
    returned_value
      (SnowflakeIdGenerator.getLastIdAtTimestamp (VNumber (NumInt 1704067200001)))
      (example_world []) = Some last /\
    last = first + (2 ^ 22 - 1) /\
    returned_value
      (SnowflakeIdGenerator.getFirstIdAtTimestamp (VDate (Some 1704067200002)))
      (example_world []) = Some (last + 1).
Proof.
  apply (boundaries_are_adjacent example_generator []
           (VNumber (NumInt 1704067200001)) (VDate (Some 1704067200002))
           1704067200001).
  - reflexivity.
  - reflexivity.
  - reflexivity.
  - simpl. lia.
Defined.

(** ** Decoding *)

Section Fields.
Import SnowflakeIdGenerator.

(** An integer is the sum of its three fields. *)
Lemma fields_recompose (z mb sb : Z) :
  0 <= mb -> 0 <= sb ->
  z = Z.shiftr z (mb + sb) * 2 ^ (mb + sb)
      + Z.land (Z.shiftr z sb) (2 ^ mb - 1) * 2 ^ sb
      + Z.land z (2 ^ sb - 1).
Proof.
  intros Hmb Hsb.
  assert (Hp : 0 < 2 ^ sb) by pow_pos. assert (Hq : 0 < 2 ^ mb) by pow_pos.
  replace (2 ^ mb - 1) with (Z.ones mb) by (rewrite Z.ones_equiv; lia).
  replace (2 ^ sb - 1) with (Z.ones sb) by (rewrite Z.ones_equiv; lia).
  rewrite !Z.land_ones by assumption.
  rewrite (Z.add_comm mb sb), <- Z.shiftr_shiftr by assumption.
  rewrite (Z.shiftr_div_pow2 (Z.shiftr z sb)) by assumption.
  rewrite (Z.shiftr_div_pow2 z sb) by assumption.
  rewrite Z.pow_add_r by assumption.
  pose proof (Z.div_mod z (2 ^ sb)) as H1.
  pose proof (Z.div_mod (z / 2 ^ sb) (2 ^ mb)) as H2.
  nia.
Qed.

Lemma id_value_machineId (g : Generator) (ts seq : Z) :
  valid_configuration g = true -> 0 <= seq <= maxSequence g ->
  Z.land (Z.shiftr (id_value g ts seq) (sequenceBits g)) (2 ^ machineIdBits g - 1)
  = machineId g.
Proof.
  intros Hg Hseq.
  destruct (valid_configuration_spec g Hg) as (Hmb & Hsb & _ & _ & HmaxS & Hm).
  unfold id_value. apply field_middle; lia.
Qed.

End Fields.

(** X8.  Whatever string [parseId] accepts, also one no instance has issued,
    the machine id it returns lies in [0, maxMachineId], the sequence in
    [0, maxSequence], and together with the timestamp field they make up the
    integer that was read: the decoding loses nothing. *)
Theorem parseId_fields_in_range :
  forall (g : SnowflakeIdGenerator.Generator) (readings : list Z) (id : string)
         (p : Parsed.t) (w' : SnowflakeIdGenerator.World),
    valid_configuration g = true ->
    SnowflakeIdGenerator.parseId id
      {| SnowflakeIdGenerator.this := g; SnowflakeIdGenerator.clock := readings |}
    = Some (Ok p, w') ->
    exists z m s : Z,
      StringToBigInt id = Some z /\
      Parsed.machineId p = NumInt m /\
      0 <= m <= SnowflakeIdGenerator.maxMachineId g /\
      Parsed.sequence p = NumInt s /\
      0 <= s <= SnowflakeIdGenerator.maxSequence g /\
      z = timestamp_field g z
          * 2 ^ (SnowflakeIdGenerator.machineIdBits g
                 + SnowflakeIdGenerator.sequenceBits g)
          + m * 2 ^ SnowflakeIdGenerator.sequenceBits g + s.
Proof.
  intros g readings id p w' Hg Hrun.
  destruct (valid_configuration_spec g Hg) as (Hmb & Hsb & Hsum & HmaxM & HmaxS & _).
  rewrite parseId_run in Hrun. simpl in Hrun.
  destruct (StringToBigInt id) as [z|]; [|discriminate].
  injection Hrun as <- _. simpl.
  pose proof (land_mask_range (Z.shiftr z (SnowflakeIdGenerator.sequenceBits g))
                (SnowflakeIdGenerator.machineIdBits g) (Z.lt_le_incl _ _ Hmb)) as Hm.
  pose proof (land_mask_range z (SnowflakeIdGenerator.sequenceBits g)
                (Z.lt_le_incl _ _ Hsb)) as Hs.
  rewrite HmaxM, HmaxS.
  exists z. eexists. eexists. split; [reflexivity|].
  split; [apply (field_Number _ (SnowflakeIdGenerator.machineIdBits g)); lia|].
  split; [exact Hm|].
  split; [apply (field_Number _ (SnowflakeIdGenerator.sequenceBits g)); lia|].
  split; [exact Hs|].
  unfold timestamp_field. apply fields_recompose; lia.
Qed.

Lemma parseId_fields_in_range_example :
  exists z m s : Z,
    StringToBigInt "-5" = Some z /\
    NumInt 1023 = NumInt m /\ 0 <= m <= 1023 /\
    NumInt 4091 = NumInt s /\ 0 <= s <= 4095 /\
    z = timestamp_field example_generator z * 2 ^ (10 + 12) + m * 2 ^ 12 + s.
Proof.
  apply (parseId_fields_in_range example_generator [] "-5"
           {| Parsed.timestamp := Some 1704067199999;
              Parsed.machineId := NumInt 1023;
              Parsed.sequence := NumInt 4091 |}
           (example_world [])).
  - reflexivity.
  - vm_compute. reflexivity.
Defined.

(** X9.  An identifier composed on one instance is decoded by any instance
    with the same field widths and epoch, whatever its own machine id: it
    reads back the timestamp (one a Date can hold), the machine id of the
    issuer and the sequence number. *)
Theorem parseId_decodes_other_instance :
  forall (g h : SnowflakeIdGenerator.Generator) (readings : list Z) (ts seq : Z),
    valid_configuration g = true ->
    valid_configuration h = true ->
    SnowflakeIdGenerator.machineIdBits h = SnowflakeIdGenerator.machineIdBits g ->
    SnowflakeIdGenerator.EPOCH h = SnowflakeIdGenerator.EPOCH g ->
    0 <= seq <= SnowflakeIdGenerator.maxSequence g ->
    Z.abs ts <= maxTimeValue ->
    let w := {| SnowflakeIdGenerator.this := h;
                SnowflakeIdGenerator.clock := readings |} in
    SnowflakeIdGenerator.parseId (BigInt_toString (compose_id g ts seq)) w
    = Some (Ok {| Parsed.timestamp := Some ts;
                  Parsed.machineId := NumInt (SnowflakeIdGenerator.machineId g);
                  Parsed.sequence := NumInt seq |}, w).
Proof.
  intros g h readings ts seq Hg Hh Hmb HE Hseq Hts w.
  destruct (valid_configuration_spec g Hg) as (_ & _ & Hsum & _ & HmaxS & Hm).
  destruct (valid_configuration_spec h Hh) as (_ & _ & Hsum' & HmaxM' & HmaxS' & _).
  assert (Hsb : SnowflakeIdGenerator.sequenceBits h
                = SnowflakeIdGenerator.sequenceBits g) by lia.
  assert (H1 : 0 <= SnowflakeIdGenerator.machineId g
                <= SnowflakeIdGenerator.maxMachineId h)
    by (rewrite HmaxM', Hmb; lia).
  assert (H2 : 0 <= seq <= SnowflakeIdGenerator.maxSequence h)
    by (rewrite HmaxS', Hsb; lia).
  rewrite (compose_id_value g Hg) by exact Hseq.
  unfold id_value, w. rewrite <- Hmb, <- Hsb, <- HE.
  rewrite (parseId_composed h readings _ _ _ Hh H1 H2).
  replace (ts - SnowflakeIdGenerator.EPOCH h + SnowflakeIdGenerator.EPOCH h)
    with ts by lia.
  rewrite Date_of_time_value by exact Hts. reflexivity.
Qed.

Lemma parseId_decodes_other_instance_example :
  let h := other_generator in
  SnowflakeIdGenerator.parseId
    (BigInt_toString (compose_id example_generator 1704067200007 3))
    {| SnowflakeIdGenerator.this := h; SnowflakeIdGenerator.clock := [] |}
  = Some (Ok {| Parsed.timestamp := Some 1704067200007;
                Parsed.machineId := NumInt 5;
                Parsed.sequence := NumInt 3 |},
          {| SnowflakeIdGenerator.this := h; SnowflakeIdGenerator.clock := [] |}).
Proof.
  intro h.
  apply (parseId_decodes_other_instance example_generator h [] 1704067200007 3).
  - reflexivity.
  - reflexivity.
  - reflexivity.
  - reflexivity.
  - simpl. lia.
  - vm_compute. discriminate.
Defined.

(** X10.  Two instances with the same field widths and different machine
    ids never return the same identifier, whatever their clocks, epochs and
    states. *)
Theorem nextId_distinct_across_machines :
  forall (g h : SnowflakeIdGenerator.Generator) (readings readings' : list Z)
         (id id' : string) (w w' : SnowflakeIdGenerator.World),
    valid_configuration g = true ->
    valid_configuration h = true ->
    SnowflakeIdGenerator.machineIdBits h = SnowflakeIdGenerator.machineIdBits g ->
    SnowflakeIdGenerator.machineId h <> SnowflakeIdGenerator.machineId g ->
    SnowflakeIdGenerator.nextId
      {| SnowflakeIdGenerator.this := g; SnowflakeIdGenerator.clock := readings |}
    = Some (Ok id, w) ->
    SnowflakeIdGenerator.nextId
      {| SnowflakeIdGenerator.this := h; SnowflakeIdGenerator.clock := readings' |}
    = Some (Ok id', w') ->
    id <> id'.
Proof.
  intros g h readings readings' id id' w w' Hg Hh Hmb Hne Hrun Hrun' Heq.
  destruct (nextId_advances g Hg _ _ _ Hrun) as (ts & seq & -> & _ & _ & _ & _ & Hseq & _).
  destruct (nextId_advances h Hh _ _ _ Hrun')
    as (ts' & seq' & -> & _ & _ & _ & _ & Hseq' & _).
  apply (f_equal StringToBigInt) in Heq.
  rewrite !StringToBigInt_toString in Heq. injection Heq as Heq.
  destruct (valid_configuration_spec g Hg) as (_ & _ & Hsum & _).
  destruct (valid_configuration_spec h Hh) as (_ & _ & Hsum' & _).
  apply Hne.
  rewrite <- (id_value_machineId h ts' seq' Hh Hseq').
  rewrite <- (id_value_machineId g ts seq Hg Hseq).
  rewrite Heq, Hmb. replace (SnowflakeIdGenerator.sequenceBits h)
    with (SnowflakeIdGenerator.sequenceBits g) by lia.
  reflexivity.
Qed.

Lemma nextId_distinct_across_machines_example :
  "29380608"%string <> "29384704"%string.
Proof.
  apply (nextId_distinct_across_machines
           example_generator
           other_generator
           [1704067200007] [1704067200007] "29380608" "29384704"
           (SnowflakeIdGenerator.Build_World
              (SnowflakeIdGenerator.with_lastTimestamp
                 (SnowflakeIdGenerator.AsBigInt 1704067200007)
                 (SnowflakeIdGenerator.with_sequence 0 example_generator)) [])
           (SnowflakeIdGenerator.Build_World
              (SnowflakeIdGenerator.with_lastTimestamp
                 (SnowflakeIdGenerator.AsBigInt 1704067200007)
                 (SnowflakeIdGenerator.with_sequence 0
                    other_generator)) [])).
  - reflexivity.
  - reflexivity.
  - reflexivity.
  - simpl. lia.
  - vm_compute. reflexivity.
  - vm_compute. reflexivity.
Defined.

(** ** [waitNextMillis] *)

Section Waiting.
Import SnowflakeIdGenerator.


End Waiting.



(** ** [generateMachineId] *)

Section MachineIdOfHost.
Import SnowflakeIdGenerator.

Lemma scan_without_external (interfaces : NetworkInterfaces) :
  forall macAddress,
    Forall no_external_IPv4 interfaces ->
    scan_interfaces interfaces macAddress = macAddress.
Proof.
  induction interfaces as [|values interfaces IH]; intros macAddress Hall;
    [reflexivity|].
  inversion Hall as [|? ? Hv Hrest]; subst. unfold scan_interfaces. simpl.
  destruct values as [items|]; simpl in Hv; [rewrite Hv|]; apply IH; exact Hrest.
Qed.

Lemma scan_last_external (before after : NetworkInterfaces)
      (items : list NetworkInterfaceInfo) (address : string) :
  first_external_IPv4 items = Some address ->
  Forall no_external_IPv4 after ->
  scan_interfaces (before ++ Some items :: after)%list EmptyString = address.
Proof.
  intros Hitems Hafter. unfold scan_interfaces.
  rewrite fold_left_app. simpl. rewrite Hitems.
  apply scan_without_external. exact Hafter.
Qed.

Lemma digit_value_nonneg (radix : Z) (c : ascii) (d : Z) :
  digit_value radix c = Some d -> 0 <= d.
Proof.
  unfold digit_value.
  set (n := Z.of_nat (nat_of_ascii c)).
  destruct ((48 <=? n) && (n <=? 57)) eqn:E1.
  - destruct (n - 48 <? radix); [|discriminate]. intros [= <-]. lia.
  - destruct ((97 <=? n) && (n <=? 102)) eqn:E2.
    + destruct (n - 87 <? radix); [|discriminate]. intros [= <-]. lia.
    + destruct ((65 <=? n) && (n <=? 70)) eqn:E3; [|discriminate].
      destruct (n - 55 <? radix); [|discriminate]. intros [= <-]. lia.
Qed.

Lemma digits_from_nonneg (radix : Z) (s : string) :
  forall acc v, 0 <= radix -> 0 <= acc -> digits_from radix acc s = Some v -> 0 <= v.
Proof.
  induction s as [|c s IH]; intros acc v Hr Hacc; simpl.
  - intros [= <-]. exact Hacc.
  - destruct (digit_value radix c) as [d|] eqn:E; [|discriminate].
    apply digit_value_nonneg in E. apply IH; [exact Hr|nia].
Qed.

Lemma hex_prefix_digits (s : string) :
  forall acc v, digits_from 16 acc s = Some v -> hex_prefix acc true s = Some v.
Proof.
  induction s as [|c s IH]; intros acc v; simpl; [auto|].
  destruct (digit_value 16 c); [apply IH|discriminate].
Qed.

End MachineIdOfHost.

Section MachineIdOfAddress.
Import SnowflakeIdGenerator.

Lemma generateMachineId_scan (interfaces : NetworkInterfaces) (maxMachineId : Z) :
  generateMachineId interfaces maxMachineId
  = (machineId <-? (if negb (is_empty (scan_interfaces interfaces EmptyString))
                    then BigInt_of_number
                           (parseInt16
                              (remove_colons (scan_interfaces interfaces EmptyString)))
                    else Ok 0) ;;
     Ok (Z.land machineId maxMachineId)).
Proof. reflexivity. Qed.

(** [parseInt(s, 16)] reads a text that starts with a hexadecimal digit as
    far as its digits go: there is no white space or sign to skip, and a
    [0x] prefix is none when only digits follow. *)
Lemma parseInt16_unsigned (c : ascii) (rest : string) :
  digit_value 16 c <> None -> all_digits 16 rest = true ->
  parseInt16 (String c rest)
  = match hex_prefix 0 false (String c rest) with
    | Some v => Number_of_BigInt v
    | None => NumNaN
    end.
Proof.
  intros Hc Hrest.
  destruct c as [b0 b1 b2 b3 b4 b5 b6 b7].
  destruct b0, b1, b2, b3, b4, b5, b6, b7;
    try (exfalso; apply Hc; reflexivity); try reflexivity.
  destruct rest as [|c2 t]; [reflexivity|].
  destruct c2 as [b0 b1 b2 b3 b4 b5 b6 b7].
  destruct b0, b1, b2, b3, b4, b5, b6, b7; try discriminate Hrest; reflexivity.
Qed.

Lemma parseInt16_hex (s : string) (v : Z) :
  parse_digits 16 s = Some v -> parseInt16 s = Number_of_BigInt v.
Proof.
  intros Hv.
  assert (Hd : is_digits 16 s = true)
    by (apply parse_digits_is_digits; rewrite Hv; discriminate).
  destruct s as [|c rest]; [discriminate|].
  destruct (is_digits_head 16 c rest Hd) as [Hc Hrest].
  rewrite parseInt16_unsigned by assumption.
  unfold parse_digits in Hv. simpl in Hv. simpl.
  destruct (digit_value 16 c) as [d|]; [|discriminate].
  rewrite (hex_prefix_digits _ _ _ Hv). reflexivity.
Qed.

Lemma remove_colons_empty (s : string) :
  is_empty s = true -> remove_colons s = EmptyString.
Proof. destruct s; [reflexivity|discriminate]. Qed.

(** The machine id that comes out of an address of hexadecimal digits. *)
Lemma machineId_of_address (address : string) (v n : Z) :
  parse_digits 16 (remove_colons address) = Some v ->
  v < 2 ^ 53 -> 0 <= n ->
  (machineId <-? (if negb (is_empty address)
                  then BigInt_of_number (parseInt16 (remove_colons address))
                  else Ok 0) ;;
   Ok (Z.land machineId (2 ^ n - 1)))
  = Ok (v mod 2 ^ n).
Proof.
  intros Hv Hlt Hn.
  assert (H0 : 0 <= v).
  { pose proof Hv as Hv'. unfold parse_digits in Hv'.
    destruct (is_empty (remove_colons address)); [discriminate|].
    apply (digits_from_nonneg 16 (remove_colons address) 0 v); [lia|lia|exact Hv']. }
  destruct (is_empty address) eqn:E.
  - rewrite remove_colons_empty in Hv by exact E. discriminate.
  - simpl. rewrite (parseInt16_hex _ v Hv).
    rewrite Number_of_BigInt_small by lia. simpl.
    replace (2 ^ n - 1) with (Z.ones n) by (rewrite Z.ones_equiv; lia).
    rewrite Z.land_ones by exact Hn. reflexivity.
Qed.

End MachineIdOfAddress.

(** X12.  On a host with no non-internal IPv4 interface [generateMachineId]
    returns 0; and whatever it returns under a mask [2 ^ n - 1] lies in
    [0, 2 ^ n - 1]. *)
Theorem generateMachineId_default_and_range :
  (forall (interfaces : NetworkInterfaces) (maxMachineId : Z),
      Forall no_external_IPv4 interfaces ->
      SnowflakeIdGenerator.generateMachineId interfaces maxMachineId = Ok 0) /\
  (forall (interfaces : NetworkInterfaces) (n z : Z),
      0 <= n ->
      SnowflakeIdGenerator.generateMachineId interfaces (2 ^ n - 1) = Ok z ->
      0 <= z <= 2 ^ n - 1).
Proof.
  split.
  - intros interfaces maxMachineId Hall.
    rewrite generateMachineId_scan, scan_without_external by exact Hall.
    reflexivity.
  - intros interfaces n z Hn Hrun.
    exact (generateMachineId_range interfaces n z Hn Hrun).
Qed.

Lemma generateMachineId_default_and_range_example :
  SnowflakeIdGenerator.generateMachineId
    [Some [{| family := "IPv4"; internal := true; mac := "00:00:00:00:00:00" |}];
     None;
     Some [{| family := "IPv6"; internal := false; mac := "00:1a:2b:3c:4d:5e" |}]]
    1023 = Ok 0.
Proof.
  apply (proj1 generateMachineId_default_and_range).
  repeat constructor.
Defined.

(** X13.  The machine id of a host is read from the last interface group
    that holds a non-internal IPv4 entry (the first such entry of that
    group): its MAC address without the colons, read as a hexadecimal number
    below [2 ^ 53], reduced modulo [2 ^ n] under the mask [2 ^ n - 1]. *)
Theorem generateMachineId_from_MAC :
  forall (before after : NetworkInterfaces) (items : list NetworkInterfaceInfo)
         (address : string) (v n : Z),
    SnowflakeIdGenerator.first_external_IPv4 items = Some address ->
    Forall no_external_IPv4 after ->
    parse_digits 16 (remove_colons address) = Some v ->
    v < 2 ^ 53 -> 0 <= n ->
    SnowflakeIdGenerator.generateMachineId
      (before ++ Some items :: after)%list (2 ^ n - 1)
    = Ok (v mod 2 ^ n).
Proof.
  intros before after items address v n Hitems Hafter Hv Hlt Hn.
  rewrite generateMachineId_scan.
  rewrite (scan_last_external before after items address Hitems Hafter).
  apply machineId_of_address; assumption.
Qed.

Lemma generateMachineId_from_MAC_example :
  SnowflakeIdGenerator.generateMachineId
    ([Some [{| family := "IPv4"; internal := false; mac := "aa:bb:cc:dd:ee:ff" |}]]
     ++ Some [{| family := "IPv6"; internal := false; mac := "00:1a:2b:3c:4d:5e" |};
              {| family := "IPv4"; internal := false; mac := "00:1a:2b:3c:4d:5e" |};
              {| family := "IPv4"; internal := false; mac := "11:22:33:44:55:66" |}]
     :: [Some [{| family := "IPv4"; internal := true; mac := "00:00:00:00:00:00" |}]])%list
    (2 ^ 10 - 1)
  = Ok (112394521950 mod 2 ^ 10).
Proof.
  apply (generateMachineId_from_MAC _ _ _ "00:1a:2b:3c:4d:5e" 112394521950 10).
  - reflexivity.
  - repeat constructor.
  - vm_compute. reflexivity.
  - lia.
  - lia.
Defined.

(** ** [new CustomSnowflakeId(options)] *)

Section Options.
Import SnowflakeIdGenerator.

Lemma check_keys_invalid (before after : list string) (key : string) :
  Forall (fun k => includes CustomSnowflakeId.validKeys k = true) before ->
  includes CustomSnowflakeId.validKeys key = false ->
  CustomSnowflakeId.check_keys (before ++ key :: after)%list
  = Throw (ErrInvalidOption key).
Proof.
  intros Hbefore Hkey.
  induction Hbefore as [|k before Hk _ IH]; cbn [app CustomSnowflakeId.check_keys].
  - rewrite Hkey. reflexivity.
  - rewrite Hk. exact IH.
Qed.

Lemma check_keys_Ok (keys : list string) :
  CustomSnowflakeId.check_keys keys = Ok tt ->
  Forall (fun k => includes CustomSnowflakeId.validKeys k = true) keys.
Proof.
  induction keys as [|k keys IH]; cbn [CustomSnowflakeId.check_keys]; [constructor|].
  destruct (includes CustomSnowflakeId.validKeys k) eqn:E; [|discriminate].
  intros H. constructor; [exact E|apply IH; exact H].
Qed.

(** Options that are falsy and not [null] count as no options. *)
Lemma validate_options_falsy (options : JsValue) :
  truthy options = false -> options <> VNull ->
  CustomSnowflakeId.validate_options options
  = Ok {| CustomSnowflakeId.MachineIdBits := None;
          CustomSnowflakeId.SequenceBits := None;
          CustomSnowflakeId.MachineId := None;
          CustomSnowflakeId.FirstTimestamp := None |}.
Proof.
  intros Hf Hn. unfold CustomSnowflakeId.validate_options. rewrite Hf.
  destruct options; try reflexivity. congruence.
Qed.

Lemma constructor_without_options (interfaces : NetworkInterfaces) (now : Z)
      (options : JsValue) :
  CustomSnowflakeId.validate_options options
  = Ok {| CustomSnowflakeId.MachineIdBits := None;
          CustomSnowflakeId.SequenceBits := None;
          CustomSnowflakeId.MachineId := None;
          CustomSnowflakeId.FirstTimestamp := None |} ->
  CustomSnowflakeId.constructor interfaces now options
  = (g <-? defaultSnowflake interfaces ;; Ok {| CustomSnowflakeId.snowflake := g |}).
Proof.
  intros Ho. unfold CustomSnowflakeId.constructor. rewrite Ho. reflexivity.
Qed.

End Options.

(** X14.  Options that are falsy and not [null] ([undefined], [false], [0],
    [NaN], the empty string) count as no options, and an instance made
    without options is configured as the default generator of [index.js];
    [null], an array and any truthy value that is no object are refused with
    'Options must be an object'. *)
Theorem constructor_options_shape :
  forall (interfaces : NetworkInterfaces) (now : Z) (options : JsValue),
    (truthy options = false -> options <> VNull ->
     CustomSnowflakeId.constructor interfaces now options
     = (g <-? defaultSnowflake interfaces ;;
        Ok {| CustomSnowflakeId.snowflake := g |})) /\
    (options = VNull \/
     truthy options = true /\
     (typeof_object options = false \/ Array_isArray options = true) ->
     CustomSnowflakeId.constructor interfaces now options
     = Throw ErrOptionsNotObject).
Proof.
  intros interfaces now options. split.
  - intros Hf Hn. apply constructor_without_options.
    apply validate_options_falsy; assumption.
  - intros [->|[Ht Hshape]]; [reflexivity|].
    unfold CustomSnowflakeId.constructor, CustomSnowflakeId.validate_options.
    rewrite Ht.
    destruct Hshape as [H|H]; rewrite H; [reflexivity|].
    rewrite orb_true_r. reflexivity.
Qed.

Lemma constructor_options_shape_example :
  CustomSnowflakeId.constructor [] 1720000000000 (VNumber (NumInt 0))
  = (g <-? defaultSnowflake [] ;; Ok {| CustomSnowflakeId.snowflake := g |}) /\
  CustomSnowflakeId.constructor [] 1720000000000 (VArray [])
  = Throw ErrOptionsNotObject.
Proof.
  split.
  - apply (proj1 (constructor_options_shape [] 1720000000000 (VNumber (NumInt 0)))).
    + reflexivity.
    + discriminate.
  - apply (proj2 (constructor_options_shape [] 1720000000000 (VArray []))).
    right. split; [reflexivity|]. right. reflexivity.
Defined.

(** X15.  An options object with a key other than the four option names is
    refused with 'Invalid option parameter' naming the first such key,
    whatever the values of the other keys. *)
Theorem constructor_rejects_unknown_key :
  forall (interfaces : NetworkInterfaces) (now : Z)
         (props : list (string * JsValue)) (before after : list string)
         (key : string),
    map fst props = (before ++ key :: after)%list ->
    Forall (fun k => In k CustomSnowflakeId.validKeys) before ->
    ~ In key CustomSnowflakeId.validKeys ->
    CustomSnowflakeId.constructor interfaces now (VObject props)
    = Throw (ErrInvalidOption key).
Proof.
  intros interfaces now props before after key Hkeys Hbefore Hkey.
  unfold CustomSnowflakeId.constructor, CustomSnowflakeId.validate_options.
  cbn [truthy typeof_object Array_isArray negb andb orb CustomSnowflakeId.is_null
       CustomSnowflakeId.check rbind Object_keys].
  rewrite Hkeys, check_keys_invalid; [reflexivity| |].
  - eapply Forall_impl; [|exact Hbefore]. intros k Hk.
    unfold includes. apply existsb_exists. exists k.
    split; [exact Hk|apply String.eqb_refl].
  - unfold includes. apply not_true_is_false. intros H.
    apply existsb_exists in H. destruct H as (k & Hin & Heq).
    apply String.eqb_eq in Heq. subst k. exact (Hkey Hin).
Qed.

Lemma constructor_rejects_unknown_key_example :
  CustomSnowflakeId.constructor [] 1720000000000
    (VObject [("MachineId", VString "x"); ("machineId", VNumber (NumInt 5));
              ("Epoch", VNull)])
  = Throw (ErrInvalidOption "machineId").
Proof.
  apply (constructor_rejects_unknown_key [] 1720000000000 _
           ["MachineId"] ["Epoch"] "machineId").
  - reflexivity.
  - constructor; [simpl; auto 6|constructor].
  - simpl. intros [H|[H|[H|[H|[]]]]]; discriminate H.
Defined.

Section CheckedOptions.
Import SnowflakeIdGenerator.

(** The four type checks of a validation that succeeds. *)
Lemma validate_options_Ok (options : JsValue) (o : CustomSnowflakeId.Options) :
  CustomSnowflakeId.validate_options options = Ok o ->
  let opts := if negb (truthy options) then VObject [] else options in
  let keys := Object_keys opts in
  CustomSnowflakeId.check_keys keys = Ok tt /\
  (includes keys "MachineIdBits" = true ->
   CustomSnowflakeId.typeof_number (get_property opts "MachineIdBits") = true) /\
  (includes keys "SequenceBits" = true ->
   CustomSnowflakeId.typeof_number (get_property opts "SequenceBits") = true) /\
  (includes keys "MachineId" = true ->
   CustomSnowflakeId.typeof_number (get_property opts "MachineId") = true) /\
  (includes keys "FirstTimestamp" = true ->
   CustomSnowflakeId.typeof_number (get_property opts "FirstTimestamp") = true \/
   CustomSnowflakeId.instanceof_Date (get_property opts "FirstTimestamp") = true) /\
  o = {| CustomSnowflakeId.MachineIdBits :=
           CustomSnowflakeId.number_option (get_property opts "MachineIdBits");
         CustomSnowflakeId.SequenceBits :=
           CustomSnowflakeId.number_option (get_property opts "SequenceBits");
         CustomSnowflakeId.MachineId :=
           CustomSnowflakeId.number_option (get_property opts "MachineId");
         CustomSnowflakeId.FirstTimestamp :=
           CustomSnowflakeId.timestamp_option (get_property opts "FirstTimestamp") |}.
Proof.
  unfold CustomSnowflakeId.validate_options.
  destruct (CustomSnowflakeId.check (truthy options && _) _) as [[]|];
    cbn [rbind]; [|discriminate].
  destruct (CustomSnowflakeId.check (CustomSnowflakeId.is_null options) _) as [[]|];
    cbn [rbind]; [|discriminate].
  set (opts := if negb (truthy options) then VObject [] else options).
  destruct (CustomSnowflakeId.check_keys (Object_keys opts)) as [[]|];
    cbn [rbind]; [|discriminate].
  destruct (CustomSnowflakeId.check _ ErrMachineIdBitsType) as [[]|] eqn:E1;
    cbn [rbind]; [|discriminate].
  destruct (CustomSnowflakeId.check _ ErrSequenceBitsType) as [[]|] eqn:E2;
    cbn [rbind]; [|discriminate].
  destruct (CustomSnowflakeId.check _ ErrMachineIdType) as [[]|] eqn:E3;
    cbn [rbind]; [|discriminate].
  destruct (CustomSnowflakeId.check _ ErrFirstTimestampType) as [[]|] eqn:E4;
    cbn [rbind]; [|discriminate].
  apply check_Ok in E1, E2, E3, E4.
  intros [= <-]. cbv zeta.
  split; [reflexivity|].
  split; [intros H; rewrite H in E1; simpl in E1;
          destruct (get_property opts "MachineIdBits"); simpl in *; congruence|].
  split; [intros H; rewrite H in E2; simpl in E2;
          destruct (get_property opts "SequenceBits"); simpl in *; congruence|].
  split; [intros H; rewrite H in E3; simpl in E3;
          destruct (get_property opts "MachineId"); simpl in *; congruence|].
  split; [|reflexivity].
  intros H. rewrite H in E4. simpl in E4.
  destruct (get_property opts "FirstTimestamp"); simpl in *; auto; congruence.
Qed.

Lemma includes_validKeys (key : string) :
  includes CustomSnowflakeId.validKeys key = true ->
  key = "MachineIdBits" \/ key = "SequenceBits" \/ key = "MachineId"
  \/ key = "FirstTimestamp".
Proof.
  unfold includes. intros H. apply existsb_exists in H.
  destruct H as (k & Hin & Heq). apply String.eqb_eq in Heq. subst k.
  simpl in Hin. intuition auto.
Qed.

Lemma includes_In (keys : list string) (key : string) :
  includes keys key = true <-> In key keys.
Proof.
  unfold includes. rewrite existsb_exists. split.
  - intros (k & Hin & Heq). apply String.eqb_eq in Heq. subst k. exact Hin.
  - intros Hin. exists key. split; [exact Hin|apply String.eqb_refl].
Qed.

End CheckedOptions.

(** X16.  When [new CustomSnowflakeId(options)] returns, every key of
    [options] is one of the four option names and holds a number, or, for
    [FirstTimestamp], a number or a Date: a key given as [null],
    [undefined], a string or any other value is refused. *)
Theorem constructed_options_are_typed :
  forall (interfaces : NetworkInterfaces) (now : Z) (options : JsValue)
         (c : CustomSnowflakeId.t) (key : string),
    CustomSnowflakeId.constructor interfaces now options = Ok c ->
    In key (Object_keys options) ->
    In key CustomSnowflakeId.validKeys /\
    (CustomSnowflakeId.typeof_number (get_property options key) = true \/
     key = "FirstTimestamp"%string /\
     CustomSnowflakeId.instanceof_Date (get_property options key) = true).
Proof.
  intros interfaces now options c key Hc Hkey.
  destruct (CustomSnowflakeId_constructor_Ok _ _ _ _ Hc) as (o & _ & _ & Ho & _).
  apply validate_options_Ok in Ho. cbv zeta in Ho.
  destruct (truthy options) eqn:Et; simpl in Ho.
  - destruct Ho as (Hkeys & H1 & H2 & H3 & H4 & _).
    apply check_keys_Ok in Hkeys. rewrite Forall_forall in Hkeys.
    specialize (Hkeys key Hkey). apply includes_In in Hkey.
    split; [apply includes_In; exact Hkeys|].
    destruct (includes_validKeys key Hkeys) as [-> | [-> | [-> | ->]]].
    + left. exact (H1 Hkey).
    + left. exact (H2 Hkey).
    + left. exact (H3 Hkey).
    + destruct (H4 Hkey) as [H|H]; [left; exact H|right; split; [reflexivity|exact H]].
  - destruct options; simpl in Hkey; try contradiction. discriminate Et.
Qed.

Lemma constructed_options_are_typed_example :
  In "FirstTimestamp"%string CustomSnowflakeId.validKeys /\
  (CustomSnowflakeId.typeof_number (get_property example_options "FirstTimestamp")
   = true \/
   "FirstTimestamp"%string = "FirstTimestamp"%string /\
   CustomSnowflakeId.instanceof_Date (get_property example_options "FirstTimestamp")
   = true).
Proof.
  apply (constructed_options_are_typed [] 1720000000000 example_options
           {| CustomSnowflakeId.snowflake := example_generator |}).
  - vm_compute. reflexivity.
  - simpl. auto 6.
Defined.

Section Epoch.
Import SnowflakeIdGenerator.

(** The epoch of a generator is the time value of the date it was given. *)
Lemma constructor_epoch (interfaces : NetworkInterfaces) (mb sb : JsNumber)
      (mid : option JsNumber) (ft : JsDate) (g : Generator) :
  constructor interfaces mb sb mid (Some ft) = Ok g ->
  Date_getTime ft = NumInt (EPOCH g) /\ firstTimestamp g = EPOCH g.
Proof.
  unfold constructor.
  destruct (BigInt_of_number mb) as [m|]; cbn [rbind]; [|discriminate].
  destruct (BigInt_of_number sb) as [s|]; cbn [rbind]; [|discriminate].
  destruct (BigInt_pow 2 41) as [p1|]; cbn [rbind]; [|discriminate].
  destruct (BigInt_pow 2 m) as [p2|]; cbn [rbind]; [|discriminate].
  destruct (BigInt_pow 2 s) as [p3|]; cbn [rbind]; [|discriminate].
  destruct (match mid with
            | Some n => BigInt_of_number n
            | None => generateMachineId interfaces (p2 - 1)
            end) as [i|]; cbn [rbind]; [|discriminate].
  destruct (BigInt_of_number (Date_getTime ft)) as [E|] eqn:HE;
    cbn [rbind]; [|discriminate].
  intros [= <-]. simpl. split; [|reflexivity].
  apply BigInt_of_number_Ok. exact HE.
Qed.

(** A construction that succeeds, as far as the epoch goes. *)
Lemma CustomSnowflakeId_constructor_epoch (interfaces : NetworkInterfaces) (now : Z)
      (options : JsValue) (c : CustomSnowflakeId.t) :
  CustomSnowflakeId.constructor interfaces now options = Ok c ->
  exists o : CustomSnowflakeId.Options,
    CustomSnowflakeId.validate_options options = Ok o /\
    CustomSnowflakeId.check_FirstTimestamp now (CustomSnowflakeId.FirstTimestamp o)
    = Ok tt /\
    Date_getTime
      (if CustomSnowflakeId.timestamp_truthy (CustomSnowflakeId.FirstTimestamp o)
       then CustomSnowflakeId.new_Date (CustomSnowflakeId.FirstTimestamp o)
       else defaultFirstTimestamp)
    = NumInt (EPOCH (CustomSnowflakeId.snowflake c)) /\
    firstTimestamp (CustomSnowflakeId.snowflake c)
    = EPOCH (CustomSnowflakeId.snowflake c).
Proof.
  unfold CustomSnowflakeId.constructor.
  destruct (CustomSnowflakeId.validate_options options) as [o|]; [|discriminate].
  cbn [rbind].
  destruct (CustomSnowflakeId.check_FirstTimestamp now _) as [[]|] eqn:Ef;
    [|discriminate].
  cbn [rbind].
  destruct (CustomSnowflakeId.bit_widths o) as [mb sb].
  destruct (CustomSnowflakeId.check_bit_widths mb sb) as [[]|]; [|discriminate].
  cbn [rbind].
  destruct (CustomSnowflakeId.check_MachineId mb _) as [mid|]; [|discriminate].
  cbn [rbind].
  destruct (constructor interfaces mb sb mid _) as [g|] eqn:Eg; [|discriminate].
  cbn [rbind]. intros [= <-]. simpl.
  exists o. split; [reflexivity|]. split; [exact Ef|].
  apply (constructor_epoch _ _ _ _ _ _ Eg).
Qed.

Lemma timestamp_truthy_present (FirstTimestamp : option CustomSnowflakeId.TimestampOption) :
  CustomSnowflakeId.timestamp_truthy FirstTimestamp = true ->
  CustomSnowflakeId.present FirstTimestamp = true.
Proof. destruct FirstTimestamp; [reflexivity|discriminate]. Qed.

End Epoch.

(** X17.  A constructed instance starts in order: its epoch is the default,
    2024-01-01T00:00:00.000Z, or lies between 0 and the moment of
    construction; [firstTimestamp] is the epoch, [lastTimestamp] is the
    date of the epoch and [sequence] is 0 inside its field. *)
Theorem constructed_epoch_and_state :
  forall (interfaces : NetworkInterfaces) (now : Z) (options : JsValue)
         (c : CustomSnowflakeId.t),
    CustomSnowflakeId.constructor interfaces now options = Ok c ->
    let g := CustomSnowflakeId.snowflake c in
    (SnowflakeIdGenerator.EPOCH g = 1704067200000 \/
     0 <= SnowflakeIdGenerator.EPOCH g <= now) /\
    SnowflakeIdGenerator.firstTimestamp g = SnowflakeIdGenerator.EPOCH g /\
    SnowflakeIdGenerator.lastTimestamp g
    = SnowflakeIdGenerator.AsDate (SnowflakeIdGenerator.EPOCH g) /\
    SnowflakeIdGenerator.sequence g = 0 /\
    valid_state g.
Proof.
  intros interfaces now options c Hc g.
  destruct (CustomSnowflakeId_constructor_epoch _ _ _ _ Hc)
    as (o & _ & Hcheck & Hepoch & Hfirst).
  destruct (constructed_configuration _ _ _ _ Hc) as (Hseq & Hlast & _).
  destruct (constructed_bit_widths _ _ _ _ Hc) as (_ & Hsb & _).
  destruct (CustomSnowflakeId_constructor_Ok _ _ _ _ Hc) as (o2 & mid & ft & _ & _ & _ & Hg).
  destruct (constructor_spec _ _ _ _ _ _ Hg) as (_ & _ & _ & _ & _ & HmaxS & _).
  fold g in Hepoch, Hfirst, Hseq, Hlast, Hsb, HmaxS.
  assert (Hp : 0 < 2 ^ SnowflakeIdGenerator.sequenceBits g) by pow_pos.
  split; [|split; [exact Hfirst|split; [exact Hlast|split; [exact Hseq|]]]].
  - apply check_Ok in Hcheck.
    destruct (CustomSnowflakeId.timestamp_truthy _) eqn:Et.
    + right. apply timestamp_truthy_present in Et.
      rewrite Et, Hepoch in Hcheck. unfold num_gt in Hcheck.
      rewrite !num_lt_int in Hcheck. simpl in Hcheck.
      apply orb_false_elim in Hcheck. destruct Hcheck as [H0 Hnow].
      apply Z.ltb_ge in H0. apply Z.ltb_ge in Hnow. lia.
    + left. simpl in Hepoch. congruence.
  - unfold valid_state. rewrite Hlast, Hseq. simpl. lia.
Qed.

Lemma constructed_epoch_and_state_example :
  let g := example_generator in
  (SnowflakeIdGenerator.EPOCH g = 1704067200000 \/
   0 <= SnowflakeIdGenerator.EPOCH g <= 1720000000000) /\
  SnowflakeIdGenerator.firstTimestamp g = SnowflakeIdGenerator.EPOCH g /\
  SnowflakeIdGenerator.lastTimestamp g
  = SnowflakeIdGenerator.AsDate (SnowflakeIdGenerator.EPOCH g) /\
  SnowflakeIdGenerator.sequence g = 0 /\
  valid_state g.
Proof.
  apply (constructed_epoch_and_state [] 1720000000000 example_options
           {| CustomSnowflakeId.snowflake := example_generator |}).
  vm_compute. reflexivity.
Defined.

Section IgnoredFirstTimestamp.
Import SnowflakeIdGenerator.

Lemma lookup_absent (key : string) (props : list (string * JsValue)) :
  includes (map fst props) key = false -> lookup key props = VUndefined.
Proof.
  induction props as [|[k v] props IH]; simpl; [reflexivity|].
  intros H. apply orb_false_elim in H. destruct H as [Hk Hrest].
  rewrite String.eqb_sym, Hk. apply IH. exact Hrest.
Qed.

Lemma validate_options_falsy_FirstTimestamp (props : list (string * JsValue))
      (n : JsNumber) :
  includes (map fst props) "FirstTimestamp" = false ->
  CustomSnowflakeId.validate_options (VObject (("FirstTimestamp", VNumber n) :: props))
  = (o <-? CustomSnowflakeId.validate_options (VObject props) ;;
     Ok {| CustomSnowflakeId.MachineIdBits := CustomSnowflakeId.MachineIdBits o;
           CustomSnowflakeId.SequenceBits := CustomSnowflakeId.SequenceBits o;
           CustomSnowflakeId.MachineId := CustomSnowflakeId.MachineId o;
           CustomSnowflakeId.FirstTimestamp := Some (CustomSnowflakeId.TsNumber n) |}).
Proof.
  intros Habsent. unfold CustomSnowflakeId.validate_options.
  simpl. rewrite Habsent. simpl.
  destruct (CustomSnowflakeId.check_keys (map fst props)) as [[]|];
    cbn [rbind]; [|reflexivity].
  destruct (CustomSnowflakeId.check _ ErrMachineIdBitsType) as [[]|];
    cbn [rbind]; [|reflexivity].
  destruct (CustomSnowflakeId.check _ ErrSequenceBitsType) as [[]|];
    cbn [rbind]; [|reflexivity].
  destruct (CustomSnowflakeId.check _ ErrMachineIdType) as [[]|];
    cbn [rbind]; reflexivity.
Qed.

(** A number that is falsy passes the range test of [FirstTimestamp]. *)
Lemma check_FirstTimestamp_falsy (now : Z) (n : JsNumber) :
  0 <= now -> num_truthy n = false ->
  CustomSnowflakeId.check_FirstTimestamp now (Some (CustomSnowflakeId.TsNumber n))
  = Ok tt.
Proof.
  intros Hnow Hn. destruct n as [z| | |]; simpl in Hn; try discriminate.
  - apply negb_false_iff, Z.eqb_eq in Hn. subst z.
    unfold CustomSnowflakeId.check_FirstTimestamp, CustomSnowflakeId.new_Date.
    change (Date_of_number (NumInt 0)) with (Some 0).
    unfold Date_getTime, num_gt. rewrite !num_lt_int.
    destruct (now <? 0) eqn:E; [apply Z.ltb_lt in E; lia|reflexivity].
  - reflexivity.
Qed.

End IgnoredFirstTimestamp.

(** X18.  A [FirstTimestamp] that is a falsy number ([0] or [NaN]) is
    accepted and then ignored: the construction goes as if the option had
    not been given, so the epoch is the default one and not 1970. *)
Theorem falsy_FirstTimestamp_is_ignored :
  forall (interfaces : NetworkInterfaces) (now : Z)
         (props : list (string * JsValue)) (n : JsNumber),
    0 <= now ->
    ~ In "FirstTimestamp"%string (map fst props) ->
    num_truthy n = false ->
    CustomSnowflakeId.constructor interfaces now
      (VObject (("FirstTimestamp"%string, VNumber n) :: props))
    = CustomSnowflakeId.constructor interfaces now (VObject props).
Proof.
  intros interfaces now props n Hnow Hkey Hn.
  assert (Habsent : includes (map fst props) "FirstTimestamp" = false).
  { apply not_true_is_false. intros H. apply Hkey. apply includes_In. exact H. }
  unfold CustomSnowflakeId.constructor.
  rewrite (validate_options_falsy_FirstTimestamp props n Habsent).
  destruct (CustomSnowflakeId.validate_options (VObject props)) as [o|] eqn:Ho;
    cbn [rbind]; [|reflexivity].
  apply validate_options_Ok in Ho. cbv zeta in Ho. simpl in Ho.
  destruct Ho as (_ & _ & _ & _ & _ & ->).
  rewrite (lookup_absent _ _ Habsent).
  cbn [CustomSnowflakeId.FirstTimestamp CustomSnowflakeId.MachineId
       CustomSnowflakeId.timestamp_option].
  rewrite (check_FirstTimestamp_falsy now n Hnow Hn).
  unfold CustomSnowflakeId.timestamp_truthy. rewrite Hn.
  reflexivity.
Qed.

Lemma falsy_FirstTimestamp_is_ignored_example :
  CustomSnowflakeId.constructor [] 1720000000000
    (VObject [("FirstTimestamp", VNumber (NumInt 0)); ("MachineId", VNumber (NumInt 5))])
  = CustomSnowflakeId.constructor [] 1720000000000
      (VObject [("MachineId", VNumber (NumInt 5))]).
Proof.
  apply (falsy_FirstTimestamp_is_ignored [] 1720000000000
           [("MachineId", VNumber (NumInt 5))] (NumInt 0)).
  - lia.
  - simpl. intros [H|[]]. discriminate H.
  - reflexivity.
Defined.

(** ** The sequence number within a millisecond *)

Section SameMillisecond.
Import SnowflakeIdGenerator.

Variable g : Generator.
Hypothesis valid : valid_configuration g = true.

Lemma next_sequence (s : Z) :
  0 <= s < maxSequence g -> Z.land (s + 1) (maxSequence g) = s + 1.
Proof.
  intros Hs.
  destruct (valid_configuration_spec g valid) as (_ & Hsb & _ & _ & HmaxS & _).
  rewrite HmaxS in *.
  replace (2 ^ sequenceBits g - 1) with (Z.ones (sequenceBits g))
    by (rewrite Z.ones_equiv; lia).
  rewrite Z.land_ones by lia. apply Z.mod_small. lia.
Qed.


End SameMillisecond.

(** X19.  A call in the millisecond of the call before, with sequence
    numbers left, reads the clock once and returns the integer after the
    last identifier: the sequence number goes up by one and
    [lastTimestamp] stays. *)
Theorem nextId_same_millisecond :
  forall (g : SnowflakeIdGenerator.Generator) (v : Z) (rest : list Z),
    valid_configuration g = true ->
    SnowflakeIdGenerator.lastTimestamp g = SnowflakeIdGenerator.AsBigInt v ->
    0 <= SnowflakeIdGenerator.sequence g < SnowflakeIdGenerator.maxSequence g ->
    SnowflakeIdGenerator.nextId
      {| SnowflakeIdGenerator.this := g; SnowflakeIdGenerator.clock := v :: rest |}
    = Some (Ok (BigInt_toString
                  (id_value g v (SnowflakeIdGenerator.sequence g) + 1)),
            {| SnowflakeIdGenerator.this :=
                 SnowflakeIdGenerator.with_lastTimestamp
                   (SnowflakeIdGenerator.AsBigInt v)
                   (SnowflakeIdGenerator.with_sequence
                      (SnowflakeIdGenerator.sequence g + 1) g);
               SnowflakeIdGenerator.clock := rest |}).
Proof.
  intros g v rest Hg Hlast Hseq.
  unfold SnowflakeIdGenerator.nextId, SnowflakeIdGenerator.bind,
    SnowflakeIdGenerator.Date_now, SnowflakeIdGenerator.while_polling,
    SnowflakeIdGenerator.get_this.
  simpl.
  assert (Hpoll : SnowflakeIdGenerator.poll_while
                    (fun t => t <? SnowflakeIdGenerator.time_value
                                     (SnowflakeIdGenerator.lastTimestamp g)) v rest
                  = Some (v, rest))
    by (rewrite Hlast; destruct rest; simpl; rewrite Z.ltb_irrefl; reflexivity).
  rewrite Hpoll. simpl. rewrite Hlast. simpl. rewrite Z.eqb_refl. simpl.
  rewrite (next_sequence g Hg) by exact Hseq.
  destruct (SnowflakeIdGenerator.sequence g + 1 =? 0) eqn:E;
    [apply Z.eqb_eq in E; lia|].
  unfold SnowflakeIdGenerator.ret. simpl.
  change (Z.lor _ _) with (compose_id g v (SnowflakeIdGenerator.sequence g + 1)).
  rewrite (compose_id_value g Hg) by lia.
  unfold id_value. rewrite Z.add_assoc. reflexivity.
Qed.

Lemma nextId_same_millisecond_example :
  let g := SnowflakeIdGenerator.with_lastTimestamp
             (SnowflakeIdGenerator.AsBigInt 1704067200007)
             (SnowflakeIdGenerator.with_sequence 3 example_generator) in
  SnowflakeIdGenerator.nextId
    {| SnowflakeIdGenerator.this := g;
       SnowflakeIdGenerator.clock := [1704067200007; 1704067200009] |}
  = Some (Ok (BigInt_toString (id_value g 1704067200007 3 + 1)),
          {| SnowflakeIdGenerator.this :=
               SnowflakeIdGenerator.with_lastTimestamp
                 (SnowflakeIdGenerator.AsBigInt 1704067200007)
                 (SnowflakeIdGenerator.with_sequence (3 + 1) g);
             SnowflakeIdGenerator.clock := [1704067200009] |}).
Proof.
  intro g.
  apply (nextId_same_millisecond g 1704067200007 [1704067200009]).
  - reflexivity.
  - reflexivity.
  - simpl. lia.
Defined.



(** ** The default generator of [index.js] *)

Section DefaultGenerator.
Import SnowflakeIdGenerator.

Lemma defaultSnowflake_run (interfaces : NetworkInterfaces) :
  defaultSnowflake interfaces
  = (machineId <-? generateMachineId interfaces (2 ^ 10 - 1) ;;
     Ok (default_generator machineId)).
Proof. reflexivity. Qed.

End DefaultGenerator.

(** X21.  The generator that [index.js] builds when the package is loaded
    has 10 and 12 bits and the epoch 2024-01-01T00:00:00.000Z; its machine
    id is 0 on a host without a non-internal IPv4 interface, and otherwise
    the MAC address of the interface found, as a hexadecimal number below
    [2 ^ 53], modulo 1024. *)
Theorem defaultSnowflake_of_host :
  (forall interfaces : NetworkInterfaces,
      Forall no_external_IPv4 interfaces ->
      defaultSnowflake interfaces = Ok (default_generator 0)) /\
  (forall (before after : NetworkInterfaces) (items : list NetworkInterfaceInfo)
          (address : string) (v : Z),
      SnowflakeIdGenerator.first_external_IPv4 items = Some address ->
      Forall no_external_IPv4 after ->
      parse_digits 16 (remove_colons address) = Some v ->
      v < 2 ^ 53 ->
      defaultSnowflake (before ++ Some items :: after)%list
      = Ok (default_generator (v mod 1024))).
Proof.
  split.
  - intros interfaces Hall.
    rewrite defaultSnowflake_run, generateMachineId_scan.
    rewrite scan_without_external by exact Hall. reflexivity.
  - intros before after items address v Hitems Hafter Hv Hlt.
    rewrite defaultSnowflake_run, generateMachineId_scan.
    rewrite (scan_last_external before after items address Hitems Hafter).
    rewrite (machineId_of_address address v 10 Hv Hlt) by lia.
    reflexivity.
Qed.

Lemma defaultSnowflake_of_host_example :
  defaultSnowflake
    ([] ++ Some [{| family := "IPv4"; internal := false;
                    mac := "00:1a:2b:3c:4d:5e" |}]
        :: [None])%list
  = Ok (default_generator (112394521950 mod 1024)).
Proof.
  apply (proj2 defaultSnowflake_of_host [] [None] _ "00:1a:2b:3c:4d:5e" 112394521950).
  - reflexivity.
  - repeat constructor.
  - vm_compute. reflexivity.
  - lia.
Defined.

(** ** What construction accepts, and what [nextId] does not bound *)

Section AcceptedOptions.
Import SnowflakeIdGenerator.

Lemma check_bit_widths_passes (m s : Z) :
  0 < m -> 0 < s -> m + s = 22 ->
  CustomSnowflakeId.check_bit_widths (NumInt m) (NumInt s) = Ok tt.
Proof.
  intros Hm Hs Hsum. unfold CustomSnowflakeId.check_bit_widths.
  rewrite num_add_int, Hsum. change (of_dyadic 22 0) with (NumInt 22).
  unfold num_neq. rewrite num_compare_int, Z.compare_refl.
  rewrite !num_le_int.
  destruct (m <=? 0) eqn:E1; [apply Z.leb_le in E1; lia|].
  destruct (s <=? 0) eqn:E2; [apply Z.leb_le in E2; lia|].
  reflexivity.
Qed.

Lemma check_FirstTimestamp_passes (now d : Z) :
  0 <= d <= now ->
  CustomSnowflakeId.check_FirstTimestamp now
    (Some (CustomSnowflakeId.TsDate (Some d))) = Ok tt.
Proof.
  intros Hd. unfold CustomSnowflakeId.check_FirstTimestamp, num_gt.
  cbn [CustomSnowflakeId.new_Date Date_getTime CustomSnowflakeId.present].
  rewrite !num_lt_int.
  destruct (d <? 0) eqn:E1; [apply Z.ltb_lt in E1; lia|].
  destruct (now <? d) eqn:E2; [apply Z.ltb_lt in E2; lia|].
  reflexivity.
Qed.

Lemma BigInt_pow_nonneg (b : Z) : 0 <= b -> BigInt_pow 2 b = Ok (2 ^ b).
Proof.
  intros Hb. unfold BigInt_pow.
  destruct (b <? 0) eqn:E; [apply Z.ltb_lt in E; lia|reflexivity].
Qed.

End AcceptedOptions.

(** X22.  Construction accepts what the documentation allows: two positive
    integral widths that add up to 22, an integral machine id and a Date
    between 0 and the present; the generator gets these widths, the masks
    [2 ^ width - 1], this machine id and this epoch, with [sequence] 0 and
    [lastTimestamp] at the epoch. *)
Theorem constructor_accepts_valid_options :
  forall (interfaces : NetworkInterfaces) (now m s n d : Z),
    0 < m -> 0 < s -> m + s = 22 -> 0 <= d <= now ->
    CustomSnowflakeId.constructor interfaces now
      (VObject [("MachineIdBits"%string, VNumber (NumInt m));
                ("SequenceBits"%string, VNumber (NumInt s));
                ("MachineId"%string, VNumber (NumInt n));
                ("FirstTimestamp"%string, VDate (Some d))])
    = Ok {| CustomSnowflakeId.snowflake :=
              {| SnowflakeIdGenerator.timestampBits := 41;
                 SnowflakeIdGenerator.machineIdBits := m;
                 SnowflakeIdGenerator.sequenceBits := s;
                 SnowflakeIdGenerator.maxTimestamp := 2 ^ 41 - 1;
                 SnowflakeIdGenerator.maxMachineId := 2 ^ m - 1;
                 SnowflakeIdGenerator.maxSequence := 2 ^ s - 1;
                 SnowflakeIdGenerator.machineId := n;
                 SnowflakeIdGenerator.sequence := 0;
                 SnowflakeIdGenerator.lastTimestamp := SnowflakeIdGenerator.AsDate d;
                 SnowflakeIdGenerator.firstTimestamp := d;
                 SnowflakeIdGenerator.EPOCH := d |} |}.
Proof.
  intros interfaces now m s n d Hm Hs Hsum Hd.
  unfold CustomSnowflakeId.constructor.
  change (CustomSnowflakeId.validate_options _)
    with (Ok {| CustomSnowflakeId.MachineIdBits := Some (NumInt m);
                CustomSnowflakeId.SequenceBits := Some (NumInt s);
                CustomSnowflakeId.MachineId := Some (NumInt n);
                CustomSnowflakeId.FirstTimestamp :=
                  Some (CustomSnowflakeId.TsDate (Some d)) |}).
  cbn [rbind CustomSnowflakeId.FirstTimestamp CustomSnowflakeId.MachineId
       CustomSnowflakeId.bit_widths CustomSnowflakeId.MachineIdBits
       CustomSnowflakeId.SequenceBits].
  rewrite (check_FirstTimestamp_passes now d Hd).
  cbn [rbind]. rewrite (check_bit_widths_passes m s Hm Hs Hsum).
  cbn [rbind]. rewrite check_MachineId_passes by lia.
  cbn [rbind CustomSnowflakeId.timestamp_truthy CustomSnowflakeId.new_Date].
  unfold SnowflakeIdGenerator.constructor.
  cbn [BigInt_of_number rbind Date_getTime].
  rewrite !BigInt_pow_nonneg by lia.
  reflexivity.
Qed.

Lemma constructor_accepts_valid_options_example :
  CustomSnowflakeId.constructor [] 1720000000000
    (VObject [("MachineIdBits"%string, VNumber (NumInt 8));
              ("SequenceBits"%string, VNumber (NumInt 14));
              ("MachineId"%string, VNumber (NumInt 200));
              ("FirstTimestamp"%string, VDate (Some 1600000000000))])
  = Ok {| CustomSnowflakeId.snowflake :=
            {| SnowflakeIdGenerator.timestampBits := 41;
               SnowflakeIdGenerator.machineIdBits := 8;
               SnowflakeIdGenerator.sequenceBits := 14;
               SnowflakeIdGenerator.maxTimestamp := 2 ^ 41 - 1;
               SnowflakeIdGenerator.maxMachineId := 2 ^ 8 - 1;
               SnowflakeIdGenerator.maxSequence := 2 ^ 14 - 1;
               SnowflakeIdGenerator.machineId := 200;
               SnowflakeIdGenerator.sequence := 0;
               SnowflakeIdGenerator.lastTimestamp :=
                 SnowflakeIdGenerator.AsDate 1600000000000;
               SnowflakeIdGenerator.firstTimestamp := 1600000000000;
               SnowflakeIdGenerator.EPOCH := 1600000000000 |} |}.
Proof.
  apply (constructor_accepts_valid_options [] 1720000000000 8 14 200 1600000000000);
    lia.
Defined.


